(** * Object types of the ODPI-C driver: [dpiObjectType.c]

    A shallow embedding of [src/src/dpiObjectType.c].  The C functions act on
    a heap of reference-counted handles and talk to the database client
    library; here they are functions in a state monad over a [world] that
    holds the handle registry, the [malloc]ed strings, the describe handles
    of the client library, the replies the environment is going to give and
    the trace of the calls made so far.

    The functions of [dpiObjectType.c] are translated line by line.  What
    they call but the file does not define ([dpiGen__*], [dpiOci__*],
    [dpiObject__*], ...) is modelled from the specification; each such
    definition says so in its comment. *)

From Stdlib Require Import ZArith Lia.
From stdpp Require Import gmap list strings.

Local Open Scope Z_scope.

(** ** Data model *)

(** [int] status of every internal and public function. *)
Definition DPI_SUCCESS : Z := 0.
Definition DPI_FAILURE : Z := -1.

(** Kinds of handle of the generic registry. *)
Inductive dpiHandleTypeNum :=
  | DPI_HTYPE_CONN
  | DPI_HTYPE_OBJECT
  | DPI_HTYPE_OBJECT_ATTR
  | DPI_HTYPE_OBJECT_TYPE.

(** Error numbers put into the error buffer by [dpiError__set]. *)
Inductive dpiErrorNum :=
  | DPI_ERR_NO_ERR
  | DPI_ERR_NO_MEMORY
  | DPI_ERR_INVALID_HANDLE
  | DPI_ERR_NULL_POINTER_PARAMETER
  | DPI_ERR_ARRAY_SIZE_TOO_SMALL
  | DPI_ERR_ORA.

(** Addresses of [malloc]ed storage; a C pointer to it is [option addr],
    [None] being [NULL]. *)
Abbreviation addr := positive (only parsing).
Abbreviation ptr := (option positive) (only parsing).

(** The [void *] values of the client library: a handle obtained from
    [dpiOci__handleAlloc], or a descriptor / definition object handed out by
    the service ([attrGet], [paramGet], [objectPin], ...). *)
Inductive ociPtr :=
  | OciNull
  | OciHandle (n : nat)
  | OciValue (z : Z).

(** Attribute selectors and type constants of the client library (the
    [DPI_OCI_ATTR_*] macros of [dpiImpl.h]); only their identity matters. *)
Inductive ociAttr :=
  | DPI_OCI_ATTR_PARAM
  | DPI_OCI_ATTR_TYPECODE
  | DPI_OCI_ATTR_NUM_TYPE_ATTRS
  | DPI_OCI_ATTR_COLLECTION_ELEMENT
  | DPI_OCI_ATTR_LIST_TYPE_ATTRS
  | DPI_OCI_ATTR_SCHEMA_NAME
  | DPI_OCI_ATTR_TYPE_NAME
  | DPI_OCI_ATTR_NAME
  | DPI_OCI_ATTR_REF_TDO.

Inductive ociHandleType :=
  | DPI_OCI_HTYPE_DESCRIBE
  | DPI_OCI_DTYPE_PARAM.

(** Modelled from the spec: the type code that "indicates a collection".
    The macro [DPI_SQLT_NCO] is declared in [dpiImpl.h]; the value is the
    one of the client library's named collection type.  No proof below
    depends on the number. *)
Definition DPI_SQLT_NCO : Z := 122.

(** Modelled from the spec: the Oracle type number of a value that is itself
    an object, for which a nested type descriptor is resolved. *)
Definition DPI_ORACLE_TYPE_OBJECT : Z := 2023.

(** [uint16_t] values. *)
Definition uint16 (z : Z) : Z := z mod 65536.

(** [dpiDataTypeInfo]: the part the file reads and writes. *)
Record dpiDataTypeInfo := {
  oracleTypeNum : Z;
  objectType : ptr;
}.

Definition dpiDataTypeInfo_zero : dpiDataTypeInfo :=
  {| oracleTypeNum := 0; objectType := None |}.

(** [struct dpiObjectType] without its [dpiBaseType] header. *)
Record dpiObjectType := {
  ot_conn : ptr;
  ot_tdo : ociPtr;
  ot_typeCode : Z;
  ot_schema : ptr;
  ot_schemaLength : Z;
  ot_name : ptr;
  ot_nameLength : Z;
  ot_elementTypeInfo : dpiDataTypeInfo;
  ot_isCollection : Z;
  ot_numAttributes : Z;
}.

Definition dpiObjectType_zero : dpiObjectType :=
  {| ot_conn := None; ot_tdo := OciNull; ot_typeCode := 0;
     ot_schema := None; ot_schemaLength := 0;
     ot_name := None; ot_nameLength := 0;
     ot_elementTypeInfo := dpiDataTypeInfo_zero;
     ot_isCollection := 0; ot_numAttributes := 0 |}.

(** [struct dpiObject] without its header. *)
Record dpiObject := {
  ob_type : ptr;
  ob_instance : ociPtr;
  ob_indicator : ociPtr;
  ob_isIndependent : Z;
}.

Definition dpiObject_zero : dpiObject :=
  {| ob_type := None; ob_instance := OciNull; ob_indicator := OciNull;
     ob_isIndependent := 0 |}.

(** [struct dpiObjectAttr] without its header: the owned name and the
    parameter descriptor the attribute was read from. *)
Record dpiObjectAttr := {
  oa_name : ptr;
  oa_nameLength : Z;
  oa_param : ociPtr;
}.

Definition dpiObjectAttr_zero : dpiObjectAttr :=
  {| oa_name := None; oa_nameLength := 0; oa_param := OciNull |}.

(** [struct dpiObjectTypeInfo], filled by [dpiObjectType_getInfo]. *)
Record dpiObjectTypeInfo := {
  oi_name : ptr;
  oi_nameLength : Z;
  oi_schema : ptr;
  oi_schemaLength : Z;
  oi_isCollection : Z;
  oi_elementTypeInfo : dpiDataTypeInfo;
  oi_numAttributes : Z;
}.

(** What follows the common header of a handle. *)
Inductive payload :=
  | PConn
  | PObject (o : dpiObject)
  | PObjectAttr (a : dpiObjectAttr)
  | PObjectType (t : dpiObjectType).

(** A handle of the registry: the [dpiBaseType] header (reference count,
    owning environment; the type tag is the constructor of the body) and
    the body. *)
Record dpiBaseType := {
  refCount : Z;
  env : Z;
  body : payload;
}.

Definition typeNum (b : dpiBaseType) : dpiHandleTypeNum :=
  match body b with
  | PConn => DPI_HTYPE_CONN
  | PObject _ => DPI_HTYPE_OBJECT
  | PObjectAttr _ => DPI_HTYPE_OBJECT_ATTR
  | PObjectType _ => DPI_HTYPE_OBJECT_TYPE
  end.

Definition payload_zero (k : dpiHandleTypeNum) : payload :=
  match k with
  | DPI_HTYPE_CONN => PConn
  | DPI_HTYPE_OBJECT => PObject dpiObject_zero
  | DPI_HTYPE_OBJECT_ATTR => PObjectAttr dpiObjectAttr_zero
  | DPI_HTYPE_OBJECT_TYPE => PObjectType dpiObjectType_zero
  end.

#[global] Instance dpiHandleTypeNum_eq_dec : EqDecision dpiHandleTypeNum.
Proof. solve_decision. Defined.

#[global] Instance ociPtr_eq_dec : EqDecision ociPtr.
Proof. solve_decision. Defined.

(** ** The environment *)

(** One answer of the environment to a step that can fail for a reason
    outside the program: its status, and the number or the text it yields. *)
Record reply := {
  rc : Z;
  rv : Z;
  rtext : string;
}.

(** Calls that leave the file, in the order they are made. *)
Inductive event :=
  | EvAllocate (k : dpiHandleTypeNum) (h : addr)
  | EvDeallocate (h : addr)
  | EvSetRefCount (h : addr) (delta : Z) (status : Z)
  | EvStrDup (p : addr)
  | EvFree (p : addr)
  | EvHandleAlloc (h : ociPtr) (status : Z)
  | EvHandleFree (h : ociPtr)
  | EvDescribeAny (conn : ptr) (tdo : ociPtr) (h : ociPtr) (status : Z)
  | EvAttrGet (h : ociPtr) (ht : ociHandleType) (a : ociAttr) (value : Z)
      (status : Z)
  | EvAttrString (h : ociPtr) (a : ociAttr) (status : Z)
  | EvParamGet (h : ociPtr) (pos : Z) (res : ociPtr) (status : Z)
  | EvObjectPin (tdoRef tdo : ociPtr) (status : Z)
  | EvTypeInfo (h : ociPtr) (value : Z) (status : Z)
  | EvObjectNew (o : addr) (status : Z)
  | EvObjectGetInd (o : addr) (status : Z).

Record world := {
  handles : gmap positive dpiBaseType;
  strings : gmap positive string;
  ctx_live : list nat;
  ctx_next : nat;
  ctx_faults : nat;
  mem_faults : nat;
  script : nat -> reply;
  clock : nat;
  errorNum : dpiErrorNum;
  trace : list event;
}.

Definition with_handles
    (f : gmap positive dpiBaseType -> gmap positive dpiBaseType)
    (w : world) : world :=
  {| handles := f (handles w); strings := strings w;
     ctx_live := ctx_live w; ctx_next := ctx_next w; ctx_faults := ctx_faults w;
     mem_faults := mem_faults w;
     script := script w; clock := clock w; errorNum := errorNum w;
     trace := trace w |}.

Definition with_strings (f : gmap positive string -> gmap positive string)
    (w : world) : world :=
  {| handles := handles w; strings := f (strings w);
     ctx_live := ctx_live w; ctx_next := ctx_next w; ctx_faults := ctx_faults w;
     mem_faults := mem_faults w;
     script := script w; clock := clock w; errorNum := errorNum w;
     trace := trace w |}.

Definition with_ctx (live : list nat) (next : nat) (w : world) : world :=
  {| handles := handles w; strings := strings w;
     ctx_live := live; ctx_next := next; ctx_faults := ctx_faults w;
     mem_faults := mem_faults w;
     script := script w; clock := clock w; errorNum := errorNum w;
     trace := trace w |}.

Definition with_mem_fault (w : world) : world :=
  {| handles := handles w; strings := strings w;
     ctx_live := ctx_live w; ctx_next := ctx_next w;
     ctx_faults := ctx_faults w; mem_faults := S (mem_faults w);
     script := script w; clock := clock w; errorNum := errorNum w;
     trace := trace w |}.

Definition with_ctx_fault (w : world) : world :=
  {| handles := handles w; strings := strings w;
     ctx_live := ctx_live w; ctx_next := ctx_next w;
     ctx_faults := S (ctx_faults w); mem_faults := mem_faults w;
     script := script w; clock := clock w; errorNum := errorNum w;
     trace := trace w |}.

Definition with_clock (c : nat) (w : world) : world :=
  {| handles := handles w; strings := strings w;
     ctx_live := ctx_live w; ctx_next := ctx_next w; ctx_faults := ctx_faults w;
     mem_faults := mem_faults w;
     script := script w; clock := c; errorNum := errorNum w;
     trace := trace w |}.

Definition with_error (e : dpiErrorNum) (w : world) : world :=
  {| handles := handles w; strings := strings w;
     ctx_live := ctx_live w; ctx_next := ctx_next w; ctx_faults := ctx_faults w;
     mem_faults := mem_faults w;
     script := script w; clock := clock w; errorNum := e;
     trace := trace w |}.

Definition with_event (e : event) (w : world) : world :=
  {| handles := handles w; strings := strings w;
     ctx_live := ctx_live w; ctx_next := ctx_next w; ctx_faults := ctx_faults w;
     mem_faults := mem_faults w;
     script := script w; clock := clock w; errorNum := errorNum w;
     trace := trace w ++ [e] |}.

(** ** The monad

    A computation takes the world and yields a value and the next world;
    [None] is undefined behaviour of the C program (a dereference of storage
    that is not live) or the exhaustion of the recursion budget. *)
Definition M (A : Type) : Type := world -> option (A * world).

Definition ret {A} (a : A) : M A := fun w => Some (a, w).

Definition bind {A B} (m : M A) (f : A -> M B) : M B :=
  fun w => match m w with
           | Some (a, w') => f a w'
           | None => None
           end.

Definition undefined {A} : M A := fun _ => None.

Notation "'let*' x := m 'in' k" := (bind m (fun x => k))
  (at level 10, x name, m at level 100, k at level 200).
Notation "'let*' ' pat := m 'in' k" :=
  (bind m (fun x => match x with pat => k end))
  (at level 10, pat pattern, m at level 100, k at level 200).
Notation "m ;; k" := (bind m (fun _ => k))
  (at level 100, k at level 200, right associativity).

Definition modify (f : world -> world) : M unit := fun w => Some (tt, f w).

Definition get {A} (f : world -> A) : M A := fun w => Some (f w, w).

Definition emit (e : event) : M unit := modify (with_event e).

(** The next answer of the environment. *)
Definition next_reply : M reply :=
  let* r := get (fun w => script w (clock w)) in
  modify (fun w => with_clock (S (clock w)) w) ;;
  ret r.

(** Reading and writing a handle through a pointer; the storage has to be
    live. *)
Definition load (h : addr) : M dpiBaseType :=
  let* live := get (fun w => handles w !! h) in
  match live with
  | Some b => ret b
  | None => undefined
  end.

Definition store (h : addr) (b : dpiBaseType) : M unit :=
  modify (with_handles (insert h b)).

Definition load_objType (h : addr) : M dpiObjectType :=
  let* b := load h in
  match body b with
  | PObjectType t => ret t
  | _ => undefined
  end.

Definition update_objType (h : addr) (f : dpiObjectType -> dpiObjectType)
    : M unit :=
  let* b := load h in
  match body b with
  | PObjectType t =>
      store h {| refCount := refCount b; env := env b;
                 body := PObjectType (f t) |}
  | _ => undefined
  end.

Definition load_object (h : addr) : M dpiObject :=
  let* b := load h in
  match body b with
  | PObject o => ret o
  | _ => undefined
  end.

Definition update_object (h : addr) (f : dpiObject -> dpiObject) : M unit :=
  let* b := load h in
  match body b with
  | PObject o =>
      store h {| refCount := refCount b; env := env b;
                 body := PObject (f o) |}
  | _ => undefined
  end.

(** Field updates of [dpiObjectType]. *)
Definition set_conn (v : ptr) (t : dpiObjectType) : dpiObjectType :=
  {| ot_conn := v; ot_tdo := ot_tdo t; ot_typeCode := ot_typeCode t;
     ot_schema := ot_schema t; ot_schemaLength := ot_schemaLength t;
     ot_name := ot_name t; ot_nameLength := ot_nameLength t;
     ot_elementTypeInfo := ot_elementTypeInfo t;
     ot_isCollection := ot_isCollection t;
     ot_numAttributes := ot_numAttributes t |}.

Definition set_tdo (v : ociPtr) (t : dpiObjectType) : dpiObjectType :=
  {| ot_conn := ot_conn t; ot_tdo := v; ot_typeCode := ot_typeCode t;
     ot_schema := ot_schema t; ot_schemaLength := ot_schemaLength t;
     ot_name := ot_name t; ot_nameLength := ot_nameLength t;
     ot_elementTypeInfo := ot_elementTypeInfo t;
     ot_isCollection := ot_isCollection t;
     ot_numAttributes := ot_numAttributes t |}.

Definition set_typeCode (v : Z) (t : dpiObjectType) : dpiObjectType :=
  {| ot_conn := ot_conn t; ot_tdo := ot_tdo t; ot_typeCode := v;
     ot_schema := ot_schema t; ot_schemaLength := ot_schemaLength t;
     ot_name := ot_name t; ot_nameLength := ot_nameLength t;
     ot_elementTypeInfo := ot_elementTypeInfo t;
     ot_isCollection := ot_isCollection t;
     ot_numAttributes := ot_numAttributes t |}.

Definition set_schema (v : ptr) (len : Z) (t : dpiObjectType)
    : dpiObjectType :=
  {| ot_conn := ot_conn t; ot_tdo := ot_tdo t; ot_typeCode := ot_typeCode t;
     ot_schema := v; ot_schemaLength := len;
     ot_name := ot_name t; ot_nameLength := ot_nameLength t;
     ot_elementTypeInfo := ot_elementTypeInfo t;
     ot_isCollection := ot_isCollection t;
     ot_numAttributes := ot_numAttributes t |}.

Definition set_name (v : ptr) (len : Z) (t : dpiObjectType) : dpiObjectType :=
  {| ot_conn := ot_conn t; ot_tdo := ot_tdo t; ot_typeCode := ot_typeCode t;
     ot_schema := ot_schema t; ot_schemaLength := ot_schemaLength t;
     ot_name := v; ot_nameLength := len;
     ot_elementTypeInfo := ot_elementTypeInfo t;
     ot_isCollection := ot_isCollection t;
     ot_numAttributes := ot_numAttributes t |}.

Definition set_elementTypeInfo (v : dpiDataTypeInfo) (t : dpiObjectType)
    : dpiObjectType :=
  {| ot_conn := ot_conn t; ot_tdo := ot_tdo t; ot_typeCode := ot_typeCode t;
     ot_schema := ot_schema t; ot_schemaLength := ot_schemaLength t;
     ot_name := ot_name t; ot_nameLength := ot_nameLength t;
     ot_elementTypeInfo := v;
     ot_isCollection := ot_isCollection t;
     ot_numAttributes := ot_numAttributes t |}.

Definition set_isCollection (v : Z) (t : dpiObjectType) : dpiObjectType :=
  {| ot_conn := ot_conn t; ot_tdo := ot_tdo t; ot_typeCode := ot_typeCode t;
     ot_schema := ot_schema t; ot_schemaLength := ot_schemaLength t;
     ot_name := ot_name t; ot_nameLength := ot_nameLength t;
     ot_elementTypeInfo := ot_elementTypeInfo t;
     ot_isCollection := v;
     ot_numAttributes := ot_numAttributes t |}.

Definition set_numAttributes (v : Z) (t : dpiObjectType) : dpiObjectType :=
  {| ot_conn := ot_conn t; ot_tdo := ot_tdo t; ot_typeCode := ot_typeCode t;
     ot_schema := ot_schema t; ot_schemaLength := ot_schemaLength t;
     ot_name := ot_name t; ot_nameLength := ot_nameLength t;
     ot_elementTypeInfo := ot_elementTypeInfo t;
     ot_isCollection := ot_isCollection t;
     ot_numAttributes := v |}.

Definition set_objectType (v : ptr) (i : dpiDataTypeInfo) : dpiDataTypeInfo :=
  {| oracleTypeNum := oracleTypeNum i; objectType := v |}.

Definition set_oracleTypeNum (v : Z) (i : dpiDataTypeInfo) : dpiDataTypeInfo :=
  {| oracleTypeNum := v; objectType := objectType i |}.

Definition set_type (v : ptr) (o : dpiObject) : dpiObject :=
  {| ob_type := v; ob_instance := ob_instance o;
     ob_indicator := ob_indicator o;
     ob_isIndependent := ob_isIndependent o |}.

Definition set_instance (v : ociPtr) (o : dpiObject) : dpiObject :=
  {| ob_type := ob_type o; ob_instance := v;
     ob_indicator := ob_indicator o;
     ob_isIndependent := ob_isIndependent o |}.

Definition set_indicator (v : ociPtr) (o : dpiObject) : dpiObject :=
  {| ob_type := ob_type o; ob_instance := ob_instance o;
     ob_indicator := v;
     ob_isIndependent := ob_isIndependent o |}.

(** The status a step of the environment reports. *)
Definition status_of (r : reply) : Z :=
  if rc r <? 0 then DPI_FAILURE else DPI_SUCCESS.

(** ** Storage *)

(** [free] of the storage of a handle.  Freeing storage that is not live is
    counted in [mem_faults]. *)
Definition free_handle (h : addr) : M unit :=
  let* live := get (fun w => handles w !! h) in
  match live with
  | Some _ => modify (with_handles (delete h))
  | None => modify with_mem_fault
  end ;;
  emit (EvDeallocate h).

(** [free] of a string obtained from [dpiUtils__getAttrStringWithDup]. *)
Definition free_string (p : addr) : M unit :=
  let* live := get (fun w => strings w !! p) in
  match live with
  | Some _ => modify (with_strings (delete p))
  | None => modify with_mem_fault
  end ;;
  emit (EvFree p).

(** ** The generic handle registry ([dpiGen.c], [dpiError.c]) *)

(** Modelled from the spec: [dpiError__set] is not in the sources; it
    records the error of the failing operation and yields the failure
    status. *)
Definition dpiError__set (e : dpiErrorNum) : M Z :=
  modify (with_error e) ;; ret DPI_FAILURE.

(** Modelled from the spec: the macro [DPI_CHECK_PTR_NOT_NULL] of
    [dpiImpl.h] is not in the sources; it makes the public function return
    with an error when the pointer it is given is [NULL]. *)
Definition DPI_CHECK_PTR_NOT_NULL {A} (p : option A) : M Z :=
  match p with
  | Some _ => ret DPI_SUCCESS
  | None => dpiError__set DPI_ERR_NULL_POINTER_PARAMETER
  end.

(** Modelled from the spec: [dpiGen__allocate] is not in the sources.
    "allocates zeroed storage tagged with kind, sets reference count to 1,
    records the owning environment.  Fails with AllocationError if storage
    cannot be obtained."  Whether storage can be obtained is the
    environment's answer. *)
Definition dpiGen__allocate (k : dpiHandleTypeNum) (e : Z) : M (Z * ptr) :=
  let* r := next_reply in
  if rc r <? 0 then
    let* st := dpiError__set DPI_ERR_NO_MEMORY in
    ret (st, None)
  else
    let* h := get (fun w => fresh (dom (handles w))) in
    store h {| refCount := 1; env := e; body := payload_zero k |} ;;
    emit (EvAllocate k h) ;;
    ret (DPI_SUCCESS, Some h).

(** Modelled from the spec: [dpiGen__startPublicFn] is not in the sources.
    "validates the handle's kind and liveness and produces a fresh per-call
    error context". *)
Definition dpiGen__startPublicFn (p : ptr) (k : dpiHandleTypeNum) : M Z :=
  match p with
  | Some h =>
      let* live := get (fun w => handles w !! h) in
      match live with
      | Some b =>
          if decide (typeNum b = k) then ret DPI_SUCCESS
          else dpiError__set DPI_ERR_INVALID_HANDLE
      | None => dpiError__set DPI_ERR_INVALID_HANDLE
      end
  | None => dpiError__set DPI_ERR_INVALID_HANDLE
  end.

Section Destructors.

(** [dpiGen__setRefCount] with what is left of the recursion budget: the
    destructors release the references their handle holds, which may run
    further destructors. *)
Variable release : addr -> Z -> M Z.

(** [dpiObjectType__free], lines 114-133. *)
Definition dpiObjectType__free_with (objType : addr) : M unit :=
  let* t := load_objType objType in
  match ot_conn t with
  | Some c =>
      release c (-1) ;;
      update_objType objType (set_conn None)
  | None => ret tt
  end ;;
  let* t := load_objType objType in
  match objectType (ot_elementTypeInfo t) with
  | Some e =>
      release e (-1) ;;
      update_objType objType
        (fun t => set_elementTypeInfo
                    (set_objectType None (ot_elementTypeInfo t)) t)
  | None => ret tt
  end ;;
  let* t := load_objType objType in
  match ot_schema t with
  | Some s =>
      free_string s ;;
      update_objType objType (fun t => set_schema None (ot_schemaLength t) t)
  | None => ret tt
  end ;;
  let* t := load_objType objType in
  match ot_name t with
  | Some n =>
      free_string n ;;
      update_objType objType (fun t => set_name None (ot_nameLength t) t)
  | None => ret tt
  end ;;
  free_handle objType.

(** Modelled from the spec: [dpiObject__free] is not in the sources.
    "Destruction releases the TypeDescriptor reference"; the storage of
    the instance is then freed. *)
Definition dpiObject__free_with (obj : addr) : M unit :=
  let* o := load_object obj in
  match ob_type o with
  | Some t =>
      release t (-1) ;;
      update_object obj (set_type None)
  | None => ret tt
  end ;;
  free_handle obj.

End Destructors.

(** Modelled from the spec: [dpiGen__setRefCount] is not in the sources.
    "adjusts the count by an arbitrary signed delta [...] When the
    resulting count reaches zero, invokes the resource's destructor and
    frees storage."  The spec names no cause of failure, yet the source
    tests the status of the increment (line 38) and ignores the status of
    every decrement (lines 117, 121, 215, 221): the environment may refuse
    an increment, which leaves the count as it was, and a decrement is
    never refused.  The destructors of the kinds that are not object types
    or objects ([dpiConn__free], ...) are out of scope; for them the
    storage is freed. *)
Fixpoint dpiGen__setRefCount (fuel : nat) (h : addr) (increment : Z) : M Z :=
  match fuel with
  | O => undefined
  | S fuel' =>
      let* b := load h in
      let* refused :=
        (if 0 <? increment then
           let* r := next_reply in ret (rc r <? 0)
         else ret false) in
      if refused : bool then
        emit (EvSetRefCount h increment DPI_FAILURE) ;;
        dpiError__set DPI_ERR_ORA
      else
        store h {| refCount := refCount b + increment; env := env b;
                   body := body b |} ;;
        emit (EvSetRefCount h increment DPI_SUCCESS) ;;
        (if refCount b + increment =? 0 then
           match body b with
           | PObjectType _ =>
               dpiObjectType__free_with (dpiGen__setRefCount fuel') h
           | PObject _ =>
               dpiObject__free_with (dpiGen__setRefCount fuel') h
           | _ => free_handle h
           end
         else ret tt) ;;
        ret DPI_SUCCESS
  end.

Definition dpiObjectType__free (fuel : nat) (objType : addr) : M unit :=
  dpiObjectType__free_with (dpiGen__setRefCount fuel) objType.

Definition dpiObject__free (fuel : nat) (obj : addr) : M unit :=
  dpiObject__free_with (dpiGen__setRefCount fuel) obj.

(** Modelled from the spec: [dpiGen__addRef] and [dpiGen__release] are not
    in the sources.  "fails with InvalidHandle if the handle's tag does not
    match expectedKind [...] otherwise atomically increments the reference
    count"; release is "equivalent to setRefCount(handle, -1) with the same
    kind check". *)
Definition dpiGen__addRef (fuel : nat) (p : ptr) (k : dpiHandleTypeNum)
    : M Z :=
  let* st := dpiGen__startPublicFn p k in
  if st <? 0 then ret DPI_FAILURE else
  match p with
  | Some h => dpiGen__setRefCount fuel h 1
  | None => undefined
  end.

Definition dpiGen__release (fuel : nat) (p : ptr) (k : dpiHandleTypeNum)
    : M Z :=
  let* st := dpiGen__startPublicFn p k in
  if st <? 0 then ret DPI_FAILURE else
  match p with
  | Some h => dpiGen__setRefCount fuel h (-1)
  | None => undefined
  end.

(** ** The client library ([dpiOci.c], [dpiUtils.c]) *)

(** Modelled from the spec: the wrappers [dpiOci__*] are not in the
    sources.  "allocateContext(kind) / freeContext(context): scoped
    acquisition/release of transient description contexts".  The library
    hands out a context it has never handed out before; freeing one that is
    not live is counted in [ctx_faults]. *)
Definition dpiOci__handleAlloc (e : Z) (ht : ociHandleType)
    : M (Z * ociPtr) :=
  let* r := next_reply in
  if rc r <? 0 then
    emit (EvHandleAlloc OciNull DPI_FAILURE) ;;
    let* st := dpiError__set DPI_ERR_ORA in
    ret (st, OciNull)
  else
    let* n := get ctx_next in
    modify (fun w => with_ctx (n :: ctx_live w) (S n) w) ;;
    emit (EvHandleAlloc (OciHandle n) DPI_SUCCESS) ;;
    ret (DPI_SUCCESS, OciHandle n).

Fixpoint ctx_remove (n : nat) (l : list nat) : list nat :=
  match l with
  | [] => []
  | m :: l' => if decide (m = n) then l' else m :: ctx_remove n l'
  end.

Definition dpiOci__handleFree (h : ociPtr) (ht : ociHandleType) : M unit :=
  match h with
  | OciHandle n =>
      let* live := get ctx_live in
      if decide (n ∈ live)
      then modify (fun w => with_ctx (ctx_remove n live) (ctx_next w) w)
      else modify with_ctx_fault
  | _ => modify with_ctx_fault
  end ;;
  emit (EvHandleFree h).

(** Modelled from the spec: "describeAny(connection, definitionHandle,
    describeContext) -> result: performs a full metadata describe". *)
Definition dpiOci__describeAny (conn : ptr) (obj : ociPtr) (h : ociPtr)
    : M Z :=
  let* r := next_reply in
  emit (EvDescribeAny conn obj h (status_of r)) ;;
  if rc r <? 0 then dpiError__set DPI_ERR_ORA else ret DPI_SUCCESS.

(** Modelled from the spec: "getAttribute(descriptorParam,
    attributeSelector) -> value: generic attribute-read primitive".  The
    value read is given back with the status; it is meaningful on success
    only. *)
Definition dpiOci__attrGet (h : ociPtr) (ht : ociHandleType) (a : ociAttr)
    : M (Z * Z) :=
  let* r := next_reply in
  emit (EvAttrGet h ht a (rv r) (status_of r)) ;;
  if rc r <? 0 then
    let* st := dpiError__set DPI_ERR_ORA in ret (st, 0)
  else ret (DPI_SUCCESS, rv r).

(** Modelled from the spec: "getNthSubParameter(listParam, index) ->
    subParam: 1-based positional lookup". *)
Definition dpiOci__paramGet (h : ociPtr) (ht : ociHandleType) (pos : Z)
    : M (Z * ociPtr) :=
  let* r := next_reply in
  if rc r <? 0 then
    emit (EvParamGet h pos OciNull DPI_FAILURE) ;;
    let* st := dpiError__set DPI_ERR_ORA in ret (st, OciNull)
  else
    emit (EvParamGet h pos (OciValue (rv r)) DPI_SUCCESS) ;;
    ret (DPI_SUCCESS, OciValue (rv r)).

(** Modelled from the spec: "pinDefinition(environment,
    definitionReference) -> pinnedHandle". *)
Definition dpiOci__objectPin (e : Z) (tdoRef : ociPtr) : M (Z * ociPtr) :=
  let* r := next_reply in
  if rc r <? 0 then
    emit (EvObjectPin tdoRef OciNull DPI_FAILURE) ;;
    let* st := dpiError__set DPI_ERR_ORA in ret (st, OciNull)
  else
    emit (EvObjectPin tdoRef (OciValue (rv r)) DPI_SUCCESS) ;;
    ret (DPI_SUCCESS, OciValue (rv r)).

(** Modelled from the spec: "instantiate(typeDescriptor) -> (instanceData,
    nullIndicator)", in the two calls the source makes. *)
Definition dpiOci__objectNew (obj : addr) : M Z :=
  let* r := next_reply in
  emit (EvObjectNew obj (status_of r)) ;;
  if rc r <? 0 then dpiError__set DPI_ERR_ORA
  else
    update_object obj (set_instance (OciValue (rv r))) ;;
    ret DPI_SUCCESS.

Definition dpiOci__objectGetInd (obj : addr) : M Z :=
  let* r := next_reply in
  emit (EvObjectGetInd obj (status_of r)) ;;
  if rc r <? 0 then dpiError__set DPI_ERR_ORA
  else
    update_object obj (set_indicator (OciValue (rv r))) ;;
    ret DPI_SUCCESS.

(** Modelled from the spec: [dpiUtils__getAttrStringWithDup] is not in the
    sources.  It reads a text attribute and gives the caller a copy it
    owns, with its length. *)
Definition dpiUtils__getAttrStringWithDup (h : ociPtr) (ht : ociHandleType)
    (a : ociAttr) : M (Z * ptr * Z) :=
  let* r := next_reply in
  emit (EvAttrString h a (status_of r)) ;;
  if rc r <? 0 then
    let* st := dpiError__set DPI_ERR_ORA in ret (st, None, 0)
  else
    let* p := get (fun w => fresh (dom (strings w))) in
    modify (with_strings (insert p (rtext r))) ;;
    emit (EvStrDup p) ;;
    ret (DPI_SUCCESS, Some p, Z.of_nat (String.length (rtext r))).

(** Modelled from the spec: [dpiObjectAttr__allocate] is not in the
    sources.  It "materializes an AttributeDescriptor" from the attribute's
    parameter descriptor: a handle of the registry that owns the name of
    the attribute.  As in [dpiObjectType__allocate], the output pointer is
    [NULL] unless the whole construction succeeds.  The spec also gives an
    AttributeDescriptor "attribute-level type info" and does not say how
    it is obtained: this part is left out, so the model says nothing of
    the descriptors that the type of an attribute may bring with it, nor
    of the references they take on the connection.  What is proved of
    [dpiObjectType_getAttributes] is what its own lines do (the checks,
    the calls and their order, the cells written, the describe handle)
    and what becomes of the attribute handles themselves. *)
Definition dpiObjectAttr__allocate (objType : addr) (param : ociPtr)
    : M (Z * ptr) :=
  let* b := load objType in
  let* '(st, tempAttr) := dpiGen__allocate DPI_HTYPE_OBJECT_ATTR (env b) in
  if st <? 0 then ret (DPI_FAILURE, None) else
  match tempAttr with
  | None => undefined
  | Some a =>
      let* '(st, p, len) :=
        dpiUtils__getAttrStringWithDup param DPI_OCI_DTYPE_PARAM
          DPI_OCI_ATTR_NAME in
      if st <? 0 then
        free_handle a ;;
        ret (DPI_FAILURE, None)
      else
        store a {| refCount := 1; env := env b;
                   body := PObjectAttr {| oa_name := p; oa_nameLength := len;
                                          oa_param := param |} |} ;;
        ret (DPI_SUCCESS, Some a)
  end.

(** Modelled from the spec: [dpiObject__allocate] is not in the sources.
    "allocates an ObjectInstance (registry-managed), takes a counted
    reference to the TypeDescriptor"; a reference that cannot be taken
    tears the new instance down, as [dpiObjectType__allocate] does. *)
Definition dpiObject__allocate (fuel : nat) (objType : addr)
    (instance indicator : ociPtr) (isIndependent : Z) : M (Z * ptr) :=
  let* b := load objType in
  let* '(st, tempObj) := dpiGen__allocate DPI_HTYPE_OBJECT (env b) in
  if st <? 0 then ret (DPI_FAILURE, None) else
  match tempObj with
  | None => undefined
  | Some o =>
      let* st := dpiGen__setRefCount fuel objType 1 in
      if st <? 0 then
        dpiObject__free fuel o ;;
        ret (DPI_FAILURE, None)
      else
        update_object o (fun _ =>
          {| ob_type := Some objType; ob_instance := instance;
             ob_indicator := indicator;
             ob_isIndependent := isIndependent |}) ;;
        ret (DPI_SUCCESS, Some o)
  end.

(** ** [dpiObjectType.c] *)

Section Describe.

(** [dpiObjectType__allocate] with what is left of the recursion budget:
    the element of a collection may be an object, whose type is described
    by the same procedure. *)
Variable allocate : ptr -> ociPtr -> ociAttr -> M (Z * ptr).

(** Modelled from the spec: [dpiOracleType__populateTypeInfo] is not in
    the sources.  "reads the collection's element-type sub-parameter and
    recursively resolves a nested TypeDescriptor for it (same procedure,
    not the same name-attribute selector necessarily)".  The source
    passes [&objType->elementTypeInfo]: the information is written into
    the descriptor [owner]. *)
Definition dpiOracleType__populateTypeInfo_with (conn : ptr) (h : ociPtr)
    (ht : ociHandleType) (owner : addr) : M Z :=
  let* r := next_reply in
  emit (EvTypeInfo h (rv r) (status_of r)) ;;
  if rc r <? 0 then dpiError__set DPI_ERR_ORA else
  update_objType owner
    (fun t => set_elementTypeInfo
                (set_oracleTypeNum (rv r) (ot_elementTypeInfo t)) t) ;;
  if rv r =? DPI_ORACLE_TYPE_OBJECT then
    let* '(st, p) := allocate conn h DPI_OCI_ATTR_TYPE_NAME in
    update_objType owner
      (fun t => set_elementTypeInfo
                  (set_objectType p (ot_elementTypeInfo t)) t) ;;
    if st <? 0 then ret DPI_FAILURE else ret DPI_SUCCESS
  else ret DPI_SUCCESS.

(** [dpiObjectType__describe], lines 61-107. *)
Definition dpiObjectType__describe_with (objType : addr)
    (describeHandle : ociPtr) : M Z :=
  (* describe the type *)
  let* t := load_objType objType in
  let* st := dpiOci__describeAny (ot_conn t) (ot_tdo t) describeHandle in
  if st <? 0 then ret DPI_FAILURE else
  (* get top level parameter descriptor *)
  let* '(st, v) := dpiOci__attrGet describeHandle DPI_OCI_HTYPE_DESCRIBE
                     DPI_OCI_ATTR_PARAM in
  if st <? 0 then ret DPI_FAILURE else
  let param := OciValue v in
  (* determine type code *)
  let* '(st, v) := dpiOci__attrGet param DPI_OCI_DTYPE_PARAM
                     DPI_OCI_ATTR_TYPECODE in
  if st <? 0 then ret DPI_FAILURE else
  let typeCode := uint16 v in
  update_objType objType (set_typeCode typeCode) ;;
  (* determine the number of attributes *)
  let* '(st, v) := dpiOci__attrGet param DPI_OCI_DTYPE_PARAM
                     DPI_OCI_ATTR_NUM_TYPE_ATTRS in
  if st <? 0 then ret DPI_FAILURE else
  update_objType objType (set_numAttributes (uint16 v)) ;;
  (* if a collection, need to determine the element type *)
  if typeCode =? DPI_SQLT_NCO then
    update_objType objType (set_isCollection 1) ;;
    (* acquire collection parameter descriptor *)
    let* '(st, v) := dpiOci__attrGet param DPI_OCI_DTYPE_PARAM
                       DPI_OCI_ATTR_COLLECTION_ELEMENT in
    if st <? 0 then ret DPI_FAILURE else
    let collectionParam := OciValue v in
    (* determine type of element *)
    let* t := load_objType objType in
    let* st := dpiOracleType__populateTypeInfo_with (ot_conn t)
                 collectionParam DPI_OCI_DTYPE_PARAM objType in
    if st <? 0 then ret DPI_FAILURE else
    ret DPI_SUCCESS
  else ret DPI_SUCCESS.

(** [dpiObjectType__init], lines 140-180. *)
Definition dpiObjectType__init_with (objType : addr) (param : ociPtr)
    (nameAttribute : ociAttr) : M Z :=
  (* determine the schema of the type *)
  let* '(st, p, len) :=
    dpiUtils__getAttrStringWithDup param DPI_OCI_DTYPE_PARAM
      DPI_OCI_ATTR_SCHEMA_NAME in
  if st <? 0 then ret DPI_FAILURE else
  update_objType objType (set_schema p len) ;;
  (* determine the name of the type *)
  let* '(st, p, len) :=
    dpiUtils__getAttrStringWithDup param DPI_OCI_DTYPE_PARAM
      nameAttribute in
  if st <? 0 then ret DPI_FAILURE else
  update_objType objType (set_name p len) ;;
  (* retrieve TDO of the parameter and pin it in the cache *)
  let* '(st, v) := dpiOci__attrGet param DPI_OCI_DTYPE_PARAM
                     DPI_OCI_ATTR_REF_TDO in
  if st <? 0 then ret DPI_FAILURE else
  let tdoReference := OciValue v in
  let* b := load objType in
  let* '(st, tdo) := dpiOci__objectPin (env b) tdoReference in
  if st <? 0 then ret DPI_FAILURE else
  update_objType objType (set_tdo tdo) ;;
  (* acquire a describe handle *)
  let* b := load objType in
  let* '(st, describeHandle) :=
    dpiOci__handleAlloc (env b) DPI_OCI_HTYPE_DESCRIBE in
  if st <? 0 then ret DPI_FAILURE else
  (* describe the type *)
  let* st := dpiObjectType__describe_with objType describeHandle in
  if st <? 0 then
    dpiOci__handleFree describeHandle DPI_OCI_HTYPE_DESCRIBE ;;
    ret DPI_FAILURE
  else
  (* free the describe handle *)
  dpiOci__handleFree describeHandle DPI_OCI_HTYPE_DESCRIBE ;;
  ret DPI_SUCCESS.

End Describe.

(** [dpiObjectType__allocate], lines 28-52.  The second component of the
    result is what the call leaves in [*objType]. *)
Fixpoint dpiObjectType__allocate (fuel : nat) (conn : ptr) (param : ociPtr)
    (nameAttribute : ociAttr) : M (Z * ptr) :=
  match fuel with
  | O => undefined
  | S fuel' =>
      (* create structure and retain reference to connection *)
      let objType : ptr := None in
      match conn with
      | None => undefined
      | Some c =>
          let* cb := load c in
          let* '(st, tempObjType) :=
            dpiGen__allocate DPI_HTYPE_OBJECT_TYPE (env cb) in
          if st <? 0 then ret (DPI_FAILURE, objType) else
          match tempObjType with
          | None => undefined
          | Some temp =>
              let* st := dpiGen__setRefCount fuel c 1 in
              if st <? 0 then
                dpiObjectType__free fuel temp ;;
                ret (DPI_FAILURE, objType)
              else
              update_objType temp (set_conn conn) ;;
              (* perform initialization *)
              let* st :=
                dpiObjectType__init_with (dpiObjectType__allocate fuel')
                  temp param nameAttribute in
              if st <? 0 then
                dpiObjectType__free fuel temp ;;
                ret (DPI_FAILURE, objType)
              else
              let objType : ptr := Some temp in
              ret (DPI_SUCCESS, objType)
          end
      end
  end.

Definition dpiOracleType__populateTypeInfo (fuel : nat) :=
  dpiOracleType__populateTypeInfo_with (dpiObjectType__allocate fuel).

Definition dpiObjectType__describe (fuel : nat) :=
  dpiObjectType__describe_with (dpiObjectType__allocate fuel).

Definition dpiObjectType__init (fuel : nat) :=
  dpiObjectType__init_with (dpiObjectType__allocate fuel).

(** [dpiObjectType_addRef], lines 187-190. *)
Definition dpiObjectType_addRef (fuel : nat) (objType : ptr) : M Z :=
  dpiGen__addRef fuel objType DPI_HTYPE_OBJECT_TYPE.

(** [dpiObjectType_createObject], lines 198-227.  [obj] is the caller's
    [dpiObject **]: [None] for a [NULL] pointer, otherwise what the pointed
    cell holds; the second component of the result is what the cell holds
    afterwards. *)
Definition dpiObjectType_createObject (fuel : nat) (objType : ptr)
    (obj : option ptr) : M (Z * option ptr) :=
  (* validate parameters *)
  let* st := dpiGen__startPublicFn objType DPI_HTYPE_OBJECT_TYPE in
  if st <? 0 then ret (DPI_FAILURE, obj) else
  let* st := DPI_CHECK_PTR_NOT_NULL obj in
  if st <? 0 then ret (st, obj) else
  match objType with
  | None => undefined
  | Some ot =>
      (* create the object *)
      let* '(st, tempObj) := dpiObject__allocate fuel ot OciNull OciNull 0 in
      if st <? 0 then ret (DPI_FAILURE, obj) else
      match tempObj with
      | None => undefined
      | Some o =>
          (* create the object instance data *)
          let* st := dpiOci__objectNew o in
          if st <? 0 then
            dpiGen__setRefCount fuel o (-1) ;;
            ret (DPI_FAILURE, obj)
          else
          (* get the null indicator structure *)
          let* st := dpiOci__objectGetInd o in
          if st <? 0 then
            dpiGen__setRefCount fuel o (-1) ;;
            ret (DPI_FAILURE, obj)
          else
          ret (DPI_SUCCESS, Some tempObj)
      end
  end.

(** The loop of lines 280-291.  [i] is a [uint16_t]; the budget is the
    number of values [i] can take.  [dpiObjectAttr__allocate] is given
    [&attributes[i]] and writes there: outside the caller's array the
    behaviour is undefined. *)
Fixpoint getAttributes_loop (budget : nat) (i : Z) (objType : addr)
    (attrListParam describeHandle : ociPtr) (attributes : list ptr)
    : M (Z * list ptr) :=
  match budget with
  | O => undefined
  | S budget' =>
      let* t := load_objType objType in
      if i <? ot_numAttributes t then
        let* '(st, attrParam) :=
          dpiOci__paramGet attrListParam DPI_OCI_DTYPE_PARAM (i + 1) in
        if st <? 0 then
          dpiOci__handleFree describeHandle DPI_OCI_HTYPE_DESCRIBE ;;
          ret (DPI_FAILURE, attributes)
        else
        match attributes !! Z.to_nat i with
        | None => undefined
        | Some _ =>
            let* '(st, a) := dpiObjectAttr__allocate objType attrParam in
            let attributes := <[Z.to_nat i := a]> attributes in
            if st <? 0 then
              dpiOci__handleFree describeHandle DPI_OCI_HTYPE_DESCRIBE ;;
              ret (DPI_FAILURE, attributes)
            else
            getAttributes_loop budget' (uint16 (i + 1)) objType
              attrListParam describeHandle attributes
        end
      else ret (DPI_SUCCESS, attributes)
  end.

(** [dpiObjectType_getAttributes], lines 234-297.  [attributes] is the
    caller's array: [None] for a [NULL] pointer; the second component of
    the result is the array afterwards. *)
Definition dpiObjectType_getAttributes (objType : ptr) (numAttributes : Z)
    (attributes : option (list ptr)) : M (Z * option (list ptr)) :=
  (* validate object type and the number of attributes *)
  let* st := dpiGen__startPublicFn objType DPI_HTYPE_OBJECT_TYPE in
  if st <? 0 then ret (DPI_FAILURE, attributes) else
  let* st := DPI_CHECK_PTR_NOT_NULL attributes in
  if st <? 0 then ret (st, attributes) else
  match objType, attributes with
  | Some ot, Some arr =>
      let* t := load_objType ot in
      if numAttributes <? ot_numAttributes t then
        let* st := dpiError__set DPI_ERR_ARRAY_SIZE_TOO_SMALL in
        ret (st, attributes)
      else
      if numAttributes =? 0 then ret (DPI_SUCCESS, attributes) else
      (* acquire a describe handle *)
      let* b := load ot in
      let* '(st, describeHandle) :=
        dpiOci__handleAlloc (env b) DPI_OCI_HTYPE_DESCRIBE in
      if st <? 0 then ret (DPI_FAILURE, attributes) else
      (* describe the type *)
      let* t := load_objType ot in
      let* st := dpiOci__describeAny (ot_conn t) (ot_tdo t) describeHandle in
      if st <? 0 then
        dpiOci__handleFree describeHandle DPI_OCI_HTYPE_DESCRIBE ;;
        ret (DPI_FAILURE, attributes)
      else
      (* get the top level parameter descriptor *)
      let* '(st, v) := dpiOci__attrGet describeHandle DPI_OCI_HTYPE_DESCRIBE
                         DPI_OCI_ATTR_PARAM in
      if st <? 0 then
        dpiOci__handleFree describeHandle DPI_OCI_HTYPE_DESCRIBE ;;
        ret (DPI_FAILURE, attributes)
      else
      let topLevelParam := OciValue v in
      (* get the attribute list parameter descriptor *)
      let* '(st, v) := dpiOci__attrGet topLevelParam DPI_OCI_DTYPE_PARAM
                         DPI_OCI_ATTR_LIST_TYPE_ATTRS in
      if st <? 0 then
        dpiOci__handleFree describeHandle DPI_OCI_HTYPE_DESCRIBE ;;
        ret (DPI_FAILURE, attributes)
      else
      let attrListParam := OciValue v in
      (* create attribute structure for each attribute *)
      let* '(st, arr') :=
        getAttributes_loop (Z.to_nat 65536) 0 ot attrListParam
          describeHandle arr in
      if st <? 0 then ret (DPI_FAILURE, Some arr') else
      (* free the describe handle *)
      dpiOci__handleFree describeHandle DPI_OCI_HTYPE_DESCRIBE ;;
      ret (DPI_SUCCESS, Some arr')
  | _, _ => undefined
  end.

(** [dpiObjectType_getInfo], lines 304-320.  [info] is the caller's
    [dpiObjectTypeInfo *]. *)
Definition dpiObjectType_getInfo (objType : ptr)
    (info : option dpiObjectTypeInfo) : M (Z * option dpiObjectTypeInfo) :=
  let* st := dpiGen__startPublicFn objType DPI_HTYPE_OBJECT_TYPE in
  if st <? 0 then ret (DPI_FAILURE, info) else
  let* st := DPI_CHECK_PTR_NOT_NULL info in
  if st <? 0 then ret (st, info) else
  match objType with
  | None => undefined
  | Some ot =>
      let* t := load_objType ot in
      ret (DPI_SUCCESS,
           Some {| oi_name := ot_name t;
                   oi_nameLength := ot_nameLength t;
                   oi_schema := ot_schema t;
                   oi_schemaLength := ot_schemaLength t;
                   oi_isCollection := ot_isCollection t;
                   oi_elementTypeInfo := ot_elementTypeInfo t;
                   oi_numAttributes := ot_numAttributes t |})
  end.

(** [dpiObjectType_release], lines 327-330. *)
Definition dpiObjectType_release (fuel : nat) (objType : ptr) : M Z :=
  dpiGen__release fuel objType DPI_HTYPE_OBJECT_TYPE.

(** ** Reasoning about computations *)

(** [wpx d m Q w]: running [m] in [w] yields a value and a world that
    satisfy [Q]; an undefined run counts as [d].  With [d := False] this is
    total correctness ([wp]), with [d := True] partial correctness
    ([wlp]). *)
Definition wpx {A} (d : Prop) (m : M A) (Q : A -> world -> Prop) (w : world)
    : Prop :=
  match m w with
  | Some (a, w') => Q a w'
  | None => d
  end.

Abbreviation wp := (wpx False).
Abbreviation wlp := (wpx True).

(** A pointer that designates a live type descriptor. *)
Definition valid_objType (w : world) (p : ptr) : Prop :=
  exists h b, p = Some h /\ handles w !! h = Some b /\
              typeNum b = DPI_HTYPE_OBJECT_TYPE.

(** The events a run has added to the trace. *)
Definition new_events (w w' : world) : list event :=
  drop (length (trace w)) (trace w').

(** Replies of the environment used in the examples. *)
Definition reply_ok (v : Z) : reply := {| rc := 0; rv := v; rtext := "T" |}.
Definition reply_fail : reply := {| rc := -1; rv := 0; rtext := "" |}.

(** An example world: a connection at address 1 and, at address 2, a type
    descriptor of that connection with [n] attributes. *)
Definition example_objType (n : Z) : dpiObjectType :=
  {| ot_conn := Some 1%positive; ot_tdo := OciValue 50; ot_typeCode := 108;
     ot_schema := Some 1%positive; ot_schemaLength := 6;
     ot_name := Some 2%positive; ot_nameLength := 8;
     ot_elementTypeInfo := dpiDataTypeInfo_zero;
     ot_isCollection := 0; ot_numAttributes := n |}.

Definition example_world (n : Z) (s : nat -> reply) : world :=
  {| handles :=
       {[ 1%positive := {| refCount := 2; env := 7; body := PConn |};
          2%positive := {| refCount := 1; env := 7;
                           body := PObjectType (example_objType n) |} ]};
     strings := {[ 1%positive := "SCHEMA"; 2%positive := "PERSON_T" ]};
     ctx_live := []; ctx_next := 0; ctx_faults := 0; mem_faults := 0;
     script := s; clock := 0; errorNum := DPI_ERR_NO_ERR; trace := [] |}.

(** What [dpiObjectType_getInfo] copies out of a descriptor. *)
Definition info_agrees (i : dpiObjectTypeInfo) (t : dpiObjectType) : Prop :=
  oi_name i = ot_name t /\ oi_nameLength i = ot_nameLength t /\
  oi_schema i = ot_schema t /\ oi_schemaLength i = ot_schemaLength t /\
  oi_isCollection i = ot_isCollection t /\
  oi_elementTypeInfo i = ot_elementTypeInfo t /\
  oi_numAttributes i = ot_numAttributes t.

(** The environment answers the next [n] questions favourably. *)
Definition replies_ok (w : world) (n : nat) : Prop :=
  forall k, (k < n)%nat -> (rc (script w (clock w + k)%nat) <? 0) = false.

(** The calls [dpiObjectType_getAttributes] makes, from the world [w], on
    the descriptor [t] when it has no attribute and the capacity is not 0
    (lines 252-295 with a loop that does not iterate): a describe handle
    is allocated, the next one the library gives out; the definition of
    [t] is described through it on the connection of [t]; the top-level
    parameter is read from the handle; the list of attributes is read
    from that parameter; the handle is freed.  The first call that fails
    ends the sequence, but for the free of a handle that was
    allocated. *)
Definition no_attributes_events (w : world) (t : dpiObjectType)
    : list event :=
  let r0 := script w (clock w) in
  let r1 := script w (S (clock w)) in
  let r2 := script w (S (S (clock w))) in
  let r3 := script w (S (S (S (clock w)))) in
  let dh := OciHandle (ctx_next w) in
  if rc r0 <? 0 then [EvHandleAlloc OciNull DPI_FAILURE] else
  [EvHandleAlloc dh DPI_SUCCESS;
   EvDescribeAny (ot_conn t) (ot_tdo t) dh (status_of r1)] ++
  (if rc r1 <? 0 then [] else
   [EvAttrGet dh DPI_OCI_HTYPE_DESCRIBE DPI_OCI_ATTR_PARAM (rv r2)
      (status_of r2)] ++
   (if rc r2 <? 0 then [] else
    [EvAttrGet (OciValue (rv r2)) DPI_OCI_DTYPE_PARAM
       DPI_OCI_ATTR_LIST_TYPE_ATTRS (rv r3) (status_of r3)])) ++
  [EvHandleFree dh].

(** A script for the examples: the replies of a list, then failures. *)
Definition script_of (l : list reply) : nat -> reply :=
  fun n => nth n l reply_fail.

(** The favourable replies to the calls of a describe without nesting:
    the allocation, the reference to the connection, the schema, the name,
    the reference to the definition, its pinning, the describe handle, the
    describe, the top-level parameter, the type code and the number of
    attributes. *)
Definition describe_replies (typeCode numAttributes : Z) : list reply :=
  [reply_ok 0; reply_ok 0; reply_ok 0; reply_ok 0; reply_ok 41; reply_ok 42;
   reply_ok 0; reply_ok 0; reply_ok 43; reply_ok typeCode;
   reply_ok numAttributes].

(** The status of a run, for the examples. *)
Definition status_of_run {A} (r : option (Z * A * world)) : Z :=
  match r with
  | Some (st, _, _) => st
  | None => 1
  end.






Definition opt_event {A} (f : A -> event) (o : option A) : list event :=
  match o with
  | Some x => [f x]
  | None => []
  end.

Definition opt_list {A} (o : option A) : list A :=
  match o with
  | Some x => [x]
  | None => []
  end.

(** ** The discipline of describe handles *)

(** The handles that the successful [dpiOci__handleAlloc] calls of a trace
    gave out, and the handles its [dpiOci__handleFree] calls freed. *)
Definition ctx_allocs (tr : list event) : list ociPtr :=
  omap (fun e => match e with
                 | EvHandleAlloc h st => if st <? 0 then None else Some h
                 | _ => None
                 end) tr.

Definition ctx_frees (tr : list event) : list ociPtr :=
  omap (fun e => match e with
                 | EvHandleFree h => Some h
                 | _ => None
                 end) tr.

(** [ctx_rel op w w']: from [w] to [w'] the handles [op] were allocated and
    are still live, and every other handle allocated on the way was freed
    exactly once: the handles freed together with [op] are, up to order,
    the handles allocated, no handle was allocated twice, no free hit a
    handle that was not live, and the handles that were live in [w] still
    are. *)
Definition ctx_rel (op : list nat) (w w' : world) : Prop :=
  ctx_live w' = op ++ ctx_live w /\
  ctx_faults w' = ctx_faults w /\
  (ctx_next w <= ctx_next w')%nat /\
  exists tr,
    trace w' = trace w ++ tr /\
    (OciHandle <$> op) ++ ctx_frees tr ≡ₚ ctx_allocs tr /\
    NoDup (ctx_allocs tr) /\
    forall h, h ∈ ctx_allocs tr ->
      exists n, h = OciHandle n /\ (ctx_next w <= n < ctx_next w')%nat.

(** Every describe handle allocated between [w] and [w'] was freed exactly
    once in between. *)
Definition ctx_run (w w' : world) : Prop := ctx_rel [] w w'.

(** Every run of [m] that returns is related by [R] to the world it
    started in. *)
Definition steps {A} (R : world -> world -> Prop) (m : M A) : Prop :=
  forall w, wlp m (fun _ w' => R w w') w.

(** ** Building a descriptor *)

Fixpoint count_events (f : event -> bool) (tr : list event) : nat :=
  match tr with
  | [] => 0
  | e :: tr' => (if f e then 1 else 0) + count_events f tr'
  end.

(** A reference to the handle at [c] was taken / given back. *)
Definition is_inc (c : positive) (e : event) : bool :=
  match e with
  | EvSetRefCount h d st =>
      (d =? 1) && negb (st <? 0) && bool_decide (h = c)
  | _ => false
  end.

Definition is_dec (c : positive) (e : event) : bool :=
  match e with
  | EvSetRefCount h d st => (d =? -1) && bool_decide (h = c)
  | _ => false
  end.

(** As many references to [c] were given back as were taken. *)
Definition refs_balanced (c : positive) (tr : list event) : Prop :=
  count_events (is_inc c) tr = count_events (is_dec c) tr.

(** The three ways in which [dpiObjectType__allocate] fails, by the events
    of the run: the registry has no storage; the reference to the
    connection is refused, and the new storage is freed without any
    release of the connection; the initialization fails, and the
    reference taken is given back once during the teardown. *)
Definition allocate_failure (c : positive) (tr : list event) : Prop :=
  tr = [] \/
  (exists temp,
     tr = [EvAllocate DPI_HTYPE_OBJECT_TYPE temp;
           EvSetRefCount c 1 DPI_FAILURE;
           EvDeallocate temp]) \/
  (exists temp mid post,
     tr = EvAllocate DPI_HTYPE_OBJECT_TYPE temp ::
          EvSetRefCount c 1 DPI_SUCCESS ::
          mid ++ EvSetRefCount c (-1) DPI_SUCCESS :: post /\
     refs_balanced c mid /\
     count_events (is_inc c) post = 0%nat /\
     count_events (is_dec c) post = 0%nat).

(** What a successful describe has made of the descriptor [t]: a
    collection has [isCollection] set and the element information that
    was resolved from its collection-element sub-parameter (with a new
    descriptor when the element is itself an object); any other type has
    [isCollection] and the element information as the allocation left
    them. *)
Definition described (t : dpiObjectType) (tr : list event) (w w' : world)
    : Prop :=
  (ot_typeCode t = DPI_SQLT_NCO ->
   ot_isCollection t = 1 /\
   exists top v tn,
     EvAttrGet top DPI_OCI_DTYPE_PARAM DPI_OCI_ATTR_COLLECTION_ELEMENT v
       DPI_SUCCESS ∈ tr /\
     EvTypeInfo (OciValue v) tn DPI_SUCCESS ∈ tr /\
     oracleTypeNum (ot_elementTypeInfo t) = tn /\
     (tn <> DPI_ORACLE_TYPE_OBJECT ->
      objectType (ot_elementTypeInfo t) = None) /\
     (tn = DPI_ORACLE_TYPE_OBJECT ->
      exists e be te,
        objectType (ot_elementTypeInfo t) = Some e /\
        handles w !! e = None /\
        handles w' !! e = Some be /\ body be = PObjectType te)) /\
  (ot_typeCode t <> DPI_SQLT_NCO ->
   ot_isCollection t = 0 /\
   ot_elementTypeInfo t = dpiDataTypeInfo_zero).

(** The calls with which [dpiObjectType__init] begins when they all
    succeed: the schema, the name, the reference to the type definition,
    its pinning, the allocation of the describe handle [dh], the describe
    of the pinned definition through [dh], the top-level parameter of that
    describe, and the type code and the number of attributes read from
    that parameter. *)
Definition init_events (conn : option positive) (param : ociPtr)
    (na : ociAttr) (s1 s2 : positive) (tdoRef tdo : Z) (dh : ociPtr)
    (top tc n : Z) : list event :=
  [EvAttrString param DPI_OCI_ATTR_SCHEMA_NAME DPI_SUCCESS;
   EvStrDup s1;
   EvAttrString param na DPI_SUCCESS;
   EvStrDup s2;
   EvAttrGet param DPI_OCI_DTYPE_PARAM DPI_OCI_ATTR_REF_TDO tdoRef
     DPI_SUCCESS;
   EvObjectPin (OciValue tdoRef) (OciValue tdo) DPI_SUCCESS;
   EvHandleAlloc dh DPI_SUCCESS;
   EvDescribeAny conn (OciValue tdo) dh DPI_SUCCESS;
   EvAttrGet dh DPI_OCI_HTYPE_DESCRIBE DPI_OCI_ATTR_PARAM top DPI_SUCCESS;
   EvAttrGet (OciValue top) DPI_OCI_DTYPE_PARAM DPI_OCI_ATTR_TYPECODE tc
     DPI_SUCCESS;
   EvAttrGet (OciValue top) DPI_OCI_DTYPE_PARAM DPI_OCI_ATTR_NUM_TYPE_ATTRS
     n DPI_SUCCESS].

(** The events [tr] of a successful initialization begin with
    [init_events], for the describe handle that the library gives out
    next in [w], and the descriptor [t] holds the pinned definition, the
    type code and the number of attributes read that way. *)
Definition init_order (conn : option positive) (param : ociPtr)
    (na : ociAttr) (w : world) (t : dpiObjectType) (tr : list event)
    : Prop :=
  exists s1 s2 tdoRef tdo top tc n rest,
    tr = init_events conn param na s1 s2 tdoRef tdo
           (OciHandle (ctx_next w)) top tc n ++ rest /\
    ot_tdo t = OciValue tdo /\
    ot_typeCode t = uint16 tc /\
    ot_numAttributes t = uint16 n.

(** The header of a handle with [k] more references. *)
Definition add_refs (k : Z) (b : dpiBaseType) : dpiBaseType :=
  {| refCount := refCount b + k; env := env b; body := body b |}.

(** What [dpiObjectType__allocate] leaves behind for the connection [c]
    with the header [cb]. *)
Definition allocate_post (c : positive) (cb : dpiBaseType)
    (param : ociPtr) (na : ociAttr) (w : world)
    (r : Z * option positive) (w' : world) : Prop :=
  exists tr,
    trace w' = trace w ++ tr /\
    ((fst r = DPI_FAILURE /\ snd r = None /\
      handles w' = handles w /\
      refs_balanced c tr /\ allocate_failure c tr)
     \/
     (fst r = DPI_SUCCESS /\
      exists temp t k,
        snd r = Some temp /\ handles w !! temp = None /\
        handles w' !! temp
        = Some {| refCount := 1; env := env cb; body := PObjectType t |} /\
        ot_conn t = Some c /\ 1 <= k /\
        handles w' !! c = Some (add_refs k cb) /\
        (forall x y, x <> c -> handles w !! x = Some y ->
                     handles w' !! x = Some y) /\
        described t tr w w' /\
        exists tri,
          tr = [EvAllocate DPI_HTYPE_OBJECT_TYPE temp;
                EvSetRefCount c 1 DPI_SUCCESS] ++ tri /\
          init_order (Some c) param na w t tri)).

(** What [dpiObjectType__init] leaves behind for the descriptor at [temp]
    with the header [bt]. *)
Definition init_post (c : positive) (cb : dpiBaseType) (temp : positive)
    (bt : dpiBaseType) (param : ociPtr) (na : ociAttr) (w : world)
    (st : Z) (w' : world) : Prop :=
  exists tr,
    trace w' = trace w ++ tr /\
    ((st = DPI_FAILURE /\ refs_balanced c tr /\
      exists t,
        handles w' !! temp
        = Some {| refCount := refCount bt; env := env bt;
                  body := PObjectType t |} /\
        (forall x, x <> temp -> handles w' !! x = handles w !! x) /\
        ot_conn t = Some c /\ objectType (ot_elementTypeInfo t) = None)
     \/
     (st = DPI_SUCCESS /\
      exists t k,
        handles w' !! temp
        = Some {| refCount := refCount bt; env := env bt;
                  body := PObjectType t |} /\
        ot_conn t = Some c /\ 0 <= k /\
        handles w' !! c = Some (add_refs k cb) /\
        (forall x y, x <> c -> x <> temp -> handles w !! x = Some y ->
                     handles w' !! x = Some y) /\
        described t tr w w' /\
        init_order (Some c) param na w t tr)).

(** ** Freeing a descriptor *)

(** The strings a descriptor owns, and those of a descriptor [t] together
    with the descriptors [es]. *)
Definition owned (t : dpiObjectType) : list positive :=
  opt_list (ot_schema t) ++ opt_list (ot_name t).

Definition owned_all (t : dpiObjectType)
    (es : list (positive * dpiObjectType)) : list positive :=
  owned t ++ flat_map (fun p => owned (snd p)) es.

(** What hangs on the descriptor [t] through its element type.  [es]
    lists, from the outside in, the descriptors that nobody else holds:
    the element type of [t], the element type of that one, and so on;
    their storage goes with [t].  [sh] is the element type at the end of
    that chain, if there is one: a descriptor that somebody else holds
    too, which only loses a reference.  Every descriptor of the chain
    belongs to the connection [c]. *)
Fixpoint nested (w : world) (c : positive) (t : dpiObjectType)
    (es : list (positive * dpiObjectType)) (sh : option positive) : Prop :=
  ot_conn t = Some c /\
  match es with
  | [] =>
      objectType (ot_elementTypeInfo t) = sh /\
      forall e, sh = Some e ->
        exists eb te, handles w !! e = Some eb /\ body eb = PObjectType te /\
                      2 <= refCount eb
  | (e, te) :: es' =>
      objectType (ot_elementTypeInfo t) = Some e /\
      (exists eb, handles w !! e = Some eb /\ body eb = PObjectType te /\
                  refCount eb = 1) /\
      nested w c te es' sh
  end.

(** A descriptor [t] at [h] that is ready to be freed: its connection is
    live and counts a reference for [t] and for every descriptor of [es],
    the descriptors that hang on [t] are live and distinct, and the strings
    they own are live and distinct. *)
Definition freeable (w : world) (h : positive) (t : dpiObjectType)
    (c : positive) (cb : dpiBaseType)
    (es : list (positive * dpiObjectType)) (sh : option positive) : Prop :=
  handles w !! c = Some cb /\ body cb = PConn /\
  1 + Z.of_nat (length es) <= refCount cb /\
  nested w c t es sh /\
  NoDup (h :: es.*1 ++ opt_list sh) /\
  NoDup (owned_all t es) /\
  forall s, s ∈ owned_all t es -> is_Some (strings w !! s).

(** The events of one release of the handle at [c] whose count is
    [count]: the decrement and, for the last reference, the free of its
    storage. *)
Definition release_events (c : positive) (count : Z) : list event :=
  EvSetRefCount c (-1) DPI_SUCCESS ::
  (if count =? 1 then [EvDeallocate c] else []).

(** The frees of what the descriptor [t] at [h] owns, and of [h]. *)
Definition storage_events (h : positive) (t : dpiObjectType) : list event :=
  opt_event EvFree (ot_schema t) ++ opt_event EvFree (ot_name t) ++
  [EvDeallocate h].

(** The calls [dpiObjectType__free] makes for the descriptor [t] at [h]
    whose connection [c] has the count [count]: one release of the
    connection, one release of the element type if there is one (which
    frees that descriptor in the same way when nobody else holds it), one
    [free] of each owned string, and the [free] of the descriptor. *)
Fixpoint free_events (h c : positive) (count : Z) (t : dpiObjectType)
    (es : list (positive * dpiObjectType)) (sh : option positive)
    : list event :=
  release_events c count ++
  match es with
  | [] => opt_event (fun e => EvSetRefCount e (-1) DPI_SUCCESS) sh
  | (e, te) :: es' =>
      EvSetRefCount e (-1) DPI_SUCCESS ::
      free_events e c (count + -1) te es' sh
  end ++
  storage_events h t.

Definition is_free (s : positive) (e : event) : bool :=
  match e with
  | EvFree p => bool_decide (p = s)
  | _ => false
  end.

Definition is_dealloc (x : positive) (e : event) : bool :=
  match e with
  | EvDeallocate p => bool_decide (p = x)
  | _ => false
  end.

(** How often [x] occurs in [l]. *)
Fixpoint occ (x : positive) (l : list positive) : nat :=
  match l with
  | [] => 0
  | y :: l' => (if decide (y = x) then 1 else 0) + occ x l'
  end.

(** Exactly once: among the events [evs], the connection is released once
    for each descriptor that is freed, every element type of the chain is
    released once, every owned string is freed once, and the storage of
    every descriptor that goes is freed once. *)
Definition released_once (h c : positive) (t : dpiObjectType)
    (es : list (positive * dpiObjectType)) (sh : option positive)
    (evs : list event) : Prop :=
  count_events (is_dec c) evs = S (length es) /\
  (forall x, x ∈ es.*1 ++ opt_list sh ->
     count_events (is_dec x) evs = 1%nat) /\
  (forall s, s ∈ owned_all t es -> count_events (is_free s) evs = 1%nat) /\
  (forall x, x ∈ h :: es.*1 -> count_events (is_dealloc x) evs = 1%nat).

(** What [dpiObjectType__free] leaves behind, after the events [pre]: the
    descriptor and the descriptors of [es] are gone, with their strings;
    the connection has lost one reference for each of them (and is gone
    with its last one); the shared element type has lost one reference;
    everything else is as it was, and nothing was freed that was not
    live. *)
Definition free_post (w : world) (h c : positive) (cb : dpiBaseType)
    (t : dpiObjectType) (es : list (positive * dpiObjectType))
    (sh : option positive) (pre : list event) (w' : world) : Prop :=
  trace w' = trace w ++ pre ++ free_events h c (refCount cb) t es sh /\
  (forall x, x ∈ h :: es.*1 -> handles w' !! x = None) /\
  handles w' !! c
  = (if refCount cb =? 1 + Z.of_nat (length es) then None
     else Some (add_refs (- (1 + Z.of_nat (length es))) cb)) /\
  (forall e eb, sh = Some e -> handles w !! e = Some eb ->
     handles w' !! e = Some (add_refs (-1) eb)) /\
  (forall x, x <> c -> x ∉ h :: es.*1 ++ opt_list sh ->
     handles w' !! x = handles w !! x) /\
  (forall s, s ∈ owned_all t es -> strings w' !! s = None) /\
  (forall s, s ∉ owned_all t es -> strings w' !! s = strings w !! s) /\
  mem_faults w' = mem_faults w /\
  clock w' = clock w.

(** An example world with a collection: the connection at address 1, the
    element type at address 2, held by the collection only, and the
    collection type at address 3. *)
Definition example_collection : dpiObjectType :=
  {| ot_conn := Some 1%positive; ot_tdo := OciValue 60; ot_typeCode := 122;
     ot_schema := Some 3%positive; ot_schemaLength := 6;
     ot_name := Some 4%positive; ot_nameLength := 6;
     ot_elementTypeInfo :=
       {| oracleTypeNum := 2023; objectType := Some 2%positive |};
     ot_isCollection := 1; ot_numAttributes := 0 |}.

Definition example_collection_world (s : nat -> reply) : world :=
  {| handles :=
       {[ 1%positive := {| refCount := 3; env := 7; body := PConn |};
          2%positive := {| refCount := 1; env := 7;
                           body := PObjectType (example_objType 3) |};
          3%positive := {| refCount := 1; env := 7;
                           body := PObjectType example_collection |} ]};
     strings := {[ 1%positive := "SCHEMA"; 2%positive := "PERSON_T";
                   3%positive := "SCHEMA"; 4%positive := "LIST_T" ]};
     ctx_live := []; ctx_next := 0; ctx_faults := 0; mem_faults := 0;
     script := s; clock := 0; errorNum := DPI_ERR_NO_ERR; trace := [] |}.

(** ** What a describe builds and what it gives back *)

(** The descriptors built by a describe that started in [w] and ended in
    [w']: the descriptor [t] at [temp] and, through its element types, the
    descriptors [es].  They are new, they are held once each, the
    connection [c] (whose header was [cb]) counts one more reference for
    each descriptor of [es], the strings they own are new and live, and
    nothing else has changed in the registry or among the strings. *)
Definition built (w w' : world) (c : positive) (cb : dpiBaseType)
    (temp : positive) (t : dpiObjectType)
    (es : list (positive * dpiObjectType)) : Prop :=
  handles w' !! c = Some (add_refs (Z.of_nat (length es)) cb) /\
  nested w' c t es None /\
  NoDup (temp :: es.*1) /\
  NoDup (owned_all t es) /\
  (forall x, x ∈ es.*1 -> handles w !! x = None) /\
  (forall s, s ∈ owned_all t es ->
     strings w !! s = None /\ is_Some (strings w' !! s)) /\
  (forall x, x <> c -> x ∉ temp :: es.*1 ->
     handles w' !! x = handles w !! x) /\
  (forall s, s ∉ owned_all t es -> strings w' !! s = strings w !! s).

(** What [dpiObjectType__init] leaves behind for the descriptor at [temp]
    with the header [bt], as to storage.  After a failure the descriptor
    owns the strings that were duplicated before the failing step and has
    no element type; after a success it is built, with at most [n]
    descriptors hanging on it. *)
Definition init_storage_post (n : nat) (c : positive) (cb : dpiBaseType)
    (temp : positive) (bt : dpiBaseType) (w : world) (st : Z) (w' : world)
    : Prop :=
  mem_faults w' = mem_faults w /\
  ((st = DPI_FAILURE /\
    exists t,
      handles w' !! temp
      = Some {| refCount := refCount bt; env := env bt;
                body := PObjectType t |} /\
      (forall x, x <> temp -> handles w' !! x = handles w !! x) /\
      ot_conn t = Some c /\ objectType (ot_elementTypeInfo t) = None /\
      NoDup (owned t) /\
      (forall s, s ∈ owned t ->
         strings w !! s = None /\ is_Some (strings w' !! s)) /\
      (forall s, s ∉ owned t -> strings w' !! s = strings w !! s))
   \/
   (st = DPI_SUCCESS /\
    exists t es,
      handles w' !! temp
      = Some {| refCount := refCount bt; env := env bt;
                body := PObjectType t |} /\
      (length es <= n)%nat /\
      built w w' c cb temp t es)).

(** What [dpiObjectType__allocate] leaves behind, as to storage: a failure
    leaves the registry and the strings as they were; a success has built
    a new descriptor with fewer than [n] descriptors hanging on it. *)
Definition allocate_storage_post (n : nat) (c : positive)
    (cb : dpiBaseType) (w : world) (r : Z * option positive) (w' : world)
    : Prop :=
  mem_faults w' = mem_faults w /\
  ((fst r = DPI_FAILURE /\ snd r = None /\
    handles w' = handles w /\ strings w' = strings w)
   \/
   (fst r = DPI_SUCCESS /\
    exists temp t es,
      snd r = Some temp /\ handles w !! temp = None /\
      handles w' !! temp
      = Some {| refCount := 1; env := env cb; body := PObjectType t |} /\
      (length es < n)%nat /\
      built w w' c (add_refs 1 cb) temp t es)).

(** A caller that describes a type and releases the descriptor it got. *)
Definition describe_then_release (fuel : nat) (conn : ptr) (param : ociPtr)
    (nameAttribute : ociAttr) : M Z :=
  let* '(st, objType) :=
    dpiObjectType__allocate fuel conn param nameAttribute in
  if st <? 0 then ret DPI_FAILURE
  else dpiObjectType_release (S fuel) objType.

(** Two worlds hold the same storage: the same registry, the same strings,
    the same live describe handles, and no more faults. *)
Definition same_store (w w' : world) : Prop :=
  handles w' = handles w /\ strings w' = strings w /\
  ctx_live w' = ctx_live w /\
  mem_faults w' = mem_faults w /\ ctx_faults w' = ctx_faults w.

(** A caller that creates an object of a type and, when it has got one,
    releases its own reference to the type. *)
Definition create_then_release (fuel : nat) (objType : ptr)
    (obj : option ptr) : M (Z * option ptr) :=
  let* '(st, o) := dpiObjectType_createObject fuel objType obj in
  if st <? 0 then ret (DPI_FAILURE, o) else
  let* st := dpiObjectType_release fuel objType in
  ret (st, o).

(** A caller that takes a reference to a type and gives it back. *)
Definition addRef_then_release (fuel : nat) (objType : ptr) : M Z :=
  let* st := dpiObjectType_addRef fuel objType in
  if st <? 0 then ret st else dpiObjectType_release fuel objType.

(** Nothing that was in the registry or among the strings of [w] has
    been changed or freed in [w']. *)
Definition store_kept (w w' : world) : Prop :=
  (forall k x, handles w !! k = Some x -> handles w' !! k = Some x) /\
  (forall s v, strings w !! s = Some v -> strings w' !! s = Some v) /\
  mem_faults w' = mem_faults w.

(** Every cell of the array [arr] that holds a pointer holds what the
    caller's array [attributes] held there, or an attribute descriptor
    that did not exist in [w] and is live in [w'], with one reference. *)
Definition attr_cells (w w' : world) (attributes arr : list ptr) : Prop :=
  forall j a, arr !! j = Some (Some a) ->
    attributes !! j = Some (Some a) \/
    (handles w !! a = None /\
     exists ba da, handles w' !! a = Some ba /\ body ba = PObjectAttr da /\
                   refCount ba = 1).

(** ** Rules of the computation logic *)

Lemma ltb_fail : (DPI_FAILURE <? 0) = true.
Proof. reflexivity. Qed.

Lemma ltb_succ : (DPI_SUCCESS <? 0) = false.
Proof. reflexivity. Qed.

Section Rules.
Context {A B : Type} (d : Prop).

Lemma wpx_ret (a : A) Q w : Q a w -> wpx d (ret a) Q w.
Proof. exact id. Qed.

Lemma wpx_bind (m : M A) (f : A -> M B) Q w :
  wpx d m (fun a w' => wpx d (f a) Q w') w -> wpx d (bind m f) Q w.
Proof. unfold wpx, bind. destruct (m w) as [[a w']|]; auto. Qed.

Lemma wpx_get (f : world -> A) Q w : Q (f w) w -> wpx d (get f) Q w.
Proof. exact id. Qed.

Lemma wpx_modify (g : world -> world) Q w :
  Q tt (g w) -> wpx d (modify g) Q w.
Proof. exact id. Qed.

Lemma wpx_undefined (Q : A -> world -> Prop) w : d -> wpx d undefined Q w.
Proof. exact id. Qed.

Lemma wpx_mono (m : M A) (Q Q' : A -> world -> Prop) w :
  wpx d m Q w -> (forall a w', Q a w' -> Q' a w') -> wpx d m Q' w.
Proof. unfold wpx. destruct (m w) as [[a w']|]; auto. Qed.
End Rules.

Lemma wp_elim {A} (m : M A) Q w :
  wp m Q w -> exists a w', m w = Some (a, w') /\ Q a w'.
Proof. unfold wpx. destruct (m w) as [[a w']|]; [eauto | tauto]. Qed.

Lemma wlp_elim {A} (m : M A) Q w a w' :
  wlp m Q w -> m w = Some (a, w') -> Q a w'.
Proof. unfold wpx. intros H E. now rewrite E in H. Qed.

Lemma wlp_returns {A} (m : M A) (Q : A -> world -> Prop) w :
  wlp m Q w -> is_Some (m w) -> exists a w', m w = Some (a, w') /\ Q a w'.
Proof.
  unfold wpx. intros H [[a w'] E]. rewrite E in H. eauto.
Qed.

Lemma wlp_intro {A} (m : M A) (Q : A -> world -> Prop) w :
  (forall a w', m w = Some (a, w') -> Q a w') -> wlp m Q w.
Proof. unfold wpx. destruct (m w) as [[a w']|]; auto. Qed.

Lemma wp_wlp {A} (m : M A) Q w : wp m Q w -> wlp m Q w.
Proof. unfold wpx. destruct (m w) as [[a w']|]; tauto. Qed.

Lemma new_events_app w w' l :
  trace w' = trace w ++ l -> new_events w w' = l.
Proof. unfold new_events. intros ->. now rewrite drop_app_length. Qed.

Lemma count_events_app f l1 l2 :
  count_events f (l1 ++ l2) = (count_events f l1 + count_events f l2)%nat.
Proof. induction l1 as [|e l1 IH]; cbn; [reflexivity|]. rewrite IH. lia. Qed.

Lemma setRefCount_S fuel h increment :
  dpiGen__setRefCount (S fuel) h increment
  = (let* b := load h in
     let* refused :=
       (if 0 <? increment then
          let* r := next_reply in ret (rc r <? 0)
        else ret false) in
     if refused : bool then
       emit (EvSetRefCount h increment DPI_FAILURE) ;;
       dpiError__set DPI_ERR_ORA
     else
       store h {| refCount := refCount b + increment; env := env b;
                  body := body b |} ;;
       emit (EvSetRefCount h increment DPI_SUCCESS) ;;
       (if refCount b + increment =? 0 then
          match body b with
          | PObjectType _ =>
              dpiObjectType__free_with (dpiGen__setRefCount fuel) h
          | PObject _ =>
              dpiObject__free_with (dpiGen__setRefCount fuel) h
          | _ => free_handle h
          end
        else ret tt) ;;
       ret DPI_SUCCESS).
Proof. reflexivity. Qed.

Ltac wsimpl :=
  cbv beta iota;
  change (0 <? 1) with true; change (0 <? -1) with false;
  cbn [handles strings ctx_live ctx_next ctx_faults mem_faults script clock
       errorNum trace with_handles with_strings with_ctx with_mem_fault
       with_ctx_fault with_clock with_error with_event fst snd
       refCount env body payload_zero
       ob_type ob_instance ob_indicator ob_isIndependent
       set_type set_instance set_indicator
       ot_conn ot_tdo ot_typeCode ot_schema ot_schemaLength ot_name
       ot_nameLength ot_elementTypeInfo ot_isCollection ot_numAttributes
       set_conn set_tdo set_typeCode set_schema set_name
       set_elementTypeInfo set_isCollection set_numAttributes
       oracleTypeNum objectType set_objectType set_oracleTypeNum
       dpiObject_zero dpiObjectType_zero dpiObjectAttr_zero
       dpiDataTypeInfo_zero];
  rewrite ?ltb_fail, ?ltb_succ.

(** One step of symbolic execution of the computation in the goal. *)
Ltac wstep :=
  lazymatch goal with
  | |- wpx _ (bind _ _) _ _ => apply wpx_bind
  | |- wpx _ (ret _) _ _ => apply wpx_ret
  | |- wpx _ (get _) _ _ => apply wpx_get
  | |- wpx _ (modify _) _ _ => apply wpx_modify
  | |- wpx _ (emit _) _ _ => apply wpx_modify
  | |- wpx _ (store _ _) _ _ => apply wpx_modify
  | |- wpx _ undefined _ _ => apply wpx_undefined
  | |- wpx _ (if true then _ else _) _ _ => idtac
  | |- wpx _ (if false then _ else _) _ _ => idtac
  | |- wpx _ next_reply _ _ => unfold next_reply
  | |- wpx _ (load _) _ _ => unfold load
  | |- wpx _ (load_objType _) _ _ => unfold load_objType
  | |- wpx _ (load_object _) _ _ => unfold load_object
  | |- wpx _ (update_objType _ _) _ _ => unfold update_objType
  | |- wpx _ (update_object _ _) _ _ => unfold update_object
  | |- wpx _ (free_handle _) _ _ => unfold free_handle
  | |- wpx _ (free_string _) _ _ => unfold free_string
  | |- wpx _ (dpiError__set _) _ _ => unfold dpiError__set
  | |- wpx _ (DPI_CHECK_PTR_NOT_NULL _) _ _ => unfold DPI_CHECK_PTR_NOT_NULL
  | |- wpx _ (dpiGen__allocate _ _) _ _ => unfold dpiGen__allocate
  | |- wpx _ (dpiGen__startPublicFn _ _) _ _ => unfold dpiGen__startPublicFn
  | |- wpx _ (dpiOci__handleAlloc _ _) _ _ => unfold dpiOci__handleAlloc
  | |- wpx _ (dpiOci__handleFree _ _) _ _ => unfold dpiOci__handleFree
  | |- wpx _ (dpiOci__describeAny _ _ _) _ _ => unfold dpiOci__describeAny
  | |- wpx _ (dpiOci__attrGet _ _ _) _ _ => unfold dpiOci__attrGet
  | |- wpx _ (dpiOci__paramGet _ _ _) _ _ => unfold dpiOci__paramGet
  | |- wpx _ (dpiOci__objectPin _ _) _ _ => unfold dpiOci__objectPin
  | |- wpx _ (dpiOci__objectNew _) _ _ => unfold dpiOci__objectNew
  | |- wpx _ (dpiOci__objectGetInd _) _ _ => unfold dpiOci__objectGetInd
  | |- wpx _ (dpiUtils__getAttrStringWithDup _ _ _) _ _ =>
      unfold dpiUtils__getAttrStringWithDup
  | |- wpx _ (dpiGen__setRefCount (S _) _ _) _ _ => rewrite setRefCount_S
  | |- wpx _ (dpiObject__free _ _) _ _ => unfold dpiObject__free
  | |- wpx _ (dpiObject__free_with _ _) _ _ => unfold dpiObject__free_with
  | |- wpx _ (dpiObject__allocate _ _ _ _ _) _ _ =>
      unfold dpiObject__allocate
  | |- wpx _ (dpiObjectAttr__allocate _ _) _ _ =>
      unfold dpiObjectAttr__allocate
  end; wsimpl.

Ltac wsteps := repeat wstep.

(** Lookups in a registry that was updated at known addresses. *)
Ltac wmap :=
  repeat first
    [ rewrite lookup_insert_eq
    | rewrite lookup_delete_eq
    | rewrite lookup_insert_ne by (assumption || congruence)
    | rewrite lookup_delete_ne by (assumption || congruence) ].

(** Equality of two registries given by updates of the same one. *)
Ltac wmap_eq :=
  apply map_eq; intros ?k;
  repeat first [rewrite lookup_insert | rewrite lookup_delete];
  repeat case_decide; subst; try congruence; try done.

(** Comparisons that arithmetic settles. *)
Ltac wdecide :=
  match goal with
  | |- context [?a =? ?b] =>
      first
        [ replace (a =? b) with false by (symmetry; apply Z.eqb_neq; lia)
        | replace (a =? b) with true by (symmetry; apply Z.eqb_eq; lia) ]
  | |- context [?a <? ?b] =>
      first
        [ replace (a <? b) with false by (symmetry; apply Z.ltb_ge; lia)
        | replace (a <? b) with true by (symmetry; apply Z.ltb_lt; lia) ]
  end.

(** Lookups that a hypothesis settles. *)
Ltac wlook :=
  match goal with
  | H : handles ?w !! ?k = _ |- context [handles ?w !! ?k] => rewrite H
  | H : strings ?w !! ?k = _ |- context [strings ?w !! ?k] => rewrite H
  | H : body ?b = _ |- context [body ?b] => rewrite H
  end.

(** Freeing the describe handle that was allocated last. *)
Ltac wctx :=
  first
    [ rewrite decide_True by (apply list_elem_of_here)
    | progress cbn [ctx_remove]; rewrite decide_True by reflexivity ].

Ltac wgo :=
  repeat first
    [wstep | progress wsimpl | progress wmap | wlook | wdecide | wctx].

(** The events added by a run whose final trace is known. *)
Ltac new_events_known :=
  first
    [ erewrite new_events_app
        by (wsimpl; rewrite <- ?app_assoc; reflexivity)
    | rewrite (new_events_app _ _ [])
        by (wsimpl; now rewrite app_nil_r) ].

Lemma wp_run {A} (m : M A) (a : A) (w w' : world) :
  wp m (fun x y => x = a /\ y = w') w -> m w = Some (a, w').
Proof.
  unfold wpx. destruct (m w) as [[x y]|]; [|tauto].
  intros [-> ->]. reflexivity.
Qed.

Lemma typeNum_objType b t :
  body b = PObjectType t -> typeNum b = DPI_HTYPE_OBJECT_TYPE.
Proof. unfold typeNum. now intros ->. Qed.

Lemma typeNum_objType_inv b :
  typeNum b = DPI_HTYPE_OBJECT_TYPE -> exists t, body b = PObjectType t.
Proof. unfold typeNum. destruct (body b); try discriminate. eauto. Qed.

(** ** [dpiObjectType_getInfo] *)

(** C5, as stated, fails: on a valid handle [dpiObjectType_getInfo] also
    fails when the caller passes [NULL] for [info]. *)
Lemma getInfo_null_info_fails :
  valid_objType (example_world 3 (script_of [])) (Some 2%positive) /\
  dpiObjectType_getInfo (Some 2%positive) None
    (example_world 3 (script_of []))
  = Some (DPI_FAILURE, None,
          with_error DPI_ERR_NULL_POINTER_PARAMETER
            (example_world 3 (script_of []))).
Proof.
  split.
  - exists 2%positive. eexists. split; [reflexivity|]. split; reflexivity.
  - reflexivity.
Qed.

(** C5 (amended): [dpiObjectType_getInfo] always returns; it leaves the
    registry, the strings, the trace and the environment as they were; it
    succeeds with a snapshot of the descriptor's name, schema,
    isCollection, elementTypeInfo and numAttributes when the handle is
    valid and [info] is not [NULL], and fails, leaving [info] alone, only
    when the handle is invalid or [info] is [NULL]. *)
Theorem getInfo_snapshot (objType : ptr) (info : option dpiObjectTypeInfo)
    (w : world) :
  wp (dpiObjectType_getInfo objType info)
     (fun r w' =>
        handles w' = handles w /\ strings w' = strings w /\
        trace w' = trace w /\ clock w' = clock w /\
        ctx_live w' = ctx_live w /\
        ((fst r = DPI_SUCCESS /\ w' = w /\
          exists h b t i,
            objType = Some h /\ handles w !! h = Some b /\
            body b = PObjectType t /\ info <> None /\
            snd r = Some i /\ info_agrees i t)
         \/
         (fst r = DPI_FAILURE /\ snd r = info /\
          (~ valid_objType w objType \/ info = None)))) w.
Proof.
  unfold dpiObjectType_getInfo.
  destruct objType as [h|].
  2:{ wsteps. repeat split; try reflexivity. right.
      repeat split; try reflexivity. left.
      intros (h & b & E & _). discriminate. }
  wsteps. destruct (handles w !! h) as [b|] eqn:Hb.
  2:{ wsteps. repeat split; try reflexivity. right.
      repeat split; try reflexivity. left.
      intros (h' & b & E & Hl & _). congruence. }
  destruct (decide (typeNum b = DPI_HTYPE_OBJECT_TYPE)) as [Hk|Hk].
  2:{ wsteps. repeat split; try reflexivity. right.
      repeat split; try reflexivity. left.
      intros (h' & b' & E & Hl & Hk'). congruence. }
  wsteps. destruct info as [i0|].
  2:{ wsteps. repeat split; try reflexivity. right.
      repeat split; try reflexivity. now right. }
  wsteps. rewrite ?Hb. wsteps.
  destruct (typeNum_objType_inv b Hk) as [t Ht]. rewrite ?Ht.
  wsteps. repeat split; try reflexivity. left.
  repeat split; try reflexivity.
  exists h, b, t. eexists. repeat split; try eassumption; try reflexivity.
  discriminate.
Qed.

(** ** [dpiObjectType_getAttributes]: the checks of lines 242-250 *)

(** C6, as stated, fails: the pointer to the array is checked before the
    capacity (line 245 before line 246).  On a descriptor with three
    attributes, a capacity of 2 and a [NULL] array the function fails with
    [DPI_ERR_NULL_POINTER_PARAMETER], not with
    [DPI_ERR_ARRAY_SIZE_TOO_SMALL]. *)
Lemma getAttributes_null_array_checked_first :
  let w := example_world 3 (script_of []) in
  valid_objType w (Some 2%positive) /\
  2 < ot_numAttributes (example_objType 3) /\
  dpiObjectType_getAttributes (Some 2%positive) 2 None w
  = Some (DPI_FAILURE, None, with_error DPI_ERR_NULL_POINTER_PARAMETER w) /\
  DPI_ERR_NULL_POINTER_PARAMETER <> DPI_ERR_ARRAY_SIZE_TOO_SMALL.
Proof.
  intros w. split; [|split; [|split]].
  - exists 2%positive. eexists. split; [reflexivity|]. split; reflexivity.
  - reflexivity.
  - reflexivity.
  - discriminate.
Qed.

(** C6 (amended): for a valid descriptor and a capacity below the number
    of attributes, [dpiObjectType_getAttributes] fails and changes nothing
    but the error it records: the argument [attributes] comes back as it
    was given, so no cell of the caller's array is written.  The error is
    [DPI_ERR_ARRAY_SIZE_TOO_SMALL] when the caller passed an array, and
    [DPI_ERR_NULL_POINTER_PARAMETER] when it passed [NULL]. *)
Theorem getAttributes_array_too_small (w : world) (h : positive)
    (b : dpiBaseType) (t : dpiObjectType) (capacity : Z)
    (attributes : option (list (option positive))) :
  handles w !! h = Some b ->
  body b = PObjectType t ->
  capacity < ot_numAttributes t ->
  dpiObjectType_getAttributes (Some h) capacity attributes w
  = Some (DPI_FAILURE, attributes,
          with_error
            (match attributes with
             | Some _ => DPI_ERR_ARRAY_SIZE_TOO_SMALL
             | None => DPI_ERR_NULL_POINTER_PARAMETER
             end) w).
Proof.
  intros Hb Ht Hlt. apply wp_run.
  unfold dpiObjectType_getAttributes.
  wsteps. rewrite ?Hb.
  rewrite decide_True by (eapply typeNum_objType; eassumption).
  destruct attributes as [arr|].
  - wsteps. rewrite ?Hb. wsteps. rewrite ?Ht. wsteps.
    apply Z.ltb_lt in Hlt. rewrite Hlt. wsteps. split; reflexivity.
  - wsteps. split; reflexivity.
Qed.

Lemma getAttributes_array_too_small_witness :
  dpiObjectType_getAttributes (Some 2%positive) 2
    (Some [None; Some 9%positive]) (example_world 3 (script_of []))
  = Some (DPI_FAILURE, Some [None; Some 9%positive],
          with_error DPI_ERR_ARRAY_SIZE_TOO_SMALL
            (example_world 3 (script_of []))).
Proof.
  apply (getAttributes_array_too_small _ 2%positive
           {| refCount := 1; env := 7;
              body := PObjectType (example_objType 3) |}
           (example_objType 3) 2 (Some [None; Some 9%positive])).
  - reflexivity.
  - reflexivity.
  - simpl. lia.
Defined.

Lemma getAttributes_loop_S budget i objType attrListParam describeHandle
    attributes :
  getAttributes_loop (S budget) i objType attrListParam describeHandle
    attributes
  = (let* t := load_objType objType in
     if i <? ot_numAttributes t then
       let* '(st, attrParam) :=
         dpiOci__paramGet attrListParam DPI_OCI_DTYPE_PARAM (i + 1) in
       if st <? 0 then
         dpiOci__handleFree describeHandle DPI_OCI_HTYPE_DESCRIBE ;;
         ret (DPI_FAILURE, attributes)
       else
       match attributes !! Z.to_nat i with
       | None => undefined
       | Some _ =>
           let* '(st, a) := dpiObjectAttr__allocate objType attrParam in
           let attributes := <[Z.to_nat i := a]> attributes in
           if st <? 0 then
             dpiOci__handleFree describeHandle DPI_OCI_HTYPE_DESCRIBE ;;
             ret (DPI_FAILURE, attributes)
           else
           getAttributes_loop budget (uint16 (i + 1)) objType
             attrListParam describeHandle attributes
       end
     else ret (DPI_SUCCESS, attributes)).
Proof. reflexivity. Qed.

Lemma replies_ok_4 w :
  replies_ok w 4 <->
  (rc (script w (clock w)) <? 0) = false /\
  (rc (script w (S (clock w))) <? 0) = false /\
  (rc (script w (S (S (clock w)))) <? 0) = false /\
  (rc (script w (S (S (S (clock w))))) <? 0) = false.
Proof.
  unfold replies_ok. split.
  - intros H.
    pose proof (H 0%nat ltac:(lia)) as H0.
    pose proof (H 1%nat ltac:(lia)) as H1.
    pose proof (H 2%nat ltac:(lia)) as H2.
    pose proof (H 3%nat ltac:(lia)) as H3.
    replace (clock w + 0)%nat with (clock w) in H0 by lia.
    replace (clock w + 1)%nat with (S (clock w)) in H1 by lia.
    replace (clock w + 2)%nat with (S (S (clock w))) in H2 by lia.
    replace (clock w + 3)%nat with (S (S (S (clock w)))) in H3 by lia.
    auto.
  - intros (H0 & H1 & H2 & H3) k Hk.
    destruct k as [|[|[|[|k]]]]; try lia.
    + now replace (clock w + 0)%nat with (clock w) by lia.
    + now replace (clock w + 1)%nat with (S (clock w)) by lia.
    + now replace (clock w + 2)%nat with (S (S (clock w))) by lia.
    + now replace (clock w + 3)%nat with (S (S (S (clock w)))) by lia.
Qed.

(** C4, as stated, fails: with no attributes and a capacity of 1 the
    function allocates a describe handle and calls the describe service;
    when that call fails, so does the function. *)
Lemma getAttributes_capacity_1_describes :
  ot_numAttributes (example_objType 0) = 0 /\
  (let w := example_world 0 (script_of [reply_ok 0; reply_fail]) in
   match dpiObjectType_getAttributes (Some 2%positive) 1 (Some [None]) w with
   | Some (st, _, w') => Some (st, trace w')
   | None => None
   end
   = Some (DPI_FAILURE,
           [EvHandleAlloc (OciHandle 0) DPI_SUCCESS;
            EvDescribeAny (Some 1%positive) (OciValue 50) (OciHandle 0)
              DPI_FAILURE;
            EvHandleFree (OciHandle 0)])).
Proof. split; reflexivity. Qed.

(** C4 (amended): for a valid descriptor without attributes and an array
    that is not [NULL], [dpiObjectType_getAttributes] always returns,
    gives the array back as it was and leaves the registry, the strings
    and the live describe handles as they were.  With a capacity of 0 it
    succeeds and changes nothing at all.  With a capacity above 0 the
    calls it makes are exactly those of [no_attributes_events]: the
    allocation of a describe handle, the describe of the definition of
    the descriptor through that handle, the read of the top-level
    parameter from the handle, the read of the list of attributes from
    that parameter and the free of the handle, the sequence ending at the
    first call that fails (the handle, once allocated, is freed all the
    same); no attribute is looked up or built; and it succeeds exactly
    when the four external steps succeed. *)
Theorem getAttributes_no_attributes (w : world) (h : positive)
    (b : dpiBaseType) (t : dpiObjectType) (capacity : Z)
    (attributes : list (option positive)) :
  handles w !! h = Some b ->
  body b = PObjectType t ->
  ot_numAttributes t = 0 ->
  0 <= capacity ->
  wp (dpiObjectType_getAttributes (Some h) capacity (Some attributes))
     (fun r w' =>
        snd r = Some attributes /\ handles w' = handles w /\
        strings w' = strings w /\
        ctx_live w' = ctx_live w /\ ctx_faults w' = ctx_faults w /\
        (capacity = 0 -> fst r = DPI_SUCCESS /\ w' = w) /\
        (0 < capacity ->
         new_events w w' = no_attributes_events w t /\
         (fst r = DPI_SUCCESS <-> replies_ok w 4))) w.
Proof.
  intros Hb Ht Hn Hcap.
  unfold dpiObjectType_getAttributes.
  wsteps. rewrite ?Hb.
  rewrite decide_True by (eapply typeNum_objType; eassumption).
  wsteps. rewrite ?Hb. wsteps. rewrite ?Ht. wsteps. rewrite ?Hn.
  destruct (capacity <? 0) eqn:E0; [apply Z.ltb_lt in E0; lia|].
  destruct (capacity =? 0) eqn:E1.
  { apply Z.eqb_eq in E1. wsteps. repeat split; auto; lia. }
  apply Z.eqb_neq in E1.
  pose proof (replies_ok_4 w) as HR.
  assert (Hin : forall (n : nat) l, n ∈ n :: l)
    by (intros; apply list_elem_of_here).
  unfold no_attributes_events, status_of.
  wsteps. rewrite ?Hb. wsteps.
  destruct (rc (script w (clock w)) <? 0) eqn:R0; wsteps.
  { repeat split; auto; try lia; try discriminate.
    - apply new_events_app. reflexivity.
    - intros Hs. apply HR in Hs. destruct Hs as (? & _). discriminate. }
  rewrite ?Hb. wsteps. rewrite ?Ht. wsteps.
  destruct (rc (script w (S (clock w))) <? 0) eqn:R1; wsteps.
  { try (rewrite decide_True by apply Hin). wsteps.
    cbn [ctx_remove]. try (rewrite decide_True by reflexivity).
    repeat split; auto; try lia; try discriminate.
    - apply new_events_app. wsimpl. unfold status_of.
      rewrite ?R0, ?R1, ?R2, ?R3, <- ?app_assoc. reflexivity.
    - intros Hs. apply HR in Hs. destruct Hs as (_ & ? & _). discriminate. }
  destruct (rc (script w (S (S (clock w)))) <? 0) eqn:R2; wsteps.
  { try (rewrite decide_True by apply Hin). wsteps.
    cbn [ctx_remove]. try (rewrite decide_True by reflexivity).
    repeat split; auto; try lia; try discriminate.
    - apply new_events_app. wsimpl. unfold status_of.
      rewrite ?R0, ?R1, ?R2, ?R3, <- ?app_assoc. reflexivity.
    - intros Hs. apply HR in Hs. destruct Hs as (_ & _ & ? & _). discriminate. }
  destruct (rc (script w (S (S (S (clock w))))) <? 0) eqn:R3; wsteps.
  { try (rewrite decide_True by apply Hin). wsteps.
    cbn [ctx_remove]. try (rewrite decide_True by reflexivity).
    repeat split; auto; try lia; try discriminate.
    - apply new_events_app. wsimpl. unfold status_of.
      rewrite ?R0, ?R1, ?R2, ?R3, <- ?app_assoc. reflexivity.
    - intros Hs. apply HR in Hs. destruct Hs as (_ & _ & _ & ?). discriminate. }
  destruct (Z.to_nat 65536) as [|budget] eqn:EB; [lia|].
  rewrite getAttributes_loop_S.
  wsteps. rewrite ?Hb. wsteps. rewrite ?Ht. wsteps. rewrite ?Hn.
  change (0 <? 0) with false. wsteps.
  try (rewrite decide_True by apply Hin).
  wsteps. cbn [ctx_remove]. try (rewrite decide_True by reflexivity).
  repeat split; auto; try lia.
  - apply new_events_app. wsimpl. unfold status_of.
    rewrite ?R0, ?R1, ?R2, ?R3, <- ?app_assoc. reflexivity.
  - intros _. apply HR. auto.
Qed.

Lemma getAttributes_no_attributes_witness :
  let w := example_world 0
             (script_of [reply_ok 0; reply_ok 0; reply_ok 43;
                         reply_ok 44]) in
  exists w',
    dpiObjectType_getAttributes (Some 2%positive) 2
      (Some [None; Some 9%positive]) w
    = Some (DPI_SUCCESS, Some [None; Some 9%positive], w') /\
    handles w' = handles w /\
    new_events w w'
    = [EvHandleAlloc (OciHandle 0) DPI_SUCCESS;
       EvDescribeAny (Some 1%positive) (OciValue 50) (OciHandle 0)
         DPI_SUCCESS;
       EvAttrGet (OciHandle 0) DPI_OCI_HTYPE_DESCRIBE DPI_OCI_ATTR_PARAM 43
         DPI_SUCCESS;
       EvAttrGet (OciValue 43) DPI_OCI_DTYPE_PARAM
         DPI_OCI_ATTR_LIST_TYPE_ATTRS 44 DPI_SUCCESS;
       EvHandleFree (OciHandle 0)].
Proof.
  intros w.
  destruct (wp_elim _ _ _
              (getAttributes_no_attributes w 2%positive
                 {| refCount := 1; env := 7;
                    body := PObjectType (example_objType 0) |}
                 (example_objType 0) 2 [None; Some 9%positive]
                 eq_refl eq_refl eq_refl ltac:(lia)))
    as ([st p] & w' & E & Hp & Hh & _ & _ & _ & _ & Hpos).
  destruct (Hpos ltac:(lia)) as (Htr & Hst).
  assert (Hs : st = DPI_SUCCESS).
  { apply Hst. intros k Hk.
    destruct k as [|[|[|[|k]]]]; try lia; reflexivity. }
  cbn in Hp. subst st p.
  exists w'. split; [exact E|]. split; [exact Hh|]. exact Htr.
Defined.

(** ** [dpiObjectType_createObject] *)

Lemma base_eta b :
  {| refCount := refCount b; env := env b; body := body b |} = b.
Proof. now destruct b. Qed.

(** C1: on a valid type descriptor [dpiObjectType_createObject] always
    returns, and in one of two ways.  Either it succeeds: the caller gets
    a new object that refers to the descriptor, with its instance and its
    null indicator in place, and the reference count of the descriptor is
    one more than before, nothing else in the registry having changed.
    Or it fails: the caller's pointer is as it was and the registry is
    what it was before the call, the count of the descriptor included;
    when the failing step is the creation of the instance or the fetch of
    its null indicator, the last calls of the run release the new object,
    which gives back its reference to the descriptor and frees its
    storage. *)
Theorem createObject_counts_reference (fuel : nat) (w : world) (h : positive)
    (b : dpiBaseType) (obj : option (option positive)) :
  handles w !! h = Some b ->
  typeNum b = DPI_HTYPE_OBJECT_TYPE ->
  1 <= refCount b ->
  (2 <= fuel)%nat ->
  wp (dpiObjectType_createObject fuel (Some h) obj)
     (fun r w' =>
        (fst r = DPI_SUCCESS /\
         exists o ob,
           snd r = Some (Some o) /\ handles w !! o = None /\
           handles w'
           = <[o := {| refCount := 1; env := env b; body := PObject ob |}]>
               (<[h := {| refCount := refCount b + 1; env := env b;
                          body := body b |}]> (handles w)) /\
           ob_type ob = Some h /\
           ob_instance ob <> OciNull /\ ob_indicator ob <> OciNull)
        \/
        (fst r = DPI_FAILURE /\ snd r = obj /\ handles w' = handles w /\
         forall o,
           EvObjectNew o DPI_FAILURE ∈ new_events w w' \/
           EvObjectGetInd o DPI_FAILURE ∈ new_events w w' ->
           exists pre,
             new_events w w'
             = pre ++ [EvSetRefCount o (-1) DPI_SUCCESS;
                       EvSetRefCount h (-1) DPI_SUCCESS;
                       EvDeallocate o])) w.
Proof.
  intros Hb Hk Hc Hf.
  destruct fuel as [|[|fuel]]; try lia.
  unfold dpiObjectType_createObject.
  wsteps. rewrite ?Hb. rewrite decide_True by assumption. wsteps.
  destruct obj as [cell|]; wsteps.
  2:{ right. repeat split; auto. intros o. new_events_known. set_solver. }
  rewrite ?Hb. wsteps.
  destruct (rc (script w (clock w)) <? 0) eqn:R0; wsteps.
  { right. repeat split; auto. intros o. new_events_known. set_solver. }
  set (o := fresh (dom (handles w))).
  assert (Ho : handles w !! o = None)
    by (apply not_elem_of_dom, is_fresh).
  assert (Hne : o <> h) by congruence.
  assert (Hne' : h <> o) by congruence.
  wgo. rewrite ?Hb. wgo.
  destruct (rc (script w (S (clock w))) <? 0) eqn:R1; wgo.
  { right. repeat split; auto.
    - wmap_eq.
    - intros o'. new_events_known. set_solver. }
  destruct (rc (script w (S (S (clock w)))) <? 0) eqn:R2; wgo.
  { right. repeat split; auto.
    - wmap_eq. rewrite ?Hb. f_equal. destruct b; cbn. f_equal. lia.
    - intros o'. new_events_known. intros Hin.
      assert (o' = o) as -> by set_solver.
      eexists [_; _; _]. reflexivity. }
  destruct (rc (script w (S (S (S (clock w))))) <? 0) eqn:R3; wgo.
  { right. repeat split; auto.
    - wmap_eq. rewrite ?Hb. f_equal. destruct b; cbn. f_equal. lia.
    - intros o'. new_events_known. intros Hin.
      assert (o' = o) as -> by set_solver.
      eexists [_; _; _; _]. reflexivity. }
  left. split; [reflexivity|].
  exists o,
    {| ob_type := Some h;
       ob_instance := OciValue (rv (script w (S (S (clock w)))));
       ob_indicator := OciValue (rv (script w (S (S (S (clock w))))));
       ob_isIndependent := 0 |}.
  repeat split; auto; try discriminate.
  wmap_eq.
Qed.

Lemma createObject_counts_reference_witness :
  let w := example_world 0
             (script_of [reply_ok 0; reply_ok 0; reply_ok 61; reply_ok 62]) in
  exists o ob w',
    dpiObjectType_createObject 2 (Some 2%positive) (Some None) w
    = Some (DPI_SUCCESS, Some (Some o), w') /\
    handles w' !! o
    = Some {| refCount := 1; env := 7; body := PObject ob |} /\
    ob_type ob = Some 2%positive /\
    handles w' !! 2%positive
    = Some {| refCount := 2; env := 7;
              body := PObjectType (example_objType 0) |}.
Proof.
  intros w.
  destruct (wp_elim _ _ _
              (createObject_counts_reference 2 w 2%positive
                 {| refCount := 1; env := 7;
                    body := PObjectType (example_objType 0) |}
                 (Some None) eq_refl eq_refl ltac:(simpl; lia)
                 ltac:(lia)))
    as ([st p] & w' & E & H).
  assert (Hst : st = DPI_SUCCESS).
  { apply (f_equal status_of_run) in E. vm_compute in E. now subst st. }
  destruct H as [(_ & o & ob & Hp & Ho & Hw & Hty & _) | (Hf & _)].
  2:{ cbn in Hf. rewrite Hst in Hf. discriminate. }
  cbn in Hp. subst st p.
  assert (Hne : o <> 2%positive) by (intros ->; discriminate Ho).
  exists o, ob, w'. split; [exact E|]. rewrite Hw.
  split; [apply lookup_insert_eq|]. split; [exact Hty|].
  rewrite lookup_insert_ne by exact Hne. apply lookup_insert_eq.
Defined.

(** ** The loop of [dpiObjectType_getAttributes] *)






(** ** [dpiObjectType__free] *)

Ltac wlookup :=
  repeat first [rewrite lookup_insert | rewrite lookup_delete];
  repeat case_decide; subst; try congruence; try done; try set_solver.

Lemma nested_frame w w1 c t es sh :
  (forall x, x ∈ es.*1 ++ opt_list sh -> handles w1 !! x = handles w !! x) ->
  nested w c t es sh -> nested w1 c t es sh.
Proof.
  revert t. induction es as [|[e te] es IH]; intros t Hfr [Hc Hn].
  - split; [exact Hc|]. destruct Hn as [Ho Hs]. split; [exact Ho|].
    intros e ->. destruct (Hs e eq_refl) as (eb & te & H1 & H2 & H3).
    exists eb, te. rewrite Hfr; [auto|]. cbn. set_solver.
  - split; [exact Hc|]. destruct Hn as (Ho & (eb & H1 & H2 & H3) & Hn).
    split; [exact Ho|]. split.
    + exists eb. rewrite Hfr; [auto|]. cbn. set_solver.
    + apply IH; [|exact Hn]. intros x Hx. apply Hfr. cbn. set_solver.
Qed.

Lemma nested_not_conn w c cb t es sh :
  handles w !! c = Some cb -> body cb = PConn ->
  nested w c t es sh -> c ∉ es.*1 ++ opt_list sh.
Proof.
  intros Hcb Hcn. revert t. induction es as [|[e te] es IH]; intros t [_ Hn].
  - destruct Hn as [_ Hs]. destruct sh as [e|]; cbn; [|set_solver].
    destruct (Hs e eq_refl) as (eb & te & H1 & H2 & _).
    intros Hin. apply list_elem_of_singleton in Hin. subst e. congruence.
  - destruct Hn as (_ & (eb & H1 & H2 & _) & Hn). cbn.
    intros Hin. apply elem_of_cons in Hin as [->|Hin]; [congruence|].
    exact (IH _ Hn Hin).
Qed.

Lemma free_chain_spec (es : list (positive * dpiObjectType)) :
  forall (fuel : nat) (w : world) (h : positive) (bo : dpiBaseType)
         (t : dpiObjectType) (c : positive) (cb : dpiBaseType)
         (sh : option positive),
    handles w !! h = Some bo ->
    body bo = PObjectType t ->
    freeable w h t c cb es sh ->
    (length es <= fuel)%nat ->
    wp (dpiObjectType__free (S fuel) h)
       (fun _ => free_post w h c cb t es sh []) w.
Proof.
  induction es as [|[e te] es IH];
    intros fuel w h bo t c cb sh Hb Ht (Hcb & Hcn & Hcc & Hnest & Hnd & Hsd
                                        & Hsl) Hfuel.
  - destruct Hnest as (Hc & Ho & Hsh).
    assert (Hch : c <> h) by (intros ->; congruence).
    assert (Hhc : h <> c) by congruence.
    destruct t as [tc ttdo tcode tsch tschl tnm tnml [etn eo] icoll natt].
    cbn in Hc, Ho. subst tc eo.
    unfold free_post, free_events, release_events, storage_events,
      owned_all, owned in *.
    cbn [ot_conn ot_schema ot_name ot_elementTypeInfo objectType length
         Z.of_nat flat_map fmap list_fmap] in *.
    unfold dpiObjectType__free, dpiObjectType__free_with.
    change (1 + 0) with 1 in *.
    destruct (refCount cb =? 1) eqn:E1;
      [apply Z.eqb_eq in E1 | apply Z.eqb_neq in E1].
    all: wgo.
    all: destruct sh as [e|];
      [ destruct (Hsh e eq_refl) as (eb & te & Heb & Hte & Hec);
        assert (e <> c) by (intros ->; congruence);
        assert (e <> h)
          by (apply NoDup_cons_1_1 in Hnd; set_solver) | ]; wgo.
    all: destruct tsch as [s|];
      [destruct (Hsl s ltac:(set_solver)) as [sv Hsv] | ]; wgo.
    all: destruct tnm as [n|];
      [ destruct (Hsl n ltac:(set_solver)) as [nv Hnv];
        try assert (n <> s)
          by (intros ->; cbn in Hsd; apply NoDup_cons_1_1 in Hsd;
              set_solver) | ]; wgo.
    all: cbn [opt_event opt_list app]; rewrite <- ?app_assoc.
    all: repeat first [wlook | progress wmap | wdecide].
    all: wgo.
    all: split; [reflexivity|].
    all: split;
      [ intros x Hx; apply list_elem_of_singleton in Hx; subst x; wmap;
        reflexivity |].
    all: split;
      [ wmap; try reflexivity;
        try (unfold add_refs; rewrite ?Hcn; do 2 f_equal; lia) |].
    all: split;
      [ intros e' eb' Hs Hl; try discriminate;
        try (injection Hs as <-; wmap; unfold add_refs; congruence) |].
    all: split; [intros x Hx1 Hx2; wlookup|].
    all: split; [intros x Hx; wlookup|].
    all: split; [intros x Hx; wlookup|].
    all: split; reflexivity.
  - destruct Hnest as (Hc & Ho & (eb & Heb & Hte & Hec) & Hnest).
    destruct fuel as [|fuel]; [cbn in Hfuel; lia|].
    assert (Hlen : (length es <= fuel)%nat) by (cbn in Hfuel; lia).
    assert (Hch : c <> h) by (intros ->; congruence).
    assert (Hhc : h <> c) by congruence.
    assert (Hec' : e <> c) by (intros ->; congruence).
    assert (Hce : c <> e) by congruence.
    assert (Heh : e <> h)
      by (apply NoDup_cons_1_1 in Hnd; cbn in Hnd; set_solver).
    assert (Hhe : h <> e) by congruence.
    assert (Hcc' : 2 + Z.of_nat (length es) <= refCount cb)
      by (cbn [length] in Hcc; lia).
    destruct t as [tc ttdo tcode tsch tschl tnm tnml [etn eo] icoll natt].
    cbn in Hc, Ho. subst tc eo.
    unfold dpiObjectType__free, dpiObjectType__free_with.
    wgo.
    match goal with |- wpx _ _ _ ?x => set (w2 := x) end.
    fold (dpiObjectType__free (S fuel) e).
    assert (Hw2h : forall x, x <> c -> x <> h -> x <> e ->
                     handles w2 !! x = handles w !! x)
      by (intros x ? ? ?; subst w2; wsimpl; wmap; reflexivity).
    assert (Hw2s : strings w2 = strings w) by reflexivity.
    assert (Hnd' : NoDup (e :: es.*1 ++ opt_list sh))
      by (apply NoDup_cons_1_2 in Hnd; exact Hnd).
    assert (Hhn : h ∉ e :: es.*1 ++ opt_list sh)
      by (apply NoDup_cons_1_1 in Hnd; exact Hnd).
    eapply wpx_mono.
    { eapply (IH fuel w2 e _ te c _ sh).
      - subst w2; wsimpl; wmap; reflexivity.
      - reflexivity.
      - split; [subst w2; wsimpl; wmap; reflexivity|].
        split; [reflexivity|].
        split; [wsimpl; lia|].
        split.
        { eapply nested_frame; [|exact Hnest].
          intros x Hx. apply Hw2h.
          - intros ->.
            exact (nested_not_conn _ _ _ _ _ _ Hcb Hcn Hnest Hx).
          - intros ->. set_solver.
          - intros ->. apply NoDup_cons_1_1 in Hnd'. set_solver. }
        split; [exact Hnd'|].
        split.
        { unfold owned_all in *. cbn [flat_map snd] in Hsd.
          apply NoDup_app in Hsd as (_ & _ & Hsd'). exact Hsd'. }
        intros s Hs. rewrite Hw2s. apply Hsl.
        unfold owned_all in *. cbn [flat_map snd]. set_solver.
      - exact Hlen. }
    intros [] w3 (Htr & Hdel & Hc3 & Hsh3 & Hfr3 & Hs3 & Hs3' & Hm3 & Hcl3).
    assert (Hh3 : handles w3 !! h
                  = Some {| refCount := refCount bo; env := env bo;
                            body := PObjectType
                              {| ot_conn := None; ot_tdo := ttdo;
                                 ot_typeCode := tcode; ot_schema := tsch;
                                 ot_schemaLength := tschl; ot_name := tnm;
                                 ot_nameLength := tnml;
                                 ot_elementTypeInfo :=
                                   {| oracleTypeNum := etn;
                                      objectType := Some e |};
                                 ot_isCollection := icoll;
                                 ot_numAttributes := natt |} |}).
    { rewrite Hfr3 by assumption. subst w2; wsimpl; wmap. reflexivity. }
    assert (Htr3 : trace w3
                   = trace w ++
                     [EvSetRefCount c (-1) DPI_SUCCESS;
                      EvSetRefCount e (-1) DPI_SUCCESS] ++
                     free_events e c (refCount cb + -1) te es sh).
    { rewrite Htr. subst w2; wsimpl. now rewrite <- !app_assoc. }
    assert (Hc3' : handles w3 !! c
                   = (if refCount cb + -1 =? 1 + Z.of_nat (length es)
                      then None
                      else Some {| refCount := refCount cb + -1
                                     + - (1 + Z.of_nat (length es));
                                   env := env cb; body := PConn |}))
      by exact Hc3.
    assert (Hsh3' : forall e' eb', sh = Some e' ->
                      handles w !! e' = Some eb' ->
                      handles w3 !! e' = Some (add_refs (-1) eb')).
    { intros e' eb' -> He'. apply Hsh3; [reflexivity|].
      rewrite Hw2h; [exact He'| | |].
      - intros ->.
        apply (nested_not_conn _ _ _ _ _ _ Hcb Hcn Hnest). set_solver.
      - intros ->. set_solver.
      - intros ->. apply NoDup_cons_1_1 in Hnd'. set_solver. }
    assert (Hfr3' : forall x, x <> c -> x ∉ h :: e :: es.*1 ++ opt_list sh ->
                      handles w3 !! x = handles w !! x).
    { intros x Hxc Hx. rewrite Hfr3 by set_solver.
      apply Hw2h; [assumption| |]; intros ->; set_solver. }
    rewrite Hw2s in Hs3'.
    assert (Hm3' : mem_faults w3 = mem_faults w) by exact Hm3.
    assert (Hcl3' : clock w3 = clock w) by exact Hcl3.
    clear Htr Hc3 Hsh3 Hfr3 Hm3 Hcl3 Hw2h Hw2s IH. clearbody w2. clear w2.
    assert (Hown : forall s, s ∈ opt_list tsch ++ opt_list tnm ->
                     exists sv, strings w3 !! s = Some sv).
    { intros s Hs. unfold owned_all, owned in *.
      cbn [flat_map snd ot_schema ot_name] in *.
      destruct (Hsl s ltac:(set_solver)) as [sv Hsv]. exists sv.
      rewrite Hs3'; [exact Hsv|].
      apply NoDup_app in Hsd as (_ & Hdis & _). exact (Hdis s Hs). }
    unfold free_post, owned_all, owned in *.
    cbn [ot_schema ot_name flat_map snd fst length fmap list_fmap
         free_events ot_elementTypeInfo objectType] in *.
    unfold release_events, storage_events.
    cbn [ot_schema ot_name].
    wgo.
    destruct tsch as [s|];
      [destruct (Hown s ltac:(set_solver)) as [sv Hsv] | ]; wgo.
    all: destruct tnm as [n|];
      [ destruct (Hown n ltac:(set_solver)) as [nv Hnv];
        try assert (n <> s)
          by (intros ->; apply NoDup_app in Hsd as (Hsd1 & _);
              apply NoDup_cons_1_1 in Hsd1; set_solver) | ]; wgo.
    all: rewrite Htr3; cbn [opt_event opt_list app]; rewrite <- ?app_assoc.
    all: cbn [app].
    all: split; [reflexivity|].
    all: rewrite ?insert_insert_eq, ?delete_insert_eq.
    all: split;
      [ intros x Hx; destruct (decide (x = h)) as [->|Hxh];
        [ apply lookup_delete_eq
        | rewrite lookup_delete_ne by congruence; apply Hdel; set_solver ]|].
    all: split;
      [ rewrite ?lookup_delete_ne by congruence; rewrite ?Hc3';
        unfold add_refs; rewrite Hcn;
        repeat match goal with
               | |- context [?a =? ?b] => destruct (Z.eqb_spec a b)
               end; try lia; try reflexivity; do 2 f_equal; lia |].
    all: split;
      [ intros e' eb' Hs He'; subst sh;
        rewrite lookup_delete_ne by (intros ->; set_solver);
        apply Hsh3'; [reflexivity | exact He'] |].
    all: split;
      [ intros x Hxc Hx;
        rewrite lookup_delete_ne by (intros ->; set_solver);
        apply Hfr3'; [exact Hxc | set_solver] |].
    all: split;
      [ intros x Hx;
        repeat first [rewrite lookup_delete];
        repeat case_decide; try reflexivity;
        repeat (apply elem_of_cons in Hx as [->|Hx]; [congruence|]);
        apply Hs3; rewrite <- ?app_assoc; exact Hx |].
    all: split;
      [ intros x Hx;
        repeat (apply not_elem_of_cons in Hx as [? Hx]);
        rewrite ?lookup_delete_ne by congruence;
        apply Hs3'; rewrite <- ?app_assoc; exact Hx |].
    all: split; assumption.
Qed.

Lemma occ_app x l1 l2 : occ x (l1 ++ l2) = (occ x l1 + occ x l2)%nat.
Proof. induction l1 as [|y l1 IH]; cbn; [reflexivity|]. rewrite IH. lia. Qed.

Lemma occ_not_in x l : x ∉ l -> occ x l = 0%nat.
Proof.
  induction l as [|y l IH]; cbn; [reflexivity|]. intros Hx.
  apply not_elem_of_cons in Hx as [Hxy Hx].
  rewrite decide_False by congruence. now rewrite IH.
Qed.

Lemma occ_NoDup x l : NoDup l -> x ∈ l -> occ x l = 1%nat.
Proof.
  induction 1 as [|y l Hy Hnd IH]; [intros Hx; now apply elem_of_nil in Hx|].
  intros Hx. cbn. destruct (decide (y = x)) as [->|Hne].
  - now rewrite occ_not_in.
  - apply elem_of_cons in Hx as [->|Hx]; [congruence|]. now rewrite IH.
Qed.

Lemma count_opt_event {A} (f : event -> bool) (g : A -> event) (o : option A) :
  count_events f (opt_event g o)
  = match o with Some a => if f (g a) then 1%nat else 0%nat | None => 0%nat end.
Proof. destruct o; cbn; [|reflexivity]. destruct (f (g a)); reflexivity. Qed.

Lemma count_events_cons f e l :
  count_events f (e :: l)
  = ((if f e then 1 else 0) + count_events f l)%nat.
Proof. reflexivity. Qed.

Lemma count_dec_release x c count :
  count_events (is_dec x) (release_events c count)
  = if decide (c = x) then 1%nat else 0%nat.
Proof.
  unfold release_events. rewrite count_events_cons.
  change (is_dec x (EvSetRefCount c (-1) DPI_SUCCESS))
    with (bool_decide (c = x)).
  destruct (count =? 1); cbn; case_bool_decide; case_decide;
    try congruence; reflexivity.
Qed.

Lemma count_dec_storage x h t :
  count_events (is_dec x) (storage_events h t) = 0%nat.
Proof.
  unfold storage_events. destruct (ot_schema t), (ot_name t); reflexivity.
Qed.

Lemma count_dec_free_events x (es : list (positive * dpiObjectType)) :
  forall h c count t sh,
    count_events (is_dec x) (free_events h c count t es sh)
    = ((if decide (c = x) then S (length es) else 0)
       + occ x (es.*1 ++ opt_list sh))%nat.
Proof.
  induction es as [|[e te] es IH]; intros h c count t sh;
    cbn [free_events length fmap list_fmap fst].
  - rewrite !count_events_app, count_dec_release, count_dec_storage.
    destruct sh as [e|]; cbn; repeat case_bool_decide; repeat case_decide;
      try congruence; lia.
  - rewrite !count_events_app, count_events_cons, IH, count_dec_release,
      count_dec_storage.
    change (is_dec x (EvSetRefCount e (-1) DPI_SUCCESS))
      with (bool_decide (e = x)).
    cbn [app occ]. case_bool_decide; repeat case_decide; try congruence; lia.
Qed.

Lemma count_free_release s c count :
  count_events (is_free s) (release_events c count) = 0%nat.
Proof. unfold release_events. destruct (count =? 1); reflexivity. Qed.

Lemma count_free_storage s h t :
  count_events (is_free s) (storage_events h t) = occ s (owned t).
Proof.
  unfold storage_events, owned.
  destruct (ot_schema t), (ot_name t); cbn;
    repeat case_bool_decide; repeat case_decide; try congruence; lia.
Qed.

Lemma count_free_free_events s (es : list (positive * dpiObjectType)) :
  forall h c count t sh,
    count_events (is_free s) (free_events h c count t es sh)
    = occ s (owned_all t es).
Proof.
  induction es as [|[e te] es IH]; intros h c count t sh;
    cbn [free_events]; unfold owned_all in *; cbn [flat_map snd].
  - rewrite !count_events_app, count_free_release, count_free_storage.
    rewrite app_nil_r. destruct sh; cbn; lia.
  - rewrite !count_events_app, count_events_cons, IH, count_free_release,
      count_free_storage.
    cbn [is_free]. rewrite !occ_app. lia.
Qed.

Lemma count_dealloc_release x c count :
  x <> c -> count_events (is_dealloc x) (release_events c count) = 0%nat.
Proof.
  intros Hne. unfold release_events.
  destruct (count =? 1); cbn; [|reflexivity].
  case_bool_decide; [congruence | reflexivity].
Qed.

Lemma count_dealloc_storage x h t :
  count_events (is_dealloc x) (storage_events h t)
  = if decide (h = x) then 1%nat else 0%nat.
Proof.
  unfold storage_events.
  destruct (ot_schema t), (ot_name t); cbn;
    case_bool_decide; case_decide; try congruence; reflexivity.
Qed.

Lemma count_dealloc_free_events x (es : list (positive * dpiObjectType)) :
  forall h c count t sh,
    x <> c ->
    count_events (is_dealloc x) (free_events h c count t es sh)
    = occ x (h :: es.*1).
Proof.
  induction es as [|[e te] es IH]; intros h c count t sh Hne;
    cbn [free_events fmap list_fmap fst].
  - rewrite !count_events_app, count_dealloc_release, count_dealloc_storage
      by assumption.
    destruct sh; cbn; case_decide; lia.
  - rewrite !count_events_app, count_events_cons, IH, count_dealloc_release,
      count_dealloc_storage by assumption.
    cbn. repeat case_decide; lia.
Qed.

Lemma freeable_frame (w w1 : world) (h : positive) (t : dpiObjectType)
    (c : positive) (cb : dpiBaseType) es sh (x : dpiBaseType) :
  handles w1 = <[h := x]> (handles w) ->
  strings w1 = strings w ->
  h <> c ->
  freeable w h t c cb es sh -> freeable w1 h t c cb es sh.
Proof.
  intros Hh Hs Hhc (Hcb & Hcn & Hcc & Hnest & Hnd & Hsd & Hsl).
  unfold freeable. rewrite Hh, Hs.
  split; [now rewrite lookup_insert_ne|].
  repeat (split; [assumption|]).
  split; [|auto].
  eapply nested_frame; [|exact Hnest].
  intros y Hy. rewrite Hh. apply lookup_insert_ne.
  intros ->. apply NoDup_cons_1_1 in Hnd. contradiction.
Qed.

Lemma freeable_once (w : world) (h : positive) (t : dpiObjectType)
    (c : positive) (cb : dpiBaseType) es sh (bo : dpiBaseType) count :
  handles w !! h = Some bo -> body bo = PObjectType t ->
  freeable w h t c cb es sh ->
  released_once h c t es sh (free_events h c count t es sh).
Proof.
  intros Hb Ht (Hcb & Hcn & Hcc & Hnest & Hnd & Hsd & Hsl).
  assert (Hc : c ∉ es.*1 ++ opt_list sh)
    by (eapply nested_not_conn; eassumption).
  assert (Hch : c <> h) by (intros ->; congruence).
  split; [|split; [|split]].
  - rewrite count_dec_free_events, decide_True by reflexivity.
    rewrite occ_not_in by assumption. lia.
  - intros x Hx. rewrite count_dec_free_events.
    rewrite decide_False by (intros ->; contradiction).
    apply occ_NoDup; [|assumption]. now apply NoDup_cons_1_2 in Hnd.
  - intros s Hs. rewrite count_free_free_events. now apply occ_NoDup.
  - intros x Hx. rewrite count_dealloc_free_events.
    + apply occ_NoDup; [|assumption].
      change (NoDup ((h :: es.*1) ++ opt_list sh)) in Hnd.
      now apply NoDup_app in Hnd as (Hnd1 & _).
    + intros ->. apply elem_of_cons in Hx as [?|Hx]; [congruence|].
      apply Hc. set_solver.
Qed.

(** C3: when the storage of a type descriptor is freed,
    [dpiObjectType__free] releases the connection exactly once, releases
    the element type exactly once if the descriptor has one, frees the
    schema and the name exactly once each and then frees the descriptor;
    no storage is freed twice.  An element type that nobody else holds is
    freed by that release in the same way, and so on through the element
    types; an element type that somebody else holds only loses one
    reference.  In particular, releasing the last reference to a
    collection's descriptor with [dpiObjectType_release] releases its
    element type exactly once. *)
Theorem objectType_free_releases_once (fuel : nat) (w : world)
    (h : positive) (bo : dpiBaseType) (t : dpiObjectType) (c : positive)
    (cb : dpiBaseType) (es : list (positive * dpiObjectType))
    (sh : option positive) :
  handles w !! h = Some bo ->
  body bo = PObjectType t ->
  freeable w h t c cb es sh ->
  (length es <= fuel)%nat ->
  released_once h c t es sh (free_events h c (refCount cb) t es sh) /\
  wp (dpiObjectType__free (S fuel) h)
     (fun _ => free_post w h c cb t es sh []) w /\
  (refCount bo = 1 ->
   wp (dpiObjectType_release (S (S fuel)) (Some h))
      (fun st w' =>
         st = DPI_SUCCESS /\
         free_post w h c cb t es sh [EvSetRefCount h (-1) DPI_SUCCESS] w')
      w).
Proof.
  intros Hb Ht Hfr Hfuel.
  split; [eapply freeable_once; eassumption|].
  split; [eapply free_chain_spec; eassumption|].
  intros Hone.
  assert (Hhc : h <> c).
  { destruct Hfr as (Hcb & Hcn & _). intros ->. congruence. }
  unfold dpiObjectType_release, dpiGen__release.
  wgo. rewrite decide_True by (eapply typeNum_objType; eassumption).
  wgo.
  match goal with |- wpx _ _ _ ?x => set (w1 := x) end.
  fold (dpiObjectType__free (S fuel) h).
  eapply wpx_mono.
  { eapply (free_chain_spec es fuel w1 h _ t c cb sh).
    - subst w1; wsimpl. apply lookup_insert_eq.
    - reflexivity.
    - eapply freeable_frame; try eassumption; reflexivity.
    - exact Hfuel. }
  intros [] w' (Htr & Hdel & Hc' & Hsh & Hframe & Hs1 & Hs2 & Hm & Hcl). wgo.
  assert (Hw1 : forall x, x <> h -> handles w1 !! x = handles w !! x)
    by (intros x Hx; subst w1; wsimpl; now rewrite lookup_insert_ne).
  destruct Hfr as (Hcb & Hcn & Hcc & Hnest & Hnd & Hsd & Hsl).
  split; [reflexivity|].
  split; [rewrite Htr; subst w1; wsimpl; now rewrite <- !app_assoc|].
  split; [exact Hdel|]. split; [exact Hc'|].
  split.
  { intros e eb -> He. apply Hsh; [reflexivity|].
    rewrite Hw1; [exact He|]. intros ->.
    apply NoDup_cons_1_1 in Hnd. set_solver. }
  split.
  { intros x Hxc Hx. rewrite Hframe by assumption. apply Hw1.
    intros ->. set_solver. }
  repeat split; assumption.
Qed.

Lemma objectType_free_releases_once_witness :
  let w := example_collection_world (script_of []) in
  wp (dpiObjectType_release 3 (Some 3%positive))
     (fun st w' =>
        st = DPI_SUCCESS /\
        free_post w 3 1 {| refCount := 3; env := 7; body := PConn |}
          example_collection [(2%positive, example_objType 3)] None
          [EvSetRefCount 3 (-1) DPI_SUCCESS] w') w.
Proof.
  intros w.
  apply (objectType_free_releases_once 1 w 3%positive
           {| refCount := 1; env := 7;
              body := PObjectType example_collection |}
           example_collection 1%positive
           {| refCount := 3; env := 7; body := PConn |}
           [(2%positive, example_objType 3)] None).
  - reflexivity.
  - reflexivity.
  - split; [reflexivity|]. split; [reflexivity|]. split; [simpl; lia|].
    split.
    { split; [reflexivity|]. split; [reflexivity|]. split.
      - eexists. split; [reflexivity|]. split; reflexivity.
      - split; [reflexivity|]. split; [reflexivity|]. intros e [=]. }
    split; [cbn; repeat constructor; set_solver|].
    split; [cbn; repeat constructor; set_solver|].
    intros s Hs. cbn in Hs.
    repeat (apply elem_of_cons in Hs as [->|Hs]; [eexists; reflexivity|]).
    now apply elem_of_nil in Hs.
  - simpl. lia.
  - reflexivity.
Defined.

(** ** Describe handles are freed exactly once *)

Lemma ctx_allocs_app l1 l2 :
  ctx_allocs (l1 ++ l2) = ctx_allocs l1 ++ ctx_allocs l2.
Proof. apply omap_app. Qed.

Lemma ctx_frees_app l1 l2 :
  ctx_frees (l1 ++ l2) = ctx_frees l1 ++ ctx_frees l2.
Proof. apply omap_app. Qed.

Lemma ctx_rel_quiet w w' :
  ctx_live w' = ctx_live w -> ctx_faults w' = ctx_faults w ->
  ctx_next w' = ctx_next w -> trace w' = trace w ->
  ctx_run w w'.
Proof.
  intros Hl Hf Hn Ht. unfold ctx_run, ctx_rel.
  rewrite Hl, Hf, Hn, Ht. repeat split; auto.
  exists []. rewrite app_nil_r. repeat split; auto.
  - apply NoDup_nil_2.
  - intros h Hh. cbn in Hh. inversion Hh.
Qed.

Lemma ctx_rel_event w w' e :
  ctx_live w' = ctx_live w -> ctx_faults w' = ctx_faults w ->
  ctx_next w' = ctx_next w -> trace w' = trace w ++ [e] ->
  ctx_allocs [e] = [] -> ctx_frees [e] = [] ->
  ctx_run w w'.
Proof.
  intros Hl Hf Hn Ht Ha Hfr. unfold ctx_run, ctx_rel.
  rewrite Hl, Hf, Hn, Ht. repeat split; auto.
  exists [e]. rewrite Ha, Hfr. repeat split; auto.
  - apply NoDup_nil_2.
  - intros h Hh. inversion Hh.
Qed.

Lemma ctx_rel_trans op w w1 w2 :
  ctx_rel op w w1 -> ctx_run w1 w2 -> ctx_rel op w w2.
Proof.
  intros (Hl1 & Hf1 & Hn1 & tr1 & Ht1 & Hp1 & Hd1 & Hr1)
         (Hl2 & Hf2 & Hn2 & tr2 & Ht2 & Hp2 & Hd2 & Hr2).
  unfold ctx_rel. cbn [app] in Hl2, Hp2.
  rewrite Hl2, Hl1, Hf2, Hf1. repeat split; auto; [lia|].
  exists (tr1 ++ tr2). rewrite Ht2, Ht1, app_assoc.
  rewrite ctx_frees_app, ctx_allocs_app. repeat split; auto.
  - rewrite app_assoc, Hp1, Hp2. reflexivity.
  - apply NoDup_app. repeat split; auto.
    intros h H1 H2. apply Hr1 in H1 as (n1 & -> & ?).
    apply Hr2 in H2 as (n2 & E & ?). inversion E. lia.
  - intros h Hh. apply elem_of_app in Hh as [Hh|Hh].
    + apply Hr1 in Hh as (n & -> & ?). exists n. split; [auto|lia].
    + apply Hr2 in Hh as (n & -> & ?). exists n. split; [auto|lia].
Qed.

Lemma ctx_run_refl w : ctx_run w w.
Proof. now apply ctx_rel_quiet. Qed.

(** A successful allocation opens a handle... *)
Lemma ctx_rel_open w w0 w1 st :
  ctx_run w w0 ->
  (st <? 0) = false ->
  ctx_live w1 = ctx_next w0 :: ctx_live w0 ->
  ctx_next w1 = S (ctx_next w0) ->
  ctx_faults w1 = ctx_faults w0 ->
  trace w1 = trace w0 ++ [EvHandleAlloc (OciHandle (ctx_next w0)) st] ->
  ctx_rel [ctx_next w0] w w1.
Proof.
  intros (Hl0 & Hf0 & Hn0 & tr0 & Ht0 & Hp0 & Hd0 & Hr0) Hst Hl Hn Hf Ht.
  unfold ctx_rel. cbn [app] in *.
  rewrite Hl, Hl0, Hf, Hf0, Hn. repeat split; auto.
  exists (tr0 ++ [EvHandleAlloc (OciHandle (ctx_next w0)) st]).
  rewrite Ht, Ht0, app_assoc, ctx_frees_app, ctx_allocs_app.
  cbn. rewrite Hst. cbn. rewrite app_nil_r. repeat split; auto.
  - rewrite <- Hp0. cbn. apply Permutation_cons_append.
  - apply NoDup_app. repeat split; auto.
    + intros h H1 H2. apply Hr0 in H1 as (n & -> & ?).
      apply list_elem_of_singleton in H2. inversion H2. lia.
    + apply NoDup_singleton.
  - intros h Hh. apply elem_of_app in Hh as [Hh|Hh].
    + apply Hr0 in Hh as (n & -> & ?). exists n. split; [auto|lia].
    + apply list_elem_of_singleton in Hh. subst h.
      exists (ctx_next w0). split; [auto|lia].
Qed.

(** ... and its [dpiOci__handleFree] closes it. *)
Lemma ctx_rel_close n w w1 w2 :
  ctx_rel [n] w w1 ->
  ctx_live w2 = ctx_remove n (ctx_live w1) ->
  ctx_next w2 = ctx_next w1 ->
  ctx_faults w2 = ctx_faults w1 ->
  trace w2 = trace w1 ++ [EvHandleFree (OciHandle n)] ->
  ctx_run w w2.
Proof.
  intros (Hl1 & Hf1 & Hn1 & tr1 & Ht1 & Hp1 & Hd1 & Hr1) Hl Hn Hf Ht.
  unfold ctx_run, ctx_rel. cbn [app fmap list_fmap] in *.
  rewrite Hl, Hl1, Hf, Hf1, Hn. cbn [ctx_remove].
  rewrite decide_True by reflexivity. repeat split; auto.
  exists (tr1 ++ [EvHandleFree (OciHandle n)]).
  rewrite Ht, Ht1, app_assoc, ctx_frees_app, ctx_allocs_app.
  cbn. rewrite app_nil_r. repeat split; auto.
  rewrite <- Hp1. cbn. symmetry. apply Permutation_cons_append.
Qed.

Lemma ctx_rel_live n w w1 : ctx_rel [n] w w1 -> n ∈ ctx_live w1.
Proof. intros (Hl & _). rewrite Hl. apply list_elem_of_here. Qed.

Section Steps.
Context {A B : Type} (R : world -> world -> Prop).
Hypothesis R_refl : forall w, R w w.
Hypothesis R_trans : forall w1 w2 w3, R w1 w2 -> R w2 w3 -> R w1 w3.

Lemma steps_ret (a : A) : steps R (ret a).
Proof. intros w. apply R_refl. Qed.

Lemma steps_get (f : world -> A) : steps R (get f).
Proof. intros w. apply R_refl. Qed.

Lemma steps_undefined : steps R (@undefined A).
Proof. intros w. exact I. Qed.

Lemma steps_modify (g : world -> world) :
  (forall w, R w (g w)) -> steps R (modify g).
Proof. intros H w. apply H. Qed.

Lemma steps_bind (m : M A) (f : A -> M B) :
  steps R m -> (forall a, steps R (f a)) -> steps R (bind m f).
Proof.
  intros Hm Hf w. apply wpx_bind. eapply wpx_mono; [apply Hm|].
  intros a w1 H1. eapply wpx_mono; [apply Hf|].
  intros b w2 H2. exact (R_trans _ _ _ H1 H2).
Qed.
End Steps.

Lemma ctx_run_trans w1 w2 w3 : ctx_run w1 w2 -> ctx_run w2 w3 -> ctx_run w1 w3.
Proof. apply ctx_rel_trans. Qed.

Create HintDb ctxdb.

Ltac head_of t :=
  lazymatch t with
  | ?f _ => head_of f
  | _ => t
  end.

Ltac ctx_leaf :=
  intros;
  first [ now apply ctx_rel_quiet
        | eapply ctx_rel_event; reflexivity ].

(** Decomposes a computation that does not touch the describe handles
    itself into its steps. *)
Ltac steps_go :=
  repeat lazymatch goal with
  | |- steps _ (bind (dpiOci__handleAlloc _ _) _) => fail
  | |- steps _ (bind _ _) =>
      apply (steps_bind ctx_run ctx_run_trans); [|intros]
  | |- steps _ (ret _) => apply (steps_ret ctx_run ctx_run_refl)
  | |- steps _ (get _) => apply (steps_get ctx_run ctx_run_refl)
  | |- steps _ undefined => apply steps_undefined
  | |- steps _ (modify _) => apply steps_modify; ctx_leaf
  | |- steps _ (emit _) => apply steps_modify; ctx_leaf
  | |- steps _ (store _ _) => apply steps_modify; ctx_leaf
  | |- steps _ (if ?c then _ else _) => destruct c
  | |- steps _ (match ?x with _ => _ end) => destruct x
  | |- steps _ ?m =>
      first [ solve [auto with ctxdb]
            | let hd := head_of m in unfold hd ]
  end.

Lemma steps_dpiError__set e : steps ctx_run (dpiError__set e).
Proof. steps_go. Qed.
#[local] Hint Resolve steps_dpiError__set : ctxdb.

Lemma steps_next_reply : steps ctx_run next_reply.
Proof. steps_go. Qed.
#[local] Hint Resolve steps_next_reply : ctxdb.

Lemma steps_load h : steps ctx_run (load h).
Proof. steps_go. Qed.
#[local] Hint Resolve steps_load : ctxdb.

Lemma steps_load_objType h : steps ctx_run (load_objType h).
Proof. steps_go. Qed.
#[local] Hint Resolve steps_load_objType : ctxdb.

Lemma steps_update_objType h f : steps ctx_run (update_objType h f).
Proof. steps_go. Qed.
#[local] Hint Resolve steps_update_objType : ctxdb.

Lemma steps_load_object h : steps ctx_run (load_object h).
Proof. steps_go. Qed.
#[local] Hint Resolve steps_load_object : ctxdb.

Lemma steps_update_object h f : steps ctx_run (update_object h f).
Proof. steps_go. Qed.
#[local] Hint Resolve steps_update_object : ctxdb.

Lemma steps_free_handle h : steps ctx_run (free_handle h).
Proof. steps_go. Qed.
#[local] Hint Resolve steps_free_handle : ctxdb.

Lemma steps_free_string p : steps ctx_run (free_string p).
Proof. steps_go. Qed.
#[local] Hint Resolve steps_free_string : ctxdb.

Lemma steps_dpiGen__allocate k e : steps ctx_run (dpiGen__allocate k e).
Proof. steps_go. Qed.
#[local] Hint Resolve steps_dpiGen__allocate : ctxdb.

Lemma steps_describeAny c o h : steps ctx_run (dpiOci__describeAny c o h).
Proof. steps_go. Qed.
#[local] Hint Resolve steps_describeAny : ctxdb.

Lemma steps_attrGet h ht a : steps ctx_run (dpiOci__attrGet h ht a).
Proof. steps_go. Qed.
#[local] Hint Resolve steps_attrGet : ctxdb.

Lemma steps_paramGet h ht pos : steps ctx_run (dpiOci__paramGet h ht pos).
Proof. steps_go. Qed.
#[local] Hint Resolve steps_paramGet : ctxdb.

Lemma steps_objectPin e r : steps ctx_run (dpiOci__objectPin e r).
Proof. steps_go. Qed.
#[local] Hint Resolve steps_objectPin : ctxdb.

Lemma steps_getAttrString h ht a :
  steps ctx_run (dpiUtils__getAttrStringWithDup h ht a).
Proof. steps_go. Qed.
#[local] Hint Resolve steps_getAttrString : ctxdb.

Lemma steps_objectAttr_allocate h p :
  steps ctx_run (dpiObjectAttr__allocate h p).
Proof. steps_go. Qed.
#[local] Hint Resolve steps_objectAttr_allocate : ctxdb.

Lemma steps_objectType_free_with release h :
  (forall c d, steps ctx_run (release c d)) ->
  steps ctx_run (dpiObjectType__free_with release h).
Proof. intros Hr. unfold dpiObjectType__free_with. steps_go; apply Hr. Qed.

Lemma steps_object_free_with release h :
  (forall c d, steps ctx_run (release c d)) ->
  steps ctx_run (dpiObject__free_with release h).
Proof. intros Hr. unfold dpiObject__free_with. steps_go; apply Hr. Qed.

Lemma steps_setRefCount fuel :
  forall h increment, steps ctx_run (dpiGen__setRefCount fuel h increment).
Proof.
  induction fuel as [|fuel IH]; intros h increment.
  - apply steps_undefined.
  - rewrite setRefCount_S. steps_go.
Qed.
#[local] Hint Resolve steps_setRefCount : ctxdb.

Lemma steps_objectType_free fuel h :
  steps ctx_run (dpiObjectType__free fuel h).
Proof. apply steps_objectType_free_with, steps_setRefCount. Qed.
#[local] Hint Resolve steps_objectType_free : ctxdb.

Lemma ctx_run_events w w' l :
  ctx_live w' = ctx_live w -> ctx_faults w' = ctx_faults w ->
  ctx_next w' = ctx_next w -> trace w' = trace w ++ l ->
  ctx_allocs l = [] -> ctx_frees l = [] ->
  ctx_run w w'.
Proof.
  intros Hl Hf Hn Ht Ha Hfr. unfold ctx_run, ctx_rel.
  rewrite Hl, Hf, Hn, Ht. repeat split; auto.
  exists l. rewrite Ha, Hfr. repeat split; auto.
  - apply NoDup_nil_2.
  - intros h Hh. inversion Hh.
Qed.

Section DescribeSteps.
Variable allocate : option positive -> ociPtr -> ociAttr
                    -> M (Z * option positive).
Hypothesis allocate_steps :
  forall c p na, steps ctx_run (allocate c p na).

Lemma steps_populateTypeInfo_with c h ht owner :
  steps ctx_run (dpiOracleType__populateTypeInfo_with allocate c h ht owner).
Proof. unfold dpiOracleType__populateTypeInfo_with. steps_go. Qed.

Lemma steps_describe_with objType dh :
  steps ctx_run (dpiObjectType__describe_with allocate objType dh).
Proof.
  unfold dpiObjectType__describe_with. steps_go.
Qed.

Lemma steps_init_with objType param na :
  steps ctx_run (dpiObjectType__init_with allocate objType param na).
Proof.
  unfold dpiObjectType__init_with. steps_go.
  intros w. wgo.
  destruct (rc (script w (clock w)) <? 0) eqn:R0; wgo.
  { eapply ctx_run_events; try reflexivity;
      wsimpl; rewrite <- ?app_assoc; reflexivity. }
  match goal with |- wpx _ _ _ ?x => set (w1 := x) end.
  assert (Hopen : ctx_rel [ctx_next w] w w1).
  { eapply (ctx_rel_open w w w1 DPI_SUCCESS); try reflexivity.
    apply ctx_run_refl. }
  eapply wpx_mono; [apply steps_describe_with|].
  intros st w2 Hrun. cbv beta.
  pose proof (ctx_rel_trans _ _ _ _ Hopen Hrun) as Hopen2.
  pose proof (ctx_rel_live _ _ _ Hopen2) as Hlive.
  destruct (st <? 0); wgo.
  all: rewrite decide_True by assumption; wgo.
  all: eapply ctx_rel_close; try exact Hopen2; reflexivity.
Qed.
End DescribeSteps.
#[local] Hint Resolve steps_init_with : ctxdb.

Lemma steps_allocate fuel :
  forall conn param na,
    steps ctx_run (dpiObjectType__allocate fuel conn param na).
Proof.
  induction fuel as [|fuel IH]; intros conn param na.
  - apply steps_undefined.
  - cbn [dpiObjectType__allocate]. steps_go.
Qed.

Lemma wlp_handleFree_closes {B} n w0 w ht (k : M B) Q :
  ctx_rel [n] w0 w ->
  (forall w', ctx_run w0 w' -> wlp k Q w') ->
  wlp (dpiOci__handleFree (OciHandle n) ht ;; k) Q w.
Proof.
  intros Hrel Hk. pose proof (ctx_rel_live _ _ _ Hrel) as Hlive.
  wgo. rewrite decide_True by assumption. wgo.
  apply Hk. eapply ctx_rel_close; try exact Hrel; reflexivity.
Qed.

Lemma wlp_handleAlloc_opens {B} w0 w e ht (k : Z * ociPtr -> M B) Q :
  ctx_run w0 w ->
  (forall w', ctx_run w0 w' -> wlp (k (DPI_FAILURE, OciNull)) Q w') ->
  (forall w', ctx_rel [ctx_next w] w0 w' ->
              wlp (k (DPI_SUCCESS, OciHandle (ctx_next w))) Q w') ->
  wlp (bind (dpiOci__handleAlloc e ht) k) Q w.
Proof.
  intros Hrel Hfail Hok. apply wpx_bind. unfold dpiOci__handleAlloc.
  apply wpx_bind. unfold next_reply. apply wpx_bind. apply wpx_get.
  apply wpx_bind. apply wpx_modify. apply wpx_ret. cbv beta.
  destruct (rc (script w (clock w)) <? 0) eqn:R0.
  - apply wpx_bind. apply wpx_modify. apply wpx_bind.
    unfold dpiError__set. apply wpx_bind. apply wpx_modify.
    apply wpx_ret. apply wpx_ret. apply Hfail.
    eapply ctx_rel_trans; [exact Hrel|].
    eapply ctx_run_events; try reflexivity;
      wsimpl; rewrite <- ?app_assoc; reflexivity.
  - apply wpx_bind. apply wpx_get. apply wpx_bind. apply wpx_modify.
    apply wpx_bind. apply wpx_modify. apply wpx_ret. apply Hok.
    eapply (ctx_rel_open w0 w _ DPI_SUCCESS); try reflexivity.
    exact Hrel.
Qed.

(** A step that leaves the describe handles alone, in a run whose
    progress so far is recorded in [Hrel]. *)
Ltac rstep Hrel :=
  lazymatch goal with
  | |- wpx True (bind ?m _) _ ?w =>
      let Hs := fresh "Hs" in
      assert (Hs : steps ctx_run m) by steps_go;
      apply wpx_bind; eapply wpx_mono; [apply Hs|]; clear Hs;
      let a := fresh "a" in
      let w' := fresh "w" in
      let H := fresh "H" in
      intros a w' H; cbv beta in H |- *;
      apply (ctx_rel_trans _ _ _ _ Hrel) in H; clear Hrel; rename H into Hrel
  end.

Lemma getAttributes_loop_ctx (h : positive) (l : ociPtr) (n : nat) :
  forall (budget : nat) (i : Z) (arr : list (option positive))
         (w0 w : world),
    ctx_rel [n] w0 w ->
    wlp (getAttributes_loop budget i h l (OciHandle n) arr)
        (fun r w' => if fst r <? 0 then ctx_run w0 w'
                     else ctx_rel [n] w0 w') w.
Proof.
  induction budget as [|budget IH]; intros i arr w0 w Hrel.
  - exact I.
  - rewrite getAttributes_loop_S.
    rstep Hrel. destruct (i <? ot_numAttributes a).
    2:{ apply wpx_ret. exact Hrel. }
    rstep Hrel. destruct a0 as [st attrParam]. destruct (st <? 0).
    { apply wlp_handleFree_closes with (w0 := w0); [exact Hrel|].
      intros w' Hrun. apply wpx_ret. exact Hrun. }
    destruct (arr !! Z.to_nat i); [|exact I].
    rstep Hrel. destruct a0 as [st' a']. cbv zeta. destruct (st' <? 0).
    { apply wlp_handleFree_closes with (w0 := w0); [exact Hrel|].
      intros w' Hrun. apply wpx_ret. exact Hrun. }
    apply IH. exact Hrel.
Qed.

Lemma getAttributes_ctx (objType : option positive) (capacity : Z)
    (attributes : option (list (option positive))) :
  steps ctx_run (dpiObjectType_getAttributes objType capacity attributes).
Proof.
  intros w. pose proof (ctx_run_refl w) as Hrel.
  unfold dpiObjectType_getAttributes.
  rstep Hrel. destruct (a <? 0); [apply wpx_ret; exact Hrel|].
  rstep Hrel. destruct (a0 <? 0); [apply wpx_ret; exact Hrel|].
  destruct objType as [ot|]; [|exact I].
  destruct attributes as [arr|]; [|exact I].
  rstep Hrel. destruct (capacity <? ot_numAttributes a1).
  { rstep Hrel. apply wpx_ret. exact Hrel. }
  destruct (capacity =? 0); [apply wpx_ret; exact Hrel|].
  rstep Hrel.
  match goal with |- wpx _ _ _ ?x => rename x into wc end.
  apply wlp_handleAlloc_opens with (w0 := w); [exact Hrel| |].
  { intros w' Hrun. wsimpl. apply wpx_ret. exact Hrun. }
  clear Hrel. intros wo Hopen. wsimpl.
  rstep Hopen. rstep Hopen.
  match goal with |- context [?x <? 0] => destruct (x <? 0) end.
  { apply wlp_handleFree_closes with (w0 := w); [exact Hopen|].
    intros w' Hrun. apply wpx_ret. exact Hrun. }
  rstep Hopen. destruct a5 as [st v]. destruct (st <? 0).
  { apply wlp_handleFree_closes with (w0 := w); [exact Hopen|].
    intros w' Hrun. apply wpx_ret. exact Hrun. }
  rstep Hopen. destruct a5 as [st' v']. destruct (st' <? 0).
  { apply wlp_handleFree_closes with (w0 := w); [exact Hopen|].
    intros w' Hrun. apply wpx_ret. exact Hrun. }
  apply wpx_bind. eapply wpx_mono.
  { apply getAttributes_loop_ctx with (w0 := w). exact Hopen. }
  intros [st'' arr'] w' H. cbn [fst] in H. cbv beta iota.
  destruct (st'' <? 0).
  { apply wpx_ret. exact H. }
  apply wlp_handleFree_closes with (w0 := w); [exact H|].
  intros w'' Hrun. apply wpx_ret. exact Hrun.
Qed.

(** C2: every describe handle that [dpiObjectType__init] (with
    [dpiObjectType__describe] and the nested descriptions it starts),
    [dpiObjectType__allocate] or [dpiObjectType_getAttributes] allocates is
    freed exactly once before the function returns, whatever step of the
    environment fails: the handles freed during the run are, up to order,
    the handles allocated during the run, none is allocated twice, no free
    hits a handle that is not live, and the handles that were live before
    the call are live after it. *)
Theorem describe_handles_freed_once :
  (forall fuel objType param nameAttribute,
     steps ctx_run (dpiObjectType__init fuel objType param nameAttribute)) /\
  (forall fuel conn param nameAttribute,
     steps ctx_run (dpiObjectType__allocate fuel conn param nameAttribute)) /\
  (forall objType capacity attributes,
     steps ctx_run
       (dpiObjectType_getAttributes objType capacity attributes)).
Proof.
  split; [|split].
  - intros. unfold dpiObjectType__init. apply steps_init_with.
    intros. apply steps_allocate.
  - intros. apply steps_allocate.
  - apply getAttributes_ctx.
Qed.

(** ** [dpiObjectType__allocate]: what is built and what is torn down *)


(** The next answer of the environment decides the branch. *)
Ltac wreply :=
  match goal with
  | |- context [rc (script ?w ?c) <? 0] =>
      destruct (rc (script w c) <? 0) eqn:?
  end.

(** The statuses of the answers already examined. *)
Ltac wstatus :=
  unfold status_of;
  repeat match goal with
         | H : (rc ?r <? 0) = _ |- context [rc ?r <? 0] => rewrite H
         end;
  cbv iota.

(** Membership in a list that is given element by element. *)
Ltac wmember :=
  repeat first [apply list_elem_of_here | apply list_elem_of_further].

Section AllocateSpec.
Variable allocate : option positive -> ociPtr -> ociAttr
                    -> M (Z * option positive).
Variable c : positive.
Hypothesis allocate_spec :
  forall cb param na w,
    handles w !! c = Some cb -> body cb = PConn -> 1 <= refCount cb ->
    wlp (allocate (Some c) param na) (allocate_post c cb param na w) w.

Lemma init_with_spec (temp : positive) (param : ociPtr) (na : ociAttr)
    (w : world) (bt cb : dpiBaseType) (t : dpiObjectType) :
  handles w !! temp = Some bt ->
  body bt = PObjectType t ->
  ot_conn t = Some c ->
  ot_isCollection t = 0 ->
  ot_elementTypeInfo t = dpiDataTypeInfo_zero ->
  handles w !! c = Some cb -> body cb = PConn -> 1 <= refCount cb ->
  wlp (dpiObjectType__init_with allocate temp param na)
      (init_post c cb temp bt param na w) w.
Proof.
  intros Hbt Ht Hconn Hcoll Heti Hcb Hcn Hcc.
  assert (Htc : temp <> c) by (intros ->; congruence).
  assert (Hct : c <> temp) by congruence.
  destruct t as [tc ttdo tcode tsch tschl tnm tnml teti icoll natt].
  cbn in Hconn, Hcoll, Heti. subst tc icoll teti.
  destruct bt as [r e bd]. cbn in Ht. subst bd.
  cbn [refCount env body].
  unfold dpiObjectType__init_with, dpiObjectType__describe_with.
  repeat (wgo; try wreply).
  all: try solve
    [ unfold init_post; eexists;
      split; [wsimpl; rewrite <- ?app_assoc; reflexivity|];
      left; split; [reflexivity|]; split; [reflexivity|];
      eexists; split; [wsimpl; wmap; try eassumption; reflexivity|];
      split; [intros x Hx; wsimpl; wmap; reflexivity|];
      split; reflexivity ].
  match goal with
  | |- context [uint16 ?v =? DPI_SQLT_NCO] =>
      destruct (uint16 v =? DPI_SQLT_NCO) eqn:Ecoll;
      [apply Z.eqb_eq in Ecoll | apply Z.eqb_neq in Ecoll]
  end.
  2:{ (* not a collection *)
    wgo. unfold init_post. eexists.
    split; [wsimpl; rewrite <- ?app_assoc; reflexivity|].
    right. split; [reflexivity|]. eexists _, 0.
    split; [wsimpl; wmap; reflexivity|].
    split; [reflexivity|]. split; [lia|].
    split.
    { wsimpl. wmap. rewrite Hcb. unfold add_refs. f_equal.
      destruct cb; cbn; f_equal; lia. }
    split; [intros x y Hx1 Hx2 Hy; wsimpl; wmap; assumption|].
    split.
    { split; cbn; [intros E; congruence | intros _; split; reflexivity]. }
    wstatus. do 8 eexists. split; [reflexivity|]. cbn. auto. }
  wgo. wreply; wgo.
  { unfold init_post; eexists;
      split; [wsimpl; rewrite <- ?app_assoc; reflexivity|];
      left; split; [reflexivity|]; split; [reflexivity|];
      eexists; split; [wsimpl; wmap; try eassumption; reflexivity|];
      split; [intros x Hx; wsimpl; wmap; reflexivity|];
      split; reflexivity. }
  unfold dpiOracleType__populateTypeInfo_with.
  wgo. wreply; wgo.
  { unfold init_post; eexists;
      split; [wsimpl; rewrite <- ?app_assoc; reflexivity|];
      left; split; [reflexivity|]; split; [reflexivity|];
      eexists; split; [wsimpl; wmap; try eassumption; reflexivity|];
      split; [intros x Hx; wsimpl; wmap; reflexivity|];
      split; reflexivity. }
  match goal with
  | |- context [?v =? DPI_ORACLE_TYPE_OBJECT] =>
      destruct (v =? DPI_ORACLE_TYPE_OBJECT) eqn:Eobj;
      [apply Z.eqb_eq in Eobj | apply Z.eqb_neq in Eobj]
  end.
  2:{ (* a collection of values that are not objects *)
    wgo. unfold init_post. eexists.
    split; [wsimpl; rewrite <- ?app_assoc; reflexivity|].
    right. split; [reflexivity|]. eexists _, 0.
    split; [wsimpl; wmap; reflexivity|].
    split; [reflexivity|]. split; [lia|].
    split.
    { wsimpl. wmap. rewrite Hcb. unfold add_refs. f_equal.
      destruct cb; cbn; f_equal; lia. }
    split; [intros x y Hx1 Hx2 Hy; wsimpl; wmap; assumption|].
    wstatus. split.
    { split; cbn; [intros _ | intros E; congruence].
      split; [reflexivity|].
      do 3 eexists.
      split; [wmember|]. split; [wmember|]. split; [reflexivity|].
      split; [intros _; reflexivity | intros E; congruence]. }
    do 8 eexists. split; [reflexivity|]. cbn. auto. }
  (* a collection of objects: the element type is described *)
  wgo. wstatus.
  match goal with |- wpx _ _ _ ?x => set (wp0 := x) end.
  assert (Hp0c : handles wp0 !! c = Some cb)
    by (subst wp0; wsimpl; wmap; assumption).
  assert (Hp0o : forall x, x <> temp -> handles wp0 !! x = handles w !! x)
    by (intros x Hx; subst wp0; wsimpl; wmap; reflexivity).
  assert (Hp0t : exists t0,
             handles wp0 !! temp
             = Some {| refCount := r; env := e; body := PObjectType t0 |} /\
             ot_conn t0 = Some c /\ ot_isCollection t0 = 1 /\
             ot_typeCode t0 = DPI_SQLT_NCO /\
             ot_elementTypeInfo t0
             = {| oracleTypeNum := DPI_ORACLE_TYPE_OBJECT;
                  objectType := None |} /\
             forall p,
               init_order (Some c) param na w
                 (set_elementTypeInfo
                    (set_objectType p (ot_elementTypeInfo t0)) t0)
                 (drop (length (trace w)) (trace wp0))).
  { eexists. split; [subst wp0; wsimpl; wmap; reflexivity|].
    cbn. rewrite Eobj. repeat split; auto.
    intros p. subst wp0. wsimpl. rewrite <- ?app_assoc.
    rewrite drop_app_length.
    do 8 eexists. split; [reflexivity|]. cbn. auto. }
  destruct Hp0t as (t0 & Hp0t & Ht0c & Ht0i & Ht0k & Ht0e & Hord).
  assert (Hp0tr : exists pre,
             trace wp0 = trace w ++ pre /\
             count_events (is_inc c) pre = 0%nat /\
             count_events (is_dec c) pre = 0%nat /\
             (exists top v,
                EvAttrGet top DPI_OCI_DTYPE_PARAM
                  DPI_OCI_ATTR_COLLECTION_ELEMENT v DPI_SUCCESS ∈ pre /\
                EvTypeInfo (OciValue v) DPI_ORACLE_TYPE_OBJECT DPI_SUCCESS
                  ∈ pre)).
  { eexists. split; [subst wp0; wsimpl; rewrite <- ?app_assoc; reflexivity|].
    split; [reflexivity|]. split; [reflexivity|].
    rewrite <- Eobj. do 2 eexists. split; wmember. }
  destruct Hp0tr as (pre & Hp0tr & Hpi & Hpd & top & v & Hm1 & Hm2).
  rewrite Hp0tr, drop_app_length in Hord.
  eapply wpx_mono; [apply (allocate_spec cb); assumption|].
  clearbody wp0.
  intros [st p] wn (trn & Htrn & Hcase). cbn [fst snd] in Hcase.
  destruct Hcase as [(-> & -> & Hh & Hbal & _)
                    | (-> & tempn & tn & k & -> & Hfresh & Hln & Hcn'
                       & Hk & Hlc & Hframe & Hdesc & _)].
  - (* the nested description failed *)
    assert (Hnt : handles wn !! temp
                  = Some {| refCount := r; env := e;
                            body := PObjectType t0 |})
      by (rewrite Hh; exact Hp0t).
    wgo. case_decide; wgo.
    all: unfold init_post; eexists.
    all: split; [wsimpl; rewrite Htrn, Hp0tr, <- ?app_assoc; reflexivity|].
    all: left; split; [reflexivity|]; split;
      [unfold refs_balanced in *; rewrite !count_events_app; cbn; lia|].
    all: eexists; split; [wsimpl; wmap; reflexivity|].
    all: split;
      [intros x Hx; wsimpl; wmap; rewrite Hh; now apply Hp0o|].
    all: cbn; auto.
  - (* the nested description succeeded *)
    assert (Hnt : handles wn !! temp
                  = Some {| refCount := r; env := e;
                            body := PObjectType t0 |})
      by (apply Hframe; assumption).
    assert (Htn : tempn <> temp) by (intros ->; congruence).
    wgo. case_decide; wgo.
    all: unfold init_post; eexists.
    all: split; [wsimpl; rewrite Htrn, Hp0tr, <- ?app_assoc; reflexivity|].
    all: right; split; [reflexivity|]; eexists _, k.
    all: split; [wsimpl; wmap; reflexivity|].
    all: split; [cbn; assumption|]; split; [lia|].
    all: split; [wsimpl; wmap; assumption|].
    all: split;
      [ intros x y Hx1 Hx2 Hy; wsimpl; wmap;
        (apply Hframe; [assumption|]);
        rewrite Hp0o by assumption; assumption |].
    all: split;
      [| destruct (Hord (Some tempn))
           as (s1 & s2 & tdoRef & tdo & top' & tc & n & rest & E1 & E2);
         exists s1, s2, tdoRef, tdo, top', tc, n;
         eexists; split; [rewrite E1, <- !app_assoc; reflexivity|];
         exact E2 ].
    all: split; cbn; [intros _ | intros E; congruence].
    all: split; [assumption|].
    all: exists top, v, DPI_ORACLE_TYPE_OBJECT.
    all: split; [apply elem_of_app; left; exact Hm1|].
    all: split; [apply elem_of_app; left; exact Hm2|].
    all: split; [rewrite Ht0e; reflexivity|].
    all: split; [congruence|]; intros _.
    all: exists tempn; do 2 eexists.
    all: split; [reflexivity|].
    all: split; [rewrite <- Hp0o by assumption; assumption|].
    all: split; [wsimpl; wmap; exact Hln|reflexivity].
Qed.
End AllocateSpec.

(** The teardown of a descriptor that is being built: it has no element
    type yet, and its connection, if already recorded, is held by
    somebody else too. *)
Lemma objectType_free_partial (fuel : nat) (w : world) (temp : positive)
    (r e : Z) (t : dpiObjectType) :
  handles w !! temp
  = Some {| refCount := r; env := e; body := PObjectType t |} ->
  objectType (ot_elementTypeInfo t) = None ->
  (forall c, ot_conn t = Some c ->
     c <> temp /\ exists cb, handles w !! c = Some cb /\ 2 <= refCount cb) ->
  wp (dpiObjectType__free (S fuel) temp)
     (fun _ w' =>
        trace w'
        = trace w ++
          opt_event (fun c => EvSetRefCount c (-1) DPI_SUCCESS) (ot_conn t) ++
          opt_event EvFree (ot_schema t) ++ opt_event EvFree (ot_name t) ++
          [EvDeallocate temp] /\
        handles w'
        = delete temp
            (match ot_conn t with
             | Some c => alter (add_refs (-1)) c (handles w)
             | None => handles w
             end)) w.
Proof.
  intros Hb He Hc.
  destruct t as [tc ttdo tcode tsch tschl tnm tnml [etn eo] icoll natt].
  cbn in He, Hc. subst eo.
  cbn [ot_conn ot_schema ot_name].
  unfold dpiObjectType__free, dpiObjectType__free_with.
  destruct tc as [c|];
    [destruct (Hc c eq_refl) as (Hct & cb & Hcb & Hcc);
     assert (temp <> c) by congruence | ]; wgo.
  all: destruct tsch as [s|]; wgo;
    [destruct (strings _ !! s); wgo | ].
  all: destruct tnm as [n|]; wgo;
    [match goal with
     | |- context [?m !! n] => destruct (m !! n)
     end; wgo | ].
  all: cbn [opt_event]; rewrite <- ?app_assoc.
  all: split; [reflexivity|].
  all: apply map_eq; intros k;
    repeat first [rewrite lookup_insert | rewrite lookup_delete
                 | rewrite lookup_alter];
    repeat case_decide; subst; try congruence; try done.
  all: rewrite ?Hcb; reflexivity.
Qed.

Lemma described_weaken t tr tr0 w0 w w' :
  described t tr w w' ->
  (forall x, handles w !! x = None -> handles w0 !! x = None) ->
  described t (tr0 ++ tr) w0 w'.
Proof.
  intros [H1 H2] Hnone. split; [|exact H2].
  intros E. destruct (H1 E) as (Hc & top & v & tn & Ha & Hb & Hn & Hno & Ho).
  split; [exact Hc|]. exists top, v, tn.
  split; [apply elem_of_app; now right|].
  split; [apply elem_of_app; now right|].
  split; [exact Hn|]. split; [exact Hno|].
  intros Et. destruct (Ho Et) as (e & be & te & E1 & E2 & E3 & E4).
  exists e, be, te. auto.
Qed.

Lemma allocate_spec_ind (fuel : nat) :
  forall (c : positive) (cb : dpiBaseType) (param : ociPtr) (na : ociAttr)
         (w : world),
    handles w !! c = Some cb -> body cb = PConn -> 1 <= refCount cb ->
    wlp (dpiObjectType__allocate fuel (Some c) param na)
        (allocate_post c cb param na w) w.
Proof.
  induction fuel as [|fuel IH]; intros c cb param na w Hcb Hcn Hcc.
  - exact I.
  - cbn [dpiObjectType__allocate]. wgo. wreply; wgo.
    { (* no storage *)
      exists []. split; [now rewrite app_nil_r|]. left.
      repeat split; try reflexivity. now left. }
    set (temp := fresh (dom (handles w))).
    assert (Htemp : handles w !! temp = None)
      by (apply not_elem_of_dom, is_fresh).
    assert (Htc : temp <> c) by congruence.
    assert (Hct : c <> temp) by congruence.
    wgo. wreply; wgo.
    { (* the reference to the connection is refused *)
      eapply wpx_mono.
      { apply wp_wlp.
        eapply (objectType_free_partial fuel _ temp 1 (env cb)
                  dpiObjectType_zero).
        - wsimpl. wmap. reflexivity.
        - reflexivity.
        - intros c' E. discriminate. }
      intros [] w' [Htr Hh]. wgo. cbn in Htr, Hh.
      eexists. split; [rewrite Htr; wsimpl; rewrite <- ?app_assoc;
                       reflexivity|].
      left. split; [reflexivity|]. split; [reflexivity|].
      split; [rewrite Hh; wsimpl; now apply delete_insert_id|].
      split; [reflexivity|]. right. left. exists temp. reflexivity. }
    match goal with |- wpx _ _ _ ?x => set (wa := x) end.
    assert (Hwat : handles wa !! temp
                   = Some {| refCount := 1; env := env cb;
                             body := PObjectType
                                       (set_conn (Some c)
                                          dpiObjectType_zero) |})
      by (subst wa; wsimpl; wmap; reflexivity).
    assert (Hwac : handles wa !! c
                   = Some {| refCount := refCount cb + 1; env := env cb;
                             body := PConn |})
      by (subst wa; wsimpl; wmap; reflexivity).
    assert (Hwao : forall x, x <> temp -> x <> c ->
                             handles wa !! x = handles w !! x)
      by (intros x Hx1 Hx2; subst wa; wsimpl; wmap; reflexivity).
    assert (Hwatr : trace wa
                    = trace w ++ [EvAllocate DPI_HTYPE_OBJECT_TYPE temp;
                                  EvSetRefCount c 1 DPI_SUCCESS])
      by (subst wa; wsimpl; rewrite <- ?app_assoc; reflexivity).
    assert (Hwan : ctx_next wa = ctx_next w) by reflexivity.
    clearbody wa.
    eapply wpx_mono.
    { eapply (init_with_spec (dpiObjectType__allocate fuel) c (IH c)
                temp param na wa _ _ _ Hwat eq_refl eq_refl eq_refl eq_refl
                Hwac eq_refl).
      cbn. lia. }
    intros st wi (tri & Htri & Hcase). cbv beta.
    destruct Hcase as [(-> & Hbal & t & Hit & Hio & Htconn & Hteo)
                      | (-> & t & k & Hit & Htconn & Hk & Hic & Hframe
                         & Hdesc & Hord)]; wgo.
    + (* the initialization failed: the descriptor is torn down *)
      cbn [refCount env] in Hit.
      eapply wpx_mono.
      { apply wp_wlp.
        eapply (objectType_free_partial fuel wi temp 1 (env cb) t Hit Hteo).
        intros c' E. assert (c' = c) by congruence. subst c'.
        split; [assumption|]. eexists. split.
        - rewrite Hio by assumption. exact Hwac.
        - cbn. lia. }
      intros [] wf [Htrf Hhf]. wgo. rewrite Htconn in Htrf, Hhf.
      cbn [opt_event] in Htrf.
      eexists. split.
      { rewrite Htrf, Htri, Hwatr, <- ?app_assoc. cbn [app]. reflexivity. }
      left. split; [reflexivity|]. split; [reflexivity|].
      assert (Hpost : count_events (is_inc c)
                        (opt_event EvFree (ot_schema t) ++
                         opt_event EvFree (ot_name t) ++
                         [EvDeallocate temp]) = 0%nat /\
                      count_events (is_dec c)
                        (opt_event EvFree (ot_schema t) ++
                         opt_event EvFree (ot_name t) ++
                         [EvDeallocate temp]) = 0%nat)
        by (destruct (ot_schema t), (ot_name t); split; reflexivity).
      destruct Hpost as [Hpi Hpd].
      split.
      { rewrite Hhf. apply map_eq. intros x.
        rewrite lookup_delete, lookup_alter.
        repeat case_decide; subst; try congruence.
        - rewrite Hio, Hwac, Hcb by assumption. cbn. f_equal.
          unfold add_refs. destruct cb; cbn in *. subst. f_equal. lia.
        - rewrite Hio by congruence. apply Hwao; congruence. }
      split.
      { unfold refs_balanced in *. cbn [count_events is_inc is_dec].
        rewrite !count_events_app. cbn [count_events is_inc is_dec].
        rewrite Hpi, Hpd, Hbal. rewrite !bool_decide_eq_true_2 by reflexivity.
        cbn. lia. }
      right. right. exists temp, tri. eexists.
      split; [reflexivity|]. split; [assumption|]. split; assumption.
    + (* the descriptor is built *)
      cbn [refCount env] in Hit.
      exists ([EvAllocate DPI_HTYPE_OBJECT_TYPE temp;
               EvSetRefCount c 1 DPI_SUCCESS] ++ tri).
      split; [rewrite Htri, Hwatr, <- ?app_assoc; reflexivity|].
      right. split; [reflexivity|]. exists temp, t, (1 + k).
      split; [reflexivity|]. split; [assumption|]. split; [assumption|].
      split; [assumption|]. split; [lia|].
      split.
      { rewrite Hic. f_equal. unfold add_refs. cbn. rewrite Hcn.
        f_equal. lia. }
      split.
      { intros x y Hx Hy. assert (x <> temp) by congruence.
        apply Hframe; try assumption. now rewrite Hwao. }
      split.
      { eapply described_weaken; [exact Hdesc|].
        intros x Hx. destruct (decide (x = temp)) as [->|Hx1]; [assumption|].
        destruct (decide (x = c)) as [->|Hx2]; [congruence|].
        now rewrite <- Hwao. }
      exists tri. split; [reflexivity|].
      unfold init_order in *. rewrite <- Hwan. exact Hord.
Qed.

(** C10: whenever [dpiObjectType__allocate] fails, the pointer it hands
    back is [NULL] and the registry is what it was before the call, so the
    reference count of the connection is unchanged.  The events of the run
    have one of three shapes: no storage was obtained and nothing was
    done; the reference to the connection was refused, and the new storage
    was freed without any release of the connection; the reference was
    taken and the initialization failed, and the teardown gave the
    reference back with exactly one decrement (the references taken and
    given back in between, by nested descriptors, are balanced).  The
    pointer is set only by a run that succeeds. *)
Theorem allocate_failure_restores (fuel : nat) (c : positive)
    (cb : dpiBaseType) (param : ociPtr) (na : ociAttr) (w : world) :
  handles w !! c = Some cb ->
  body cb = PConn ->
  1 <= refCount cb ->
  wlp (dpiObjectType__allocate fuel (Some c) param na)
      (fun r w' =>
         (fst r = DPI_SUCCESS \/ fst r = DPI_FAILURE) /\
         (snd r <> None -> fst r = DPI_SUCCESS) /\
         (fst r = DPI_FAILURE ->
          snd r = None /\
          handles w' = handles w /\
          handles w' !! c = Some cb /\
          refs_balanced c (new_events w w') /\
          allocate_failure c (new_events w w'))) w.
Proof.
  intros Hc Hb Hk.
  eapply wpx_mono; [apply (allocate_spec_ind fuel c cb param na w Hc Hb Hk)|].
  intros r w' (tr & Htr & [(Hf & Hn & Hh & Hbal & Hsh)
                          | (Hs & temp & t & k & Hr & _)]).
  - rewrite (new_events_app _ _ _ Htr).
    split; [now right|]. split; [congruence|]. intros _.
    repeat split; try assumption. now rewrite Hh.
  - split; [now left|]. split; [auto|].
    rewrite Hs. discriminate.
Qed.

Lemma allocate_failure_restores_witness :
  let w := example_world 0 (script_of [reply_ok 0; reply_ok 0; reply_fail]) in
  exists r w',
    dpiObjectType__allocate 3 (Some 1%positive) (OciValue 40)
      DPI_OCI_ATTR_TYPE_NAME w = Some (r, w') /\
    fst r = DPI_FAILURE /\ snd r = None /\
    handles w' = handles w /\
    allocate_failure 1 (new_events w w').
Proof.
  intros w.
  destruct (wlp_returns _ _ _
              (allocate_failure_restores 3 1
                 {| refCount := 2; env := 7; body := PConn |}
                 (OciValue 40) DPI_OCI_ATTR_TYPE_NAME w
                 eq_refl eq_refl ltac:(simpl; lia)))
    as ([st p] & w' & E & _ & _ & H).
  { vm_compute. eexists. reflexivity. }
  assert (Hst : st = DPI_FAILURE).
  { apply (f_equal status_of_run) in E. vm_compute in E. now subst st. }
  exists (st, p), w'. split; [exact E|]. split; [exact Hst|].
  destruct (H Hst) as (H1 & H2 & _ & _ & H3). auto.
Defined.



(** C9: every successful run of [dpiObjectType__allocate] begins, after
    the allocation of the descriptor and the reference to the connection,
    with these calls in this order: the schema and the name are read from
    the caller's parameter, the reference to the type definition is read
    from it and pinned, a describe handle is allocated (the one the
    library gives out next, which it has never given out before), the
    pinned definition is described through that handle, the top-level
    parameter of that describe is read from the handle, and the type code
    and the number of attributes are read from that parameter.  The
    descriptor holds the pinned definition and the two values read this
    way. *)
Theorem describe_follows_pin (fuel : nat) (c : positive)
    (cb : dpiBaseType) (param : ociPtr) (na : ociAttr) (w : world) :
  handles w !! c = Some cb ->
  body cb = PConn ->
  1 <= refCount cb ->
  wlp (dpiObjectType__allocate fuel (Some c) param na)
      (fun r w' =>
         fst r = DPI_SUCCESS ->
         exists temp t tri,
           snd r = Some temp /\
           handles w' !! temp
           = Some {| refCount := 1; env := env cb;
                     body := PObjectType t |} /\
           new_events w w'
           = [EvAllocate DPI_HTYPE_OBJECT_TYPE temp;
              EvSetRefCount c 1 DPI_SUCCESS] ++ tri /\
           init_order (Some c) param na w t tri /\
           (ctx_next w < ctx_next w')%nat) w.
Proof.
  intros Hc Hb Hk.
  pose proof (steps_allocate fuel (Some c) param na w) as Hctx.
  unfold wpx in *.
  pose proof (allocate_spec_ind fuel c cb param na w Hc Hb Hk) as Hspec.
  unfold wpx in Hspec.
  destruct (dpiObjectType__allocate fuel (Some c) param na w)
    as [[r w']|]; [|exact I].
  destruct Hspec as (tr & Htr & [(Hf & _)
                          | (_ & temp & t & k & Hr & Hfresh & Ht & _ & _ & _
                             & _ & Hdesc & tri & Htri & Hord)]).
  - intros Hs. rewrite Hs in Hf. discriminate.
  - intros _. rewrite (new_events_app _ _ _ Htr).
    exists temp, t, tri.
    split; [assumption|]. split; [assumption|]. split; [assumption|].
    split; [assumption|].
    destruct Hctx as (_ & _ & _ & tr' & Htr' & _ & _ & Hrange).
    rewrite Htr in Htr'. apply app_inv_head in Htr'. subst tr'.
    destruct Hord as (s1 & s2 & tdoRef & tdo & top & tc & n & rest & E & _).
    destruct (Hrange (OciHandle (ctx_next w))) as (m & Em & Hm).
    { rewrite Htri, E. unfold init_events. cbn. left. }
    injection Em as <-. lia.
Qed.

Lemma describe_follows_pin_witness :
  let w := example_world 0 (script_of (describe_replies 108 2)) in
  exists temp t tri w',
    dpiObjectType__allocate 3 (Some 1%positive) (OciValue 40)
      DPI_OCI_ATTR_TYPE_NAME w = Some (DPI_SUCCESS, Some temp, w') /\
    new_events w w'
    = [EvAllocate DPI_HTYPE_OBJECT_TYPE temp;
       EvSetRefCount 1 1 DPI_SUCCESS] ++ tri /\
    init_order (Some 1%positive) (OciValue 40) DPI_OCI_ATTR_TYPE_NAME w t
      tri.
Proof.
  intros w.
  destruct (wlp_returns _ _ _
              (describe_follows_pin 3 1
                 {| refCount := 2; env := 7; body := PConn |}
                 (OciValue 40) DPI_OCI_ATTR_TYPE_NAME w
                 eq_refl eq_refl ltac:(simpl; lia)))
    as ([st p] & w' & E & H).
  { vm_compute. eexists. reflexivity. }
  assert (Hst : st = DPI_SUCCESS).
  { apply (f_equal status_of_run) in E. vm_compute in E. now subst st. }
  destruct (H Hst) as (temp & t & tri & Hp & _ & Htr & Hord & _).
  cbn in Hp. subst st p.
  exists temp, t, tri, w'. auto.
Defined.

(** * Beyond the claims: storage accounting and the behaviour at the edges *)

(** ** What a describe allocates, and what its teardown gives back *)

Ltac wfresh :=
  repeat match goal with
         | |- context [fresh (dom ?m)] =>
             let s := fresh "s" in
             let H := fresh "Hs" in
             pose proof (is_fresh (dom m)) as H;
             apply not_elem_of_dom in H;
             set (s := fresh (dom m)) in *; clearbody s
         end;
  repeat match goal with
         | H : <[_ := _]> _ !! _ = None |- _ =>
             apply lookup_insert_None in H as [H ?]
         end.

Ltac wnodup :=
  repeat (apply NoDup_cons_2;
          [ repeat (apply not_elem_of_cons; split; [congruence|]);
            apply not_elem_of_nil |]);
  apply NoDup_nil_2.

Ltac wowned_in :=
  let s := fresh "s" in
  let H := fresh "H" in
  intros s H;
  repeat (apply elem_of_cons in H as [->|H]);
  [ .. | now apply elem_of_nil in H ];
  (split; [assumption | wsimpl; wmap; eexists; reflexivity]).

Ltac wowned_out :=
  let s := fresh "s" in
  let H := fresh "H" in
  intros s H;
  repeat (apply not_elem_of_cons in H as [? H]);
  wsimpl; wmap; reflexivity.

Ltac init_fail :=
  unfold init_storage_post; split; [reflexivity|];
  left; split; [reflexivity|];
  eexists; split; [wsimpl; wmap; try eassumption; reflexivity|];
  split; [intros ? ?; wsimpl; wmap; reflexivity|];
  split; [reflexivity|]; split; [reflexivity|];
  unfold owned; wsimpl; cbn [opt_list app]; wfresh;
  split; [wnodup|]; split; [wowned_in | wowned_out].

Ltac init_flat Hcb :=
  unfold init_storage_post; split; [reflexivity|];
  right; split; [reflexivity|];
  eexists _, []; split; [wsimpl; wmap; reflexivity|];
  split; [cbn; lia|];
  unfold built, owned_all, owned; wsimpl;
  cbn [opt_list app flat_map length fmap list_fmap Z.of_nat]; wfresh;
  split;
    [ wmap; rewrite Hcb; unfold add_refs; f_equal;
      match goal with |- ?b = _ => destruct b end; cbn; f_equal; lia |];
  split; [split; [reflexivity|]; split; [reflexivity | intros ? [=]] |];
  split; [wnodup|]; split; [wnodup|];
  split; [intros ? Hx; now apply elem_of_nil in Hx|];
  split; [wowned_in|];
  split;
    [ intros ? ? Hx; apply not_elem_of_cons in Hx as [? _]; wmap;
      reflexivity
    | wowned_out ].

Section AllocateStorage.
Variable allocate : option positive -> ociPtr -> ociAttr
                    -> M (Z * option positive).
Variable c : positive.
Variable n : nat.
Hypothesis allocate_storage :
  forall cb param na w,
    handles w !! c = Some cb -> body cb = PConn -> 1 <= refCount cb ->
    wlp (allocate (Some c) param na) (allocate_storage_post n c cb w) w.

Lemma init_with_storage (temp : positive) (param : ociPtr) (na : ociAttr)
    (w : world) (bt cb : dpiBaseType) (t : dpiObjectType) :
  handles w !! temp = Some bt ->
  body bt = PObjectType t ->
  ot_conn t = Some c ->
  ot_schema t = None -> ot_name t = None ->
  ot_elementTypeInfo t = dpiDataTypeInfo_zero ->
  handles w !! c = Some cb -> body cb = PConn -> 1 <= refCount cb ->
  wlp (dpiObjectType__init_with allocate temp param na)
      (init_storage_post n c cb temp bt w) w.
Proof.
  intros Hbt Ht Hconn Hsch Hnm Heti Hcb Hcn Hcc.
  assert (Htc : temp <> c) by (intros ->; congruence).
  assert (Hct : c <> temp) by congruence.
  destruct t as [tc ttdo tcode tsch tschl tnm tnml teti icoll natt].
  cbn in Hconn, Hsch, Hnm, Heti. subst tc tsch tnm teti.
  destruct bt as [r e bd]. cbn in Ht. subst bd.
  cbn [refCount env body].
  unfold dpiObjectType__init_with, dpiObjectType__describe_with.
  repeat (wgo; try wreply).
  all: try solve [init_fail].
  match goal with
  | |- context [uint16 ?v =? DPI_SQLT_NCO] =>
      destruct (uint16 v =? DPI_SQLT_NCO) eqn:Ecoll;
      [apply Z.eqb_eq in Ecoll | apply Z.eqb_neq in Ecoll]
  end.
  2:{ wgo. init_flat Hcb. }
  wgo. wreply; wgo; [init_fail|].
  unfold dpiOracleType__populateTypeInfo_with.
  wgo. wreply; wgo; [init_fail|].
  match goal with
  | |- context [?v =? DPI_ORACLE_TYPE_OBJECT] =>
      destruct (v =? DPI_ORACLE_TYPE_OBJECT) eqn:Eobj;
      [apply Z.eqb_eq in Eobj | apply Z.eqb_neq in Eobj]
  end.
  2:{ wgo. init_flat Hcb. }
  wgo. wstatus. wfresh.
  match goal with |- wpx _ _ _ ?x => set (wp0 := x) end.
  assert (Hp0c : handles wp0 !! c = Some cb)
    by (subst wp0; wsimpl; wmap; assumption).
  assert (Hp0o : forall x, x <> temp -> handles wp0 !! x = handles w !! x)
    by (intros x Hx; subst wp0; wsimpl; wmap; reflexivity).
  assert (Hp0m : mem_faults wp0 = mem_faults w) by reflexivity.
  assert (Hp0s : is_Some (strings wp0 !! s) /\ is_Some (strings wp0 !! s0) /\
                 forall x, x <> s -> x <> s0 ->
                           strings wp0 !! x = strings w !! x).
  { subst wp0; wsimpl. wmap.
    split; [eexists; reflexivity|]. split; [eexists; reflexivity|].
    intros x ? ?. wmap. reflexivity. }
  destruct Hp0s as (Hp0s1 & Hp0s2 & Hp0s).
  assert (Hp0t : exists t0,
             handles wp0 !! temp
             = Some {| refCount := r; env := e; body := PObjectType t0 |} /\
             ot_conn t0 = Some c /\
             ot_schema t0 = Some s0 /\ ot_name t0 = Some s /\
             objectType (ot_elementTypeInfo t0) = None).
  { eexists. split; [subst wp0; wsimpl; wmap; reflexivity|].
    cbn. auto. }
  destruct Hp0t as (t0 & Hp0t & Ht0c & Ht0s & Ht0n & Ht0e).
  eapply wpx_mono; [apply (allocate_storage cb); assumption|].
  clearbody wp0.
  intros [st p] wn (Hm & Hcase). cbn [fst snd] in Hcase.
  destruct Hcase as [(-> & -> & Hh & Hss)
                    | (-> & tempn & tn & esn & -> & Hfresh & Hln & Hlen
                       & Hbc & Hbn & Hbd & Hbsd & Hbf & Hbs & Hbfr & Hbsf)].
  - assert (Hnt : handles wn !! temp
                  = Some {| refCount := r; env := e;
                            body := PObjectType t0 |})
      by (rewrite Hh; exact Hp0t).
    wgo. case_decide; wgo.
    all: unfold init_storage_post; split; [wsimpl; congruence|].
    all: left; split; [reflexivity|].
    all: eexists; split; [wsimpl; wmap; reflexivity|].
    all: split; [intros x Hx; wsimpl; wmap; rewrite Hh; now apply Hp0o|].
    all: split; [exact Ht0c|]; split; [reflexivity|].
    all: unfold owned; wsimpl; rewrite Ht0s, Ht0n; cbn [opt_list app].
    all: split; [wnodup|].
    all: rewrite Hss.
    all: split;
      [ intros x Hx; repeat (apply elem_of_cons in Hx as [->|Hx]);
        [ .. | now apply elem_of_nil in Hx ]; split; assumption
      | intros x Hx; repeat (apply not_elem_of_cons in Hx as [? Hx]);
        now apply Hp0s ].
  - assert (Htn : tempn <> temp) by (intros ->; congruence).
    assert (Hcn' : c <> tempn) by (intros ->; congruence).
    assert (Hte : temp ∉ esn.*1)
      by (intros Hin; apply Hbf in Hin; congruence).
    assert (Hce : c ∉ esn.*1)
      by (intros Hin; apply Hbf in Hin; congruence).
    assert (Hnt : handles wn !! temp
                  = Some {| refCount := r; env := e;
                            body := PObjectType t0 |}).
    { rewrite Hbfr; [exact Hp0t | assumption |].
      apply not_elem_of_cons. split; [congruence | assumption]. }
    assert (Hso : forall x, x ∈ owned_all tn esn -> x <> s /\ x <> s0).
    { intros x Hx. destruct (Hbs x Hx) as [Hnone _].
      split; intros ->.
      - destruct Hp0s1 as [? E]. congruence.
      - destruct Hp0s2 as [? E]. congruence. }
    wgo. case_decide; wgo.
    all: unfold init_storage_post; split; [wsimpl; congruence|].
    all: right; split; [reflexivity|].
    all: eexists _, ((tempn, tn) :: esn).
    all: split; [wsimpl; wmap; reflexivity|].
    all: split; [cbn [length]; lia|].
    all: unfold built; wsimpl.
    all: match goal with
         | |- context [owned_all ?T (?p :: ?l)] =>
             replace (owned_all T (p :: l))
               with (s0 :: s :: owned_all tn esn)
               by (unfold owned_all, owned; cbn; rewrite Ht0s, Ht0n;
                   reflexivity)
         end.
    all: cbn [length fmap list_fmap fst].
    all: split;
      [ wmap; rewrite Hbc; unfold add_refs; cbn; do 2 f_equal; lia |].
    all: split.
    1,3: split; [exact Ht0c|]; split; [reflexivity|]; split;
      [ exists {| refCount := 1; env := env cb; body := PObjectType tn |};
        split; [wsimpl; wmap; exact Hln | split; reflexivity]
      | eapply nested_frame; [|exact Hbn];
        intros x Hx; rewrite app_nil_r in Hx; wsimpl;
        apply lookup_insert_ne; intros ->; contradiction ].
    all: split;
      [ apply NoDup_cons_2; [|exact Hbd];
        apply not_elem_of_cons; split; [congruence | assumption] |].
    all: split;
      [ apply NoDup_cons_2;
        [ apply not_elem_of_cons; split; [assumption|];
          intros Hin; apply Hso in Hin; tauto |];
        apply NoDup_cons_2; [|exact Hbsd];
        intros Hin; apply Hso in Hin; tauto |].
    all: split;
      [ intros x Hx; apply elem_of_cons in Hx as [->|Hx];
        [ rewrite <- Hp0o by assumption; exact Hfresh
        | rewrite <- Hp0o by (intros ->; contradiction); now apply Hbf ] |].
    all: split;
      [ intros x Hx; apply elem_of_cons in Hx as [->|Hx];
        [ split; [assumption|]; rewrite Hbsf; [assumption|];
          intros Hin; apply Hso in Hin; tauto |];
        apply elem_of_cons in Hx as [->|Hx];
        [ split; [assumption|]; rewrite Hbsf; [assumption|];
          intros Hin; apply Hso in Hin; tauto |];
        destruct (Hbs x Hx) as [Hnone Hlive];
        destruct (Hso x Hx) as [? ?];
        split; [rewrite <- Hp0s by assumption; exact Hnone | exact Hlive] |].
    all: split;
      [ intros x Hxc Hx; apply not_elem_of_cons in Hx as [? Hx];
        rewrite lookup_insert_ne by congruence;
        rewrite Hbfr by assumption; now apply Hp0o
      | intros x Hx; apply not_elem_of_cons in Hx as [? Hx];
        apply not_elem_of_cons in Hx as [? Hx];
        rewrite Hbsf by assumption; apply Hp0s; congruence ].
Qed.
End AllocateStorage.

Lemma objectType_free_zero (fuel : nat) (w : world) (temp : positive)
    (r e : Z) :
  handles w !! temp
  = Some {| refCount := r; env := e;
            body := PObjectType dpiObjectType_zero |} ->
  wp (dpiObjectType__free fuel temp)
     (fun _ w' =>
        handles w' = delete temp (handles w) /\ strings w' = strings w /\
        mem_faults w' = mem_faults w) w.
Proof.
  intros Hb. unfold dpiObjectType__free, dpiObjectType__free_with.
  wgo. auto.
Qed.

Lemma allocate_storage_ind (fuel : nat) :
  forall (c : positive) (cb : dpiBaseType) (param : ociPtr) (na : ociAttr)
         (w : world),
    handles w !! c = Some cb -> body cb = PConn -> 1 <= refCount cb ->
    wlp (dpiObjectType__allocate fuel (Some c) param na)
        (allocate_storage_post fuel c cb w) w.
Proof.
  induction fuel as [|fuel IH]; intros c cb param na w Hcb Hcn Hcc.
  - exact I.
  - cbn [dpiObjectType__allocate]. wgo. wreply; wgo.
    { split; [reflexivity|]. left. auto. }
    set (temp := fresh (dom (handles w))).
    assert (Htemp : handles w !! temp = None)
      by (apply not_elem_of_dom, is_fresh).
    assert (Htc : temp <> c) by congruence.
    assert (Hct : c <> temp) by congruence.
    wgo. wreply; wgo.
    { eapply wpx_mono.
      { apply wp_wlp.
        eapply (objectType_free_zero (S fuel) _ temp 1 (env cb)).
        wsimpl. wmap. reflexivity. }
      intros [] w' (Hh & Hs & Hm). wgo.
      split; [exact Hm|]. left.
      split; [reflexivity|]. split; [reflexivity|].
      split; [rewrite Hh; wsimpl; now apply delete_insert_id | exact Hs]. }
    match goal with |- wpx _ _ _ ?x => set (wa := x) end.
    assert (Hwat : handles wa !! temp
                   = Some {| refCount := 1; env := env cb;
                             body := PObjectType
                                       (set_conn (Some c)
                                          dpiObjectType_zero) |})
      by (subst wa; wsimpl; wmap; reflexivity).
    assert (Hwac : handles wa !! c
                   = Some {| refCount := refCount cb + 1; env := env cb;
                             body := PConn |})
      by (subst wa; wsimpl; wmap; reflexivity).
    assert (Hwao : forall x, x <> temp -> x <> c ->
                             handles wa !! x = handles w !! x)
      by (intros x Hx1 Hx2; subst wa; wsimpl; wmap; reflexivity).
    assert (Hwas : strings wa = strings w) by reflexivity.
    assert (Hwam : mem_faults wa = mem_faults w) by reflexivity.
    clearbody wa.
    eapply wpx_mono.
    { eapply (init_with_storage (dpiObjectType__allocate fuel) c fuel (IH c)
                temp param na wa _ _ _ Hwat eq_refl eq_refl eq_refl eq_refl
                eq_refl Hwac eq_refl).
      cbn. lia. }
    intros st wi (Hmi & Hcase). cbv beta.
    destruct Hcase as [(-> & t & Hit & Hio & Htconn & Hteo & Hnd & Hsin
                        & Hsout)
                      | (-> & t & es & Hit & Hlen & Hbc & Hbn & Hbd & Hbsd
                         & Hbf & Hbs & Hbfr & Hbsf)]; wgo.
    + cbn [refCount env] in Hit.
      eapply wpx_mono.
      { apply wp_wlp.
        eapply (free_chain_spec [] fuel wi temp _ t c _ None Hit eq_refl).
        - split; [rewrite Hio by assumption; exact Hwac|].
          split; [reflexivity|]. split; [cbn; lia|].
          split; [split; [assumption|]; split; [assumption | intros ? [=]]|].
          split; [cbn; apply NoDup_singleton|].
          unfold owned_all. cbn [flat_map]. rewrite app_nil_r.
          split; [assumption|]. intros s Hs. now apply Hsin.
        - cbn. lia. }
      intros [] wf (_ & Hdel & Hcf & _ & Hfr & Hs1 & Hs2 & Hmf & _). wgo.
      unfold owned_all in Hs1, Hs2. cbn [flat_map] in Hs1, Hs2.
      rewrite app_nil_r in Hs1, Hs2.
      split; [congruence|]. left.
      split; [reflexivity|]. split; [reflexivity|]. split.
      * apply map_eq. intros x.
        destruct (decide (x = temp)) as [->|Hx1].
        { rewrite Htemp. apply Hdel. cbn. apply list_elem_of_here. }
        destruct (decide (x = c)) as [->|Hx2].
        { rewrite Hcf, Hcb. cbn.
          destruct (_ =? _) eqn:E; [apply Z.eqb_eq in E; cbn in E; lia|].
          f_equal. unfold add_refs. destruct cb; cbn in *. subst.
          f_equal. lia. }
        rewrite Hfr; [| assumption | cbn; set_solver].
        rewrite Hio by assumption. now apply Hwao.
      * apply map_eq. intros s. rewrite <- Hwas.
        destruct (decide (s ∈ owned t)) as [Hin|Hout].
        { rewrite Hs1 by assumption. symmetry. now apply Hsin. }
        rewrite Hs2 by assumption. now apply Hsout.
    + cbn [refCount env] in Hit.
      split; [congruence|]. right.
      split; [reflexivity|]. exists temp, t, es.
      split; [reflexivity|]. split; [assumption|]. split; [assumption|].
      split; [lia|].
      assert (Hes : forall x, x ∈ es.*1 -> x <> temp /\ x <> c).
      { intros x Hx. apply Hbf in Hx. split; intros ->; congruence. }
      split.
      { rewrite Hbc. unfold add_refs. cbn. rewrite Hcn. reflexivity. }
      split; [assumption|]. split; [assumption|]. split; [assumption|].
      split.
      { intros x Hx. destruct (Hes x Hx). rewrite <- Hwao by assumption.
        now apply Hbf. }
      split.
      { intros s Hs. rewrite <- Hwas. now apply Hbs. }
      split.
      { intros x Hxc Hx. rewrite Hbfr by assumption.
        apply Hwao; [|assumption].
        intros ->. apply Hx. apply list_elem_of_here. }
      intros s Hs. rewrite <- Hwas. now apply Hbsf.
Qed.

Lemma release_last_spec (fuel : nat) (w : world) (h : positive)
    (bo : dpiBaseType) (t : dpiObjectType) (c : positive)
    (cb : dpiBaseType) (es : list (positive * dpiObjectType))
    (sh : option positive) :
  handles w !! h = Some bo ->
  body bo = PObjectType t ->
  freeable w h t c cb es sh ->
  (length es <= fuel)%nat ->
  refCount bo = 1 ->
  wp (dpiObjectType_release (S (S fuel)) (Some h))
     (fun st w' =>
        st = DPI_SUCCESS /\
        free_post w h c cb t es sh [EvSetRefCount h (-1) DPI_SUCCESS] w') w.
Proof.
  intros Hb Ht Hfr Hfuel Hone.
  assert (Hhc : h <> c).
  { destruct Hfr as (Hcb & Hcn & _). intros ->. congruence. }
  unfold dpiObjectType_release, dpiGen__release.
  wgo. rewrite decide_True by (eapply typeNum_objType; eassumption).
  wgo.
  match goal with |- wpx _ _ _ ?x => set (w1 := x) end.
  fold (dpiObjectType__free (S fuel) h).
  eapply wpx_mono.
  { eapply (free_chain_spec es fuel w1 h _ t c cb sh).
    - subst w1; wsimpl. apply lookup_insert_eq.
    - reflexivity.
    - eapply freeable_frame; try eassumption; reflexivity.
    - exact Hfuel. }
  intros [] w' (Htr & Hdel & Hc' & Hsh & Hframe & Hs1 & Hs2 & Hm & Hcl). wgo.
  assert (Hw1 : forall x, x <> h -> handles w1 !! x = handles w !! x)
    by (intros x Hx; subst w1; wsimpl; now rewrite lookup_insert_ne).
  destruct Hfr as (Hcb & Hcn & Hcc & Hnest & Hnd & Hsd & Hsl).
  split; [reflexivity|].
  split; [rewrite Htr; subst w1; wsimpl; now rewrite <- !app_assoc|].
  split; [exact Hdel|]. split; [exact Hc'|].
  split.
  { intros e eb -> He. apply Hsh; [reflexivity|].
    rewrite Hw1; [exact He|]. intros ->.
    apply NoDup_cons_1_1 in Hnd. set_solver. }
  split.
  { intros x Hxc Hx. rewrite Hframe by assumption. apply Hw1.
    intros ->. set_solver. }
  repeat split; assumption.
Qed.

Lemma steps_release fuel p : steps ctx_run (dpiObjectType_release fuel p).
Proof.
  unfold dpiObjectType_release, dpiGen__release. steps_go.
Qed.

Lemma steps_describe_then_release fuel conn param na :
  steps ctx_run (describe_then_release fuel conn param na).
Proof.
  unfold describe_then_release.
  apply (steps_bind ctx_run ctx_run_trans); [apply steps_allocate|].
  intros [st p]. destruct (st <? 0).
  - apply (steps_ret ctx_run ctx_run_refl).
  - apply steps_release.
Qed.

Lemma nested_conn w c t es sh : nested w c t es sh -> ot_conn t = Some c.
Proof. destruct es as [|[e te] es]; now intros [Hc _]. Qed.

Lemma nested_members w c t es sh :
  nested w c t es sh ->
  forall e te, (e, te) ∈ es ->
    exists eb, handles w !! e = Some eb /\ body eb = PObjectType te /\
               refCount eb = 1 /\ ot_conn te = Some c.
Proof.
  revert t. induction es as [|[e0 te0] es IH]; intros t [_ Hn] e te Hin.
  - now apply elem_of_nil in Hin.
  - destruct Hn as (_ & (eb & H1 & H2 & H3) & Hn).
    apply elem_of_cons in Hin. destruct Hin as [Heq | Hin2].
    + inversion Heq; subst. exists eb.
      pose proof (nested_conn _ _ _ _ _ Hn). auto.
    + eapply IH; eassumption.
Qed.

(** X1: whenever [dpiObjectType__allocate] returns a failure, whatever
    step failed and however deep in the element types, the registry, the
    string buffers and the live describe handles are what they were before
    the call, and nothing was freed that was not live: every descriptor
    and every name or schema string the run had created is gone again. *)
Theorem allocate_failure_leaks_nothing (fuel : nat) (c : positive)
    (cb : dpiBaseType) (param : ociPtr) (na : ociAttr) (w : world) :
  handles w !! c = Some cb ->
  body cb = PConn ->
  1 <= refCount cb ->
  wlp (dpiObjectType__allocate fuel (Some c) param na)
      (fun r w' => fst r = DPI_FAILURE -> same_store w w') w.
Proof.
  intros Hcb Hcn Hcc.
  pose proof (allocate_storage_ind fuel c cb param na w Hcb Hcn Hcc) as H1.
  pose proof (steps_allocate fuel (Some c) param na w) as H2.
  unfold wpx in *.
  destruct (dpiObjectType__allocate fuel (Some c) param na w)
    as [[r w']|]; [|exact I].
  intros Hf. destruct H1 as (Hm & [(_ & _ & Hh & Hs) | (Hs & _)]).
  2:{ rewrite Hs in Hf. discriminate. }
  destruct H2 as (Hl & Hcf & _).
  repeat split; assumption.
Qed.

Lemma allocate_failure_leaks_nothing_witness :
  let w := example_world 0
             (script_of (describe_replies 122 0
                           ++ [reply_ok 44; reply_ok DPI_ORACLE_TYPE_OBJECT;
                               reply_ok 0; reply_ok 0; reply_ok 0;
                               reply_fail])) in
  exists r w',
    dpiObjectType__allocate 4 (Some 1%positive) (OciValue 40)
      DPI_OCI_ATTR_TYPE_NAME w = Some (r, w') /\
    fst r = DPI_FAILURE /\ same_store w w'.
Proof.
  intros w.
  destruct (wlp_returns _ _ _
              (allocate_failure_leaks_nothing 4 1
                 {| refCount := 2; env := 7; body := PConn |}
                 (OciValue 40) DPI_OCI_ATTR_TYPE_NAME w
                 eq_refl eq_refl ltac:(simpl; lia)))
    as ([st p] & w' & E & H).
  { vm_compute. eexists. reflexivity. }
  assert (Hst : st = DPI_FAILURE).
  { apply (f_equal status_of_run) in E. vm_compute in E. now subst st. }
  exists (st, p), w'. split; [exact E|]. split; [exact Hst|].
  exact (H Hst).
Defined.

(** X2: whenever [dpiObjectType__allocate] succeeds it has created the
    descriptor it returns and one descriptor for each nested element type,
    all at addresses that were free, all distinct, each held by one
    reference and each referring to the connection; the reference count of
    the connection has grown by exactly the number of these descriptors;
    no other handle and no string that existed has changed, the live
    describe handles are those of before and nothing was freed that was
    not live. *)
Theorem allocate_success_accounting (fuel : nat) (c : positive)
    (cb : dpiBaseType) (param : ociPtr) (na : ociAttr) (w : world) :
  handles w !! c = Some cb ->
  body cb = PConn ->
  1 <= refCount cb ->
  wlp (dpiObjectType__allocate fuel (Some c) param na)
      (fun r w' =>
         fst r = DPI_SUCCESS ->
         exists temp t es,
           snd r = Some temp /\
           NoDup (temp :: es.*1) /\
           (forall x, x ∈ temp :: es.*1 -> handles w !! x = None) /\
           handles w' !! temp
           = Some {| refCount := 1; env := env cb;
                     body := PObjectType t |} /\
           ot_conn t = Some c /\
           (forall e te, (e, te) ∈ es ->
              exists eb, handles w' !! e = Some eb /\
                         body eb = PObjectType te /\ refCount eb = 1 /\
                         ot_conn te = Some c) /\
           handles w' !! c
           = Some (add_refs (Z.of_nat (length (temp :: es.*1))) cb) /\
           (forall x, x <> c -> x ∉ temp :: es.*1 ->
              handles w' !! x = handles w !! x) /\
           (forall s, is_Some (strings w !! s) ->
              strings w' !! s = strings w !! s) /\
           mem_faults w' = mem_faults w /\
           ctx_live w' = ctx_live w) w.
Proof.
  intros Hcb Hcn Hcc.
  pose proof (allocate_storage_ind fuel c cb param na w Hcb Hcn Hcc) as H1.
  pose proof (steps_allocate fuel (Some c) param na w) as H2.
  unfold wpx in *.
  destruct (dpiObjectType__allocate fuel (Some c) param na w)
    as [[r w']|]; [|exact I].
  intros Hs. destruct H1 as (Hm & [(Hf & _)
                                  | (_ & temp & t & es & Hr & Hfresh & Ht
                                     & Hlen & Hbc & Hbn & Hbd & Hbsd & Hbf
                                     & Hbs & Hbfr & Hbsf)]).
  { rewrite Hs in Hf. discriminate. }
  destruct H2 as (Hl & _).
  exists temp, t, es.
  split; [assumption|]. split; [assumption|].
  split.
  { intros x Hx. apply elem_of_cons in Hx as [->|Hx]; auto. }
  split; [assumption|].
  split; [exact (nested_conn _ _ _ _ _ Hbn)|].
  split; [eapply nested_members; eassumption|].
  split.
  { rewrite Hbc. f_equal. unfold add_refs. cbn [refCount env body length].
    rewrite length_fmap. f_equal. lia. }
  split; [assumption|].
  split.
  { intros s [v Hv]. apply Hbsf. intros Hin.
    destruct (Hbs s Hin) as [Hnone _]. congruence. }
  split; assumption.
Qed.

Lemma allocate_success_accounting_witness :
  let w := example_world 0
             (script_of (describe_replies 122 0
                           ++ [reply_ok 44; reply_ok DPI_ORACLE_TYPE_OBJECT]
                           ++ describe_replies 108 2)) in
  exists temp t (es : list (positive * dpiObjectType)) w',
    dpiObjectType__allocate 4 (Some 1%positive) (OciValue 40)
      DPI_OCI_ATTR_TYPE_NAME w = Some (DPI_SUCCESS, Some temp, w') /\
    NoDup (temp :: es.*1) /\
    handles w' !! temp
    = Some {| refCount := 1; env := 7; body := PObjectType t |} /\
    handles w' !! 1%positive
    = Some {| refCount := 2 + Z.of_nat (length (temp :: es.*1)); env := 7;
              body := PConn |}.
Proof.
  intros w.
  destruct (wlp_returns _ _ _
              (allocate_success_accounting 4 1
                 {| refCount := 2; env := 7; body := PConn |}
                 (OciValue 40) DPI_OCI_ATTR_TYPE_NAME w
                 eq_refl eq_refl ltac:(simpl; lia)))
    as ([st p] & w' & E & H).
  { vm_compute. eexists. reflexivity. }
  assert (Hst : st = DPI_SUCCESS).
  { apply (f_equal status_of_run) in E. vm_compute in E. now subst st. }
  destruct (H Hst) as (temp & t & es & Hp & Hnd & _ & Ht & _ & _ & Hc & _).
  cbn in Hp. subst st p.
  exists temp, t, es, w'. split; [exact E|]. split; [exact Hnd|].
  split; [exact Ht|]. exact Hc.
Defined.

(** X3: a caller that describes a type with [dpiObjectType__allocate]
    and, when that succeeds, releases the descriptor with
    [dpiObjectType_release], ends with the storage it began with: the same
    registry (the count of the connection included), the same strings, the
    same live describe handles, and no free of anything that was not
    live. *)
Theorem describe_release_round_trip (fuel : nat) (c : positive)
    (cb : dpiBaseType) (param : ociPtr) (na : ociAttr) (w : world) :
  handles w !! c = Some cb ->
  body cb = PConn ->
  1 <= refCount cb ->
  wlp (describe_then_release fuel (Some c) param na)
      (fun _ w' => same_store w w') w.
Proof.
  intros Hcb Hcn Hcc.
  pose proof (steps_describe_then_release fuel (Some c) param na w) as Hctx.
  assert (Hst : wlp (describe_then_release fuel (Some c) param na)
                  (fun _ w' => handles w' = handles w /\
                               strings w' = strings w /\
                               mem_faults w' = mem_faults w) w).
  { unfold describe_then_release. apply wpx_bind.
    eapply wpx_mono; [apply (allocate_storage_ind fuel c cb); assumption|].
    intros [st p] wa (Hm & Hcase). cbn [fst snd] in Hcase.
    destruct Hcase as [(-> & -> & Hh & Hs)
                      | (-> & temp & t & es & -> & Hfresh & Ht & Hlen & Hbc
                         & Hbn & Hbd & Hbsd & Hbf & Hbs & Hbfr & Hbsf)].
    { wgo. auto. }
    wgo. destruct fuel as [|fuel]; [lia|].
    assert (Hct : c <> temp) by (intros ->; congruence).
    apply wp_wlp. eapply wpx_mono.
    { eapply (release_last_spec fuel wa temp _ t c _ es None Ht eq_refl).
      - split; [exact Hbc|]. split; [exact Hcn|].
        split; [cbn; lia|]. split; [exact Hbn|].
        split; [now rewrite app_nil_r|]. split; [exact Hbsd|].
        intros s Hs. now apply Hbs.
      - lia.
      - reflexivity. }
    intros st w' (_ & _ & Hdel & Hc' & _ & Hfr & Hs1 & Hs2 & Hmf & _).
    split; [|split; [|congruence]].
    - apply map_eq. intros x.
      destruct (decide (x ∈ temp :: es.*1)) as [Hin|Hout].
      { rewrite Hdel by assumption. symmetry.
        apply elem_of_cons in Hin as [->|Hin]; auto. }
      destruct (decide (x = c)) as [->|Hxc].
      { rewrite Hc', Hcb. unfold add_refs. cbn [refCount env body].
        destruct (_ =? _) eqn:E.
        { apply Z.eqb_eq in E. unfold add_refs in E. cbn in E. lia. }
        f_equal. destruct cb; cbn. f_equal. lia. }
      rewrite Hfr; [now apply Hbfr | assumption |].
      now rewrite app_nil_r.
    - apply map_eq. intros s.
      destruct (decide (s ∈ owned_all t es)) as [Hin|Hout].
      { rewrite Hs1 by assumption. symmetry. now apply Hbs. }
      rewrite Hs2 by assumption. now apply Hbsf. }
  unfold wpx in *.
  destruct (describe_then_release fuel (Some c) param na w)
    as [[st w']|]; [|exact I].
  destruct Hst as (Hh & Hs & Hm). destruct Hctx as (Hl & Hcf & _).
  repeat split; assumption.
Qed.

Lemma describe_release_round_trip_witness :
  let w := example_world 0
             (script_of (describe_replies 122 0
                           ++ [reply_ok 44; reply_ok DPI_ORACLE_TYPE_OBJECT]
                           ++ describe_replies 108 2)) in
  exists w',
    describe_then_release 4 (Some 1%positive) (OciValue 40)
      DPI_OCI_ATTR_TYPE_NAME w = Some (DPI_SUCCESS, w') /\
    same_store w w'.
Proof.
  intros w.
  destruct (wlp_returns _ _ _
              (describe_release_round_trip 4 1
                 {| refCount := 2; env := 7; body := PConn |}
                 (OciValue 40) DPI_OCI_ATTR_TYPE_NAME w
                 eq_refl eq_refl ltac:(simpl; lia)))
    as (st & w' & E & H).
  { vm_compute. eexists. reflexivity. }
  assert (Hst : st = DPI_SUCCESS).
  { apply (f_equal (fun r => match r with
                             | Some (s, _) => s
                             | None => 1
                             end)) in E.
    vm_compute in E. now subst st. }
  subst st. exists w'. split; [exact E|exact H].
Defined.

(** ** [dpiObjectType_getAttributes]: the caller's array and the registry *)

Lemma attr_cells_kept w0 w w' A arr :
  attr_cells w0 w A arr ->
  (forall k x, handles w !! k = Some x -> handles w' !! k = Some x) ->
  attr_cells w0 w' A arr.
Proof.
  intros H Hk j a Hj. destruct (H j a Hj) as [?|(Hf & ba & da & Hl & ?)];
    [now left|].
  right. split; [exact Hf|]. exists ba, da. split; [now apply Hk|assumption].
Qed.

Lemma attr_cells_insert_None w0 w A arr i :
  attr_cells w0 w A arr -> attr_cells w0 w A (<[i := None]> arr).
Proof.
  intros H j a Hj.
  apply list_lookup_insert_Some in Hj as [(_ & Hx & _)|(_ & Hj)];
    [discriminate|].
  exact (H j a Hj).
Qed.

Lemma attr_cells_insert_Some w0 w A arr i a :
  attr_cells w0 w A arr ->
  handles w0 !! a = None ->
  (exists ba da, handles w !! a = Some ba /\ body ba = PObjectAttr da /\
                 refCount ba = 1) ->
  attr_cells w0 w A (<[i := Some a]> arr).
Proof.
  intros H Hf Hl j a' Hj.
  apply list_lookup_insert_Some in Hj as [(_ & Hx & _)|(_ & Hj)].
  - injection Hx as <-. right. auto.
  - exact (H j a' Hj).
Qed.

Lemma attr_cells_refl w A : attr_cells w w A A.
Proof. intros j a Hj. now left. Qed.

Lemma getAttributes_loop_frame (h : positive) (b : dpiBaseType)
    (t : dpiObjectType) (l dh : ociPtr) (A : list (option positive)) :
  body b = PObjectType t ->
  forall (budget : nat) (i : Z) (arr : list (option positive)) (w0 w : world),
    handles w !! h = Some b ->
    store_kept w0 w ->
    attr_cells w0 w A arr ->
    0 <= i ->
    wlp (getAttributes_loop budget i h l dh arr)
        (fun r w' =>
           length (snd r) = length arr /\
           drop (Z.to_nat (ot_numAttributes t)) (snd r)
           = drop (Z.to_nat (ot_numAttributes t)) arr /\
           store_kept w0 w' /\
           attr_cells w0 w' A (snd r)) w.
Proof.
  intros Ht budget.
  induction budget as [|budget IH]; intros i arr w0 w Hb Hk Hcells Hi.
  - exact I.
  - rewrite getAttributes_loop_S. wgo. rewrite ?Hb. wgo. rewrite ?Ht. wgo.
    destruct (i <? ot_numAttributes t) eqn:Ei; wgo.
    2:{ auto. }
    apply Z.ltb_lt in Ei.
    destruct Hk as (Hk1 & Hk2 & Hk3).
    wreply; wgo.
    { destruct dh; wgo; try case_decide; wgo;
        (split; [reflexivity|]); (split; [reflexivity|]);
        (split; [split; [assumption|];
                 split; [assumption | wsimpl; assumption]|]);
        (eapply attr_cells_kept; [eassumption | wsimpl; auto]). }
    destruct (arr !! Z.to_nat i) as [x0|] eqn:Hx0; [|exact I].
    wgo. rewrite ?Hb. wgo.
    wreply; wgo.
    { destruct dh; wgo; try case_decide; wgo;
        (split; [apply length_insert|]);
        (split; [apply drop_insert_lt; lia|]);
        (split; [split; [assumption|];
                 split; [assumption | wsimpl; assumption]|]);
        apply attr_cells_insert_None;
        (eapply attr_cells_kept; [eassumption | wsimpl; auto]). }
    set (a := fresh (dom (handles w))).
    assert (Ha : handles w !! a = None)
      by (apply not_elem_of_dom, is_fresh).
    assert (Hne : a <> h) by congruence.
    assert (Ha0 : handles w0 !! a = None).
    { destruct (handles w0 !! a) as [x|] eqn:E; [|reflexivity].
      apply Hk1 in E. congruence. }
    wreply; wgo.
    { destruct dh; wgo; try case_decide; wgo;
        (split; [apply length_insert|]);
        (split; [apply drop_insert_lt; lia|]).
      all: split;
        [ unfold store_kept; wsimpl; split; [|split; assumption];
          intros k x Hkx; apply Hk1 in Hkx;
          assert (k <> a) by congruence; wmap; assumption
        | apply attr_cells_insert_None;
          eapply attr_cells_kept; [eassumption|]; wsimpl;
          intros k x Hkx; assert (k <> a) by congruence; wmap;
          assumption ]. }
    set (s := fresh (dom (strings w))).
    assert (Hs : strings w !! s = None)
      by (apply not_elem_of_dom, is_fresh).
    eapply wpx_mono.
    { apply (IH _ _ w0).
      - wsimpl. wmap. exact Hb.
      - split; [|split].
        + intros k x Hkx. apply Hk1 in Hkx. wsimpl.
          assert (k <> a) by congruence. wmap. assumption.
        + intros s' v Hv. apply Hk2 in Hv. wsimpl.
          assert (s' <> s) by congruence. wmap. assumption.
        + wsimpl. assumption.
      - apply attr_cells_insert_Some; [|exact Ha0|].
        + eapply attr_cells_kept; [eassumption|]. wsimpl.
          intros k x Hkx. assert (k <> a) by congruence. wmap. assumption.
        + wsimpl. eexists _, _. split; [wmap; reflexivity|].
          split; reflexivity.
      - unfold uint16. apply Z.mod_pos_bound. lia. }
    intros r w' (H1 & H2 & H3 & H4). cbv beta.
    split; [rewrite H1; apply length_insert|].
    split; [rewrite H2; apply drop_insert_lt; lia|].
    split; [exact H3|exact H4].
Qed.

Lemma getAttributes_frame (w : world) (h : positive) (b : dpiBaseType)
    (t : dpiObjectType) (capacity : Z)
    (attributes : list (option positive)) :
  handles w !! h = Some b ->
  body b = PObjectType t ->
  wlp (dpiObjectType_getAttributes (Some h) capacity (Some attributes))
      (fun r w' =>
         exists arr,
           snd r = Some arr /\ length arr = length attributes /\
           drop (Z.to_nat (ot_numAttributes t)) arr
           = drop (Z.to_nat (ot_numAttributes t)) attributes /\
           attr_cells w w' attributes arr) w.
Proof.
  intros Hb Ht.
  assert (Hin : forall (n : nat) l, n ∈ n :: l)
    by (intros; apply list_elem_of_here).
  assert (Hrefl : forall w', attr_cells w w' attributes attributes)
    by (intros w' j a Hj; now left).
  unfold dpiObjectType_getAttributes.
  wgo. rewrite ?Hb.
  rewrite decide_True by (eapply typeNum_objType; eassumption).
  wgo. rewrite ?Hb. wgo. rewrite ?Ht. wgo.
  destruct (capacity <? ot_numAttributes t); wgo.
  { eauto 6. }
  destruct (capacity =? 0); wgo.
  { eauto 6. }
  rewrite ?Hb. wgo.
  wreply; wgo.
  { eauto 6. }
  rewrite ?Hb. wgo. rewrite ?Ht. wgo.
  repeat (wreply; wgo;
          [ try (rewrite decide_True by apply Hin); wgo;
            eauto 6 |]).
  eapply wpx_mono.
  { eapply (getAttributes_loop_frame h b t _ _ attributes Ht _ 0
              attributes w).
    - wsimpl. exact Hb.
    - unfold store_kept; wsimpl; auto.
    - apply Hrefl.
    - lia. }
  intros [st arr'] w1 (H1 & H2 & H3 & H4). wsimpl. cbn [fst snd] in *.
  destruct (st <? 0); wgo.
  { eauto 6. }
  case_decide; wgo.
  all: exists arr'; repeat split; auto.
  all: eapply attr_cells_kept; [eassumption | wsimpl; auto].
Qed.

(** X4: whether it succeeds or fails, [dpiObjectType_getAttributes]
    hands back an array of the length it was given, and the cells from
    index [numAttributes] on are what they were: it writes into the first
    [numAttributes] cells only, whatever the capacity announced. *)
Theorem getAttributes_writes_within_bounds (w : world) (h : positive)
    (b : dpiBaseType) (t : dpiObjectType) (capacity : Z)
    (attributes : list (option positive)) :
  handles w !! h = Some b ->
  body b = PObjectType t ->
  wlp (dpiObjectType_getAttributes (Some h) capacity (Some attributes))
      (fun r w' =>
         exists arr,
           snd r = Some arr /\ length arr = length attributes /\
           forall j, (Z.to_nat (ot_numAttributes t) <= j)%nat ->
                     arr !! j = attributes !! j) w.
Proof.
  intros Hb Ht.
  eapply wpx_mono; [apply (getAttributes_frame w h b t); assumption|].
  intros r w' (arr & Hr & Hl & Hd & _). exists arr.
  split; [assumption|]. split; [assumption|].
  intros j Hj.
  replace j with (Z.to_nat (ot_numAttributes t)
                  + (j - Z.to_nat (ot_numAttributes t)))%nat by lia.
  rewrite <- !lookup_drop. now rewrite Hd.
Qed.

Lemma getAttributes_writes_within_bounds_witness :
  let w := example_world 2
             (script_of [reply_ok 0; reply_ok 0; reply_ok 43; reply_ok 44;
                         reply_ok 45; reply_ok 0; reply_ok 0;
                         reply_ok 46; reply_ok 0; reply_ok 0]) in
  exists a0 a1 w',
    dpiObjectType_getAttributes (Some 2%positive) 3
      (Some [None; None; Some 9%positive]) w
    = Some (DPI_SUCCESS, Some [a0; a1; Some 9%positive], w').
Proof.
  intros w.
  destruct (wlp_returns _ _ _
              (getAttributes_writes_within_bounds w 2%positive
                 {| refCount := 1; env := 7;
                    body := PObjectType (example_objType 2) |}
                 (example_objType 2) 3 [None; None; Some 9%positive]
                 eq_refl eq_refl))
    as ([st p] & w' & E & arr & Hp & Hl & Hj).
  { vm_compute. eexists. reflexivity. }
  assert (Hst : st = DPI_SUCCESS).
  { apply (f_equal status_of_run) in E. vm_compute in E. now subst st. }
  cbn in Hp. subst st p.
  destruct arr as [|a0 [|a1 [|a2 [|? ?]]]]; try discriminate Hl.
  pose proof (Hj 2%nat ltac:(vm_compute; lia)) as H2. cbn in H2.
  injection H2 as ->.
  exists a0, a1, w'. exact E.
Defined.

(** X5: whether it succeeds or fails, every pointer that
    [dpiObjectType_getAttributes] leaves in the array is the one the
    caller had put there or an attribute descriptor created by this call,
    live and held by one reference.  So after a failure part of the way
    the attributes already built are not released: they stay with the
    caller, in the array. *)
Theorem getAttributes_cells_live (w : world) (h : positive)
    (b : dpiBaseType) (t : dpiObjectType) (capacity : Z)
    (attributes : list (option positive)) :
  handles w !! h = Some b ->
  body b = PObjectType t ->
  wlp (dpiObjectType_getAttributes (Some h) capacity (Some attributes))
      (fun r w' =>
         exists arr, snd r = Some arr /\ attr_cells w w' attributes arr) w.
Proof.
  intros Hb Ht.
  eapply wpx_mono; [apply (getAttributes_frame w h b t); assumption|].
  intros r w' (arr & Hr & _ & _ & Hc). eauto.
Qed.

Lemma getAttributes_cells_live_witness :
  let w := example_world 2
             (script_of [reply_ok 0; reply_ok 0; reply_ok 43; reply_ok 44;
                         reply_ok 45; reply_ok 0; reply_ok 0;
                         reply_ok 46; reply_fail]) in
  exists a w',
    dpiObjectType_getAttributes (Some 2%positive) 2
      (Some [None; None]) w
    = Some (DPI_FAILURE, Some [Some a; None], w') /\
    handles w !! a = None /\
    exists ba da, handles w' !! a = Some ba /\ body ba = PObjectAttr da /\
                  refCount ba = 1.
Proof.
  intros w.
  destruct (wlp_returns _ _ _
              (getAttributes_cells_live w 2%positive
                 {| refCount := 1; env := 7;
                    body := PObjectType (example_objType 2) |}
                 (example_objType 2) 2 [None; None]
                 eq_refl eq_refl))
    as ([st p] & w' & E & arr & Hp & Hc).
  { vm_compute. eexists. reflexivity. }
  assert (Hst : st = DPI_FAILURE).
  { apply (f_equal status_of_run) in E. vm_compute in E. now subst st. }
  assert (Harr : exists a, p = Some [Some a; None]).
  { apply (f_equal (fun r : option (Z * option (list ptr) * world) =>
                      match r with
                      | Some (_, q, _) => q
                      | None => None
                      end)) in E.
    vm_compute in E. eexists. symmetry. exact E. }
  destruct Harr as [a ->]. cbn in Hp. injection Hp as <-. subst st.
  exists a, w'. split; [exact E|].
  destruct (Hc 0%nat a eq_refl) as [Hin|H]; [discriminate Hin|exact H].
Defined.

Lemma run_bind {A B} (m : M A) (f : A -> M B) w a w' :
  m w = Some (a, w') -> bind m f w = f a w'.
Proof. unfold bind. now intros ->. Qed.

(** X7: on a pointer that is not a live type descriptor ([NULL], an
    address without a live handle, a handle of another kind) each of the
    five public functions fails with [DPI_ERR_INVALID_HANDLE], leaves its
    output argument as it was and does nothing else: no call of the
    client library, no change of the registry. *)
Theorem invalid_handle_rejected (fuel : nat) (p : ptr)
    (info : option dpiObjectTypeInfo) (capacity : Z)
    (attributes : option (list ptr)) (obj : option ptr) (w : world) :
  ~ valid_objType w p ->
  dpiObjectType_getInfo p info w
  = Some (DPI_FAILURE, info, with_error DPI_ERR_INVALID_HANDLE w) /\
  dpiObjectType_getAttributes p capacity attributes w
  = Some (DPI_FAILURE, attributes, with_error DPI_ERR_INVALID_HANDLE w) /\
  dpiObjectType_createObject fuel p obj w
  = Some (DPI_FAILURE, obj, with_error DPI_ERR_INVALID_HANDLE w) /\
  dpiObjectType_addRef fuel p w
  = Some (DPI_FAILURE, with_error DPI_ERR_INVALID_HANDLE w) /\
  dpiObjectType_release fuel p w
  = Some (DPI_FAILURE, with_error DPI_ERR_INVALID_HANDLE w).
Proof.
  intros Hinv.
  assert (Hstart : dpiGen__startPublicFn p DPI_HTYPE_OBJECT_TYPE w
                   = Some (DPI_FAILURE,
                           with_error DPI_ERR_INVALID_HANDLE w)).
  { unfold dpiGen__startPublicFn. destruct p as [h|]; [|reflexivity].
    unfold bind, get. destruct (handles w !! h) as [b|] eqn:Hb;
      [|reflexivity].
    destruct (decide (typeNum b = DPI_HTYPE_OBJECT_TYPE)) as [Hk|Hk];
      [|reflexivity].
    exfalso. apply Hinv. exists h, b. auto. }
  unfold dpiObjectType_getInfo, dpiObjectType_getAttributes,
    dpiObjectType_createObject, dpiObjectType_addRef, dpiObjectType_release,
    dpiGen__addRef, dpiGen__release.
  rewrite !(run_bind _ _ _ _ _ Hstart).
  repeat split; reflexivity.
Qed.

Lemma invalid_handle_rejected_witness :
  let w := example_world 0 (script_of []) in
  ~ valid_objType w (Some 1%positive) /\
  dpiObjectType_release 2 (Some 1%positive) w
  = Some (DPI_FAILURE, with_error DPI_ERR_INVALID_HANDLE w).
Proof.
  intros w.
  assert (Hinv : ~ valid_objType w (Some 1%positive)).
  { intros (h & b & E & Hb & Hk). injection E as <-.
    vm_compute in Hb. injection Hb as <-. discriminate Hk. }
  split; [exact Hinv|].
  exact (proj2 (proj2 (proj2 (proj2
           (invalid_handle_rejected 2 (Some 1%positive) None 0 None None w
              Hinv))))).
Defined.

(** X8: on a valid descriptor, [dpiObjectType_createObject] with a
    [NULL] [obj] and [dpiObjectType_getAttributes] with a [NULL]
    [attributes] fail with [DPI_ERR_NULL_POINTER_PARAMETER] before doing
    anything: nothing is allocated and the client library is not
    called.  For [dpiObjectType_getAttributes] this holds whatever the
    capacity, zero included, since the pointer is checked first. *)
Theorem null_output_rejected (fuel : nat) (h : positive) (b : dpiBaseType)
    (capacity : Z) (w : world) :
  handles w !! h = Some b ->
  typeNum b = DPI_HTYPE_OBJECT_TYPE ->
  dpiObjectType_createObject fuel (Some h) None w
  = Some (DPI_FAILURE, None, with_error DPI_ERR_NULL_POINTER_PARAMETER w) /\
  dpiObjectType_getAttributes (Some h) capacity None w
  = Some (DPI_FAILURE, None, with_error DPI_ERR_NULL_POINTER_PARAMETER w).
Proof.
  intros Hb Hk. split; apply wp_run.
  - unfold dpiObjectType_createObject. wgo.
    rewrite decide_True by assumption. wgo. auto.
  - unfold dpiObjectType_getAttributes. wgo.
    rewrite decide_True by assumption. wgo. auto.
Qed.

Lemma null_output_rejected_witness :
  let w := example_world 2 (script_of []) in
  dpiObjectType_getAttributes (Some 2%positive) 5 None w
  = Some (DPI_FAILURE, None, with_error DPI_ERR_NULL_POINTER_PARAMETER w).
Proof.
  intros w.
  exact (proj2 (null_output_rejected 2 2%positive
                  {| refCount := 1; env := 7;
                     body := PObjectType (example_objType 2) |}
                  5 w eq_refl eq_refl)).
Defined.

(** X9: a caller that creates an object with
    [dpiObjectType_createObject] and, having got one, releases its own
    reference to the type with [dpiObjectType_release], always returns.
    If the creation failed the registry is what it was.  Otherwise the
    only change of the registry is the new object: the descriptor is still
    there, with the count it had before, now on behalf of the object that
    refers to it. *)
Theorem object_keeps_descriptor (fuel : nat) (w : world) (h : positive)
    (b : dpiBaseType) (cell : option positive) :
  handles w !! h = Some b ->
  typeNum b = DPI_HTYPE_OBJECT_TYPE ->
  1 <= refCount b ->
  (2 <= fuel)%nat ->
  wp (create_then_release fuel (Some h) (Some cell))
     (fun r w' =>
        (fst r = DPI_FAILURE /\ snd r = Some cell /\
         handles w' = handles w)
        \/
        (fst r = DPI_SUCCESS /\
         exists o ob,
           snd r = Some (Some o) /\ handles w !! o = None /\
           handles w' = <[o := {| refCount := 1; env := env b;
                                  body := PObject ob |}]> (handles w) /\
           ob_type ob = Some h)) w.
Proof.
  intros Hb Hk Hc Hf.
  destruct fuel as [|[|fuel]]; try lia.
  unfold create_then_release, dpiObjectType_createObject,
    dpiObjectType_release, dpiGen__release.
  wgo. rewrite decide_True by assumption. wgo. rewrite ?Hb. wgo.
  set (o := fresh (dom (handles w))).
  assert (Ho : handles w !! o = None)
    by (apply not_elem_of_dom, is_fresh).
  assert (Hne : o <> h) by congruence.
  assert (Hne' : h <> o) by congruence.
  destruct (typeNum_objType_inv b Hk) as [t Ht].
  repeat (wreply; wgo; rewrite ?Hb, ?Ht; wgo;
          try rewrite decide_True by assumption; wgo).
  5: rewrite decide_True by reflexivity; wgo.
  1-4: left; split; [reflexivity|]; split; [reflexivity|].
  5: right; split; [reflexivity|];
     match goal with
     | |- context [<[h := _]> (<[_ := {| refCount := 1; env := _;
                                        body := PObject ?X |}]> _)] =>
         exists o, X
     end;
     split; [reflexivity|]; split; [assumption|]; split; [|reflexivity].
  all: try reflexivity.
  all: change (fresh (dom (handles w))) with o; clearbody o.
  all: apply map_eq; intros k.
  all: destruct (decide (k = o)) as [->|Hko];
    [ rewrite ?lookup_delete_eq, ?lookup_insert_eq,
        ?(lookup_insert_ne _ h o), ?lookup_insert_eq by assumption;
      try reflexivity; try (symmetry; assumption)
    | rewrite ?lookup_delete_ne, ?(lookup_insert_ne _ o k) by congruence ].
  all: destruct (decide (k = h)) as [->|Hkh];
    repeat first [ rewrite lookup_insert_eq
                 | rewrite lookup_insert_ne by congruence
                 | rewrite lookup_delete_ne by congruence ];
    try reflexivity.
  all: rewrite Hb; f_equal; destruct b; cbn in *; subst; f_equal; lia.
Qed.

Lemma object_keeps_descriptor_witness :
  let w := example_world 0
             (script_of [reply_ok 0; reply_ok 0; reply_ok 61; reply_ok 62]) in
  exists o ob w',
    create_then_release 2 (Some 2%positive) (Some None) w
    = Some (DPI_SUCCESS, Some (Some o), w') /\
    handles w' !! o
    = Some {| refCount := 1; env := 7; body := PObject ob |} /\
    ob_type ob = Some 2%positive /\
    handles w' !! 2%positive = handles w !! 2%positive.
Proof.
  intros w.
  destruct (wp_elim _ _ _
              (object_keeps_descriptor 2 w 2%positive
                 {| refCount := 1; env := 7;
                    body := PObjectType (example_objType 0) |}
                 None eq_refl eq_refl ltac:(simpl; lia) ltac:(lia)))
    as ([st p] & w' & E & H).
  assert (Hst : st = DPI_SUCCESS).
  { apply (f_equal status_of_run) in E. vm_compute in E. now subst st. }
  destruct H as [(Hf & _) | (_ & o & ob & Hp & Ho & Hw & Hty)].
  { cbn in Hf. rewrite Hst in Hf. discriminate. }
  cbn in Hp. subst st p.
  assert (Hne : o <> 2%positive) by (intros ->; discriminate Ho).
  exists o, ob, w'. split; [exact E|]. rewrite Hw.
  split; [apply lookup_insert_eq|]. split; [exact Hty|].
  now rewrite lookup_insert_ne by exact Hne.
Defined.

(** X10: on a valid descriptor, [dpiObjectType_addRef] followed, when it
    succeeded, by [dpiObjectType_release] always returns and leaves the
    registry and the strings as they were: the descriptor is not freed and
    its count is the one it had.  The pair succeeds unless the increment
    was refused. *)
Theorem addRef_release_round_trip (fuel : nat) (w : world) (h : positive)
    (b : dpiBaseType) :
  handles w !! h = Some b ->
  typeNum b = DPI_HTYPE_OBJECT_TYPE ->
  1 <= refCount b ->
  (1 <= fuel)%nat ->
  wp (addRef_then_release fuel (Some h))
     (fun st w' =>
        handles w' = handles w /\ strings w' = strings w /\
        mem_faults w' = mem_faults w /\
        (st = DPI_SUCCESS <-> (rc (script w (clock w)) <? 0) = false)) w.
Proof.
  intros Hb Hk Hc Hf.
  destruct fuel as [|fuel]; try lia.
  unfold addRef_then_release, dpiObjectType_addRef, dpiObjectType_release,
    dpiGen__addRef, dpiGen__release.
  wgo. rewrite decide_True by assumption. wgo.
  wreply; wgo.
  { repeat split; auto; discriminate. }
  rewrite decide_True by assumption. wgo.
  split; [|repeat split; auto].
  apply map_eq. intros k.
  repeat first [rewrite lookup_insert | rewrite lookup_delete].
  repeat case_decide; subst; try congruence.
  rewrite Hb. f_equal. destruct b; cbn in *. f_equal. lia.
Qed.

Lemma addRef_release_round_trip_witness :
  let w := example_world 0 (script_of [reply_ok 0]) in
  exists w',
    addRef_then_release 2 (Some 2%positive) w = Some (DPI_SUCCESS, w') /\
    handles w' = handles w.
Proof.
  intros w.
  destruct (wp_elim _ _ _
              (addRef_release_round_trip 2 w 2%positive
                 {| refCount := 1; env := 7;
                    body := PObjectType (example_objType 0) |}
                 eq_refl eq_refl ltac:(simpl; lia) ltac:(lia)))
    as (st & w' & E & Hh & _ & _ & Hst).
  assert (Hs : st = DPI_SUCCESS) by (apply Hst; reflexivity).
  subst st. exists w'. split; [exact E|exact Hh].
Defined.
